(** * py-xtimeout: the watchdog core of [src/xtimeout/_xtimeout.cpp]

    A shallow embedding of the deadline watchdog: the per-timer object
    [CLocalInjector], the dispatcher [CAttacher] (the [WITH_THREAD] build),
    the registry and background loop [CContextHelper], and the binding
    functions [InjectorStart] / [InjectorStop] / [InjectorReset].

    Conventions of the model.
    - An address of a [CLocalInjector] is a [ptr]; the objects live in a
      [heap].  A [shared_ptr] and a raw pointer to the same object are the
      same [ptr]; the heap never frees, which is what shared ownership
      gives as long as a reference is outstanding.
    - Instants of [std::chrono::steady_clock] and [nanoseconds] values
      are integers counting nanoseconds; [milliseconds] values are integers
      counting milliseconds and are converted with [ns_of_ms] wherever the
      source mixes the two units.
    - The calls of the host interpreter are external collaborators:
      [Py_AddPendingCall] gets its verdict from an oracle, a Python callback
      gets its outcome (returned / raised) from the label of the step that
      runs it.
    - The operations of the program are interleaved at two grains.  In
      [step] a transition is one call of [Start], [Stop], [Reset], one
      whole iteration of the [do .. while] loop of [CheckThread], one
      pending call, one trace event, and assertions are taken to hold.  In
      [pstep] the thread runs statement by statement between the calls,
      the loop takes the map in any order, the owners of every injector are
      counted and a failing assertion ends the process.  An iteration of
      [step] is what the statements of [pstep] do when nothing runs in
      between. *)

From Stdlib Require Import ZArith String.
From stdpp Require Import base option list gmap fin_maps.

Local Open Scope Z_scope.

Module XTimeout.

#[local] Set Warnings "-notation-for-abbreviation".

(** ** Data *)

Notation ptr := nat (only parsing).        (* CLocalInjector*  *)
Notation tid := nat (only parsing).        (* a PyThreadState / its OS thread *)
Notation handle := nat (only parsing).     (* a PyInjector object *)
Notation callable := nat (only parsing).   (* a Python callable, by identity *)

(** [static const auto INTERVAL_RESOLUTION = std::chrono::milliseconds(5)] *)
Definition INTERVAL_RESOLUTION : Z := 5.
Definition LLONG_MAX : Z := 9223372036854775807.

(** Conversion [milliseconds] -> [nanoseconds] of the common type. *)
Definition ns_of_ms (ms : Z) : Z := ms * 1000000.

(** The trace functions a thread state can hold: [OnTrace] of this module,
    or one that belongs to unrelated instrumentation. *)
Inductive Py_tracefunc : Type :=
  | OnTrace_fn
  | ForeignTrace (n : nat).

#[local] Set Warnings "-register-all".

(** Python objects the module handles.  A capsule carries the [CArgWrapper]
    it was created for: the injector and the captured trace handler. *)
Inductive PyObject : Type :=
  | PyFloat (ns : Z)          (* float of [_PyTime_AsSecondsDouble(ns)] *)
  | PyCapsule (injector : ptr) (tracefunc : option Py_tracefunc)
              (pyTraceobj : option PyObject)
  | PyOther (n : nat).

(** What sits in a variadic argument slot of a C call. *)
Inductive va_slot : Type :=
  | VaObject (o : PyObject)   (* a [PyObject*] *)
  | VaDouble (ns : Z).        (* a C [double], seconds of [ns] nanoseconds *)

(** [class CThreadState] (the fields that survive a Swap/Restore pair). *)
Record CThreadState : Type := mkThreadState {
  m_State : tid;
  m_IsMainThread : bool
}.

(** [class CLocalInjector]. *)
Record CLocalInjector : Type := mkInjector {
  m_IsValid : bool;
  m_Callback : option callable;   (* [None] is [nullptr] *)
  m_Duration : Z;                 (* milliseconds *)
  m_StartTime : Z;                (* time point, nanoseconds *)
  m_ThState : CThreadState
}.

(** Where the thread [m_CheckTh] is. *)
Inductive thread_phase : Type :=
  | NotStarted      (* [m_CheckTh] not joinable *)
  | Scanning        (* inside the [do .. while (m_Running)] loop *)
  | Parked          (* blocked in [m_RunCond.wait] *)
  | Exited.         (* left [while (!m_IsQuit)] *)

(** [class CContextHelper]. *)
Record CContextHelper : Type := mkHelper {
  m_CheckTh : thread_phase;
  m_IsQuit : bool;
  m_Running : bool;
  m_CallMap : gmap nat nat;       (* CLocalInjector* -> shared_ptr *)
  m_NewVect : list ptr;
  m_DelVect : list ptr
}.

(** The trace slot of a [PyThreadState]. *)
Record PyThreadState : Type := mkTState {
  c_tracefunc : option Py_tracefunc;
  c_traceobj : option PyObject
}.

(** Observable events, oldest first in the log. *)
Inductive event : Type :=
  | EvStart (p : ptr)       (* [CContextHelper::Start] registered [p] *)
  | EvAttach (p : ptr)      (* the scan called [CAttacher::Attach] on [p] *)
  | EvErase (p : ptr)       (* the scan erased key [p] from [m_CallMap] *)
  | EvCallback (p : ptr) (f : callable) (arg : option PyObject)
                            (* [PyObject_CallFunction] ran the callback *)
  | EvSleep (ms : Z).       (* [AccurateSleep(ms)] *)

(** The whole process. *)
Record World : Type := mkWorld {
  heap : gmap nat CLocalInjector;
  handles : gmap nat nat;              (* PyInjector -> its [injector] *)
  helper : CContextHelper;             (* [CContextHelper::Instance()] *)
  pendingcalls : list ptr;             (* queued [OnFastTrace] requests *)
  tstates : gmap nat PyThreadState;
  g_MainThreadId : tid;
  log : list event
}.

(** *** Field updates *)

Definition set_valid (b : bool) (i : CLocalInjector) : CLocalInjector :=
  mkInjector b (m_Callback i) (m_Duration i) (m_StartTime i) (m_ThState i).
Definition set_callback (c : option callable) (i : CLocalInjector) : CLocalInjector :=
  mkInjector (m_IsValid i) c (m_Duration i) (m_StartTime i) (m_ThState i).
Definition set_duration (d : Z) (i : CLocalInjector) : CLocalInjector :=
  mkInjector (m_IsValid i) (m_Callback i) d (m_StartTime i) (m_ThState i).
Definition set_starttime (t : Z) (i : CLocalInjector) : CLocalInjector :=
  mkInjector (m_IsValid i) (m_Callback i) (m_Duration i) t (m_ThState i).

Definition set_phase (ph : thread_phase) (c : CContextHelper) : CContextHelper :=
  mkHelper ph (m_IsQuit c) (m_Running c) (m_CallMap c) (m_NewVect c) (m_DelVect c).
Definition set_quit (b : bool) (c : CContextHelper) : CContextHelper :=
  mkHelper (m_CheckTh c) b (m_Running c) (m_CallMap c) (m_NewVect c) (m_DelVect c).
Definition set_running (b : bool) (c : CContextHelper) : CContextHelper :=
  mkHelper (m_CheckTh c) (m_IsQuit c) b (m_CallMap c) (m_NewVect c) (m_DelVect c).
Definition set_callmap (m : gmap nat nat) (c : CContextHelper) : CContextHelper :=
  mkHelper (m_CheckTh c) (m_IsQuit c) (m_Running c) m (m_NewVect c) (m_DelVect c).
Definition set_newvect (l : list ptr) (c : CContextHelper) : CContextHelper :=
  mkHelper (m_CheckTh c) (m_IsQuit c) (m_Running c) (m_CallMap c) l (m_DelVect c).
Definition set_delvect (l : list ptr) (c : CContextHelper) : CContextHelper :=
  mkHelper (m_CheckTh c) (m_IsQuit c) (m_Running c) (m_CallMap c) (m_NewVect c) l.

Definition set_heap (h : gmap nat CLocalInjector) (w : World) : World :=
  mkWorld h (handles w) (helper w) (pendingcalls w) (tstates w) (g_MainThreadId w) (log w).
Definition set_handles (h : gmap nat nat) (w : World) : World :=
  mkWorld (heap w) h (helper w) (pendingcalls w) (tstates w) (g_MainThreadId w) (log w).
Definition set_helper (c : CContextHelper) (w : World) : World :=
  mkWorld (heap w) (handles w) c (pendingcalls w) (tstates w) (g_MainThreadId w) (log w).
Definition set_pending (q : list ptr) (w : World) : World :=
  mkWorld (heap w) (handles w) (helper w) q (tstates w) (g_MainThreadId w) (log w).
Definition set_tstates (t : gmap nat PyThreadState) (w : World) : World :=
  mkWorld (heap w) (handles w) (helper w) (pendingcalls w) t (g_MainThreadId w) (log w).
Definition emit (e : event) (w : World) : World :=
  mkWorld (heap w) (handles w) (helper w) (pendingcalls w) (tstates w) (g_MainThreadId w)
          (log w ++ [e]).

(** ** [CLocalInjector] *)

(** An injector that has been released: what a read through an address
    that was never allocated is given.  Registered addresses are always
    allocated, their [shared_ptr] keeps them alive. *)
Definition released_injector : CLocalInjector :=
  mkInjector false None 0 0 (mkThreadState 0%nat false).

Definition deref (w : World) (p : ptr) : CLocalInjector :=
  default released_injector (heap w !! p).

Definition update (p : ptr) (f : CLocalInjector -> CLocalInjector) (w : World) : World :=
  set_heap (alter f p (heap w)) w.

(** [CLocalInjector()] on thread [th]: valid, no callback, the thread state
    of the caller.  [m_Duration] is set by the [SetDuration] that follows
    every construction in the source. *)
Definition CLocalInjector_new (w : World) (th : tid) : CLocalInjector :=
  mkInjector true None 0 0 (mkThreadState th (Nat.eqb (g_MainThreadId w) th)).

(** [SetCallback]: [Py_XSETREF(m_Callback, func); Py_INCREF(func)].  The
    unconditional [Py_INCREF] dereferences [func]: a null [func] faults. *)
Definition SetCallback (func : option callable) (i : CLocalInjector) : option CLocalInjector :=
  match func with
  | Some f => Some (set_callback (Some f) i)
  | None => None
  end.

Definition SetDuration (ms : Z) (i : CLocalInjector) : CLocalInjector := set_duration ms i.
Definition RecordStartTime (now : Z) (i : CLocalInjector) : CLocalInjector := set_starttime now i.
Definition IsMainThreadInjector (i : CLocalInjector) : bool := m_IsMainThread (m_ThState i).
Definition IsValid (i : CLocalInjector) : bool := m_IsValid i.

(** [Release]: [m_IsValid = false; Py_CLEAR(m_Callback)]. *)
Definition Release (i : CLocalInjector) : CLocalInjector :=
  set_callback None (set_valid false i).

(** ** Host interpreter primitives *)

Definition no_trace : PyThreadState := mkTState None None.

Definition tstate (w : World) (t : tid) : PyThreadState :=
  default no_trace (tstates w !! t).

(** [PyEval_SetTrace(func, arg)] with [t] the current thread state. *)
Definition PyEval_SetTrace (t : tid) (func : option Py_tracefunc) (arg : option PyObject)
    (w : World) : World :=
  set_tstates (<[t := mkTState func arg]> (tstates w)) w.

(** [Py_AddPendingCall]: [0] and the request queued, or [-1] and nothing
    queued; the verdict [ok] is the interpreter's. *)
Definition Py_AddPendingCall (ok : bool) (arg : ptr) (w : World) : Z * World :=
  if ok then (0, set_pending (pendingcalls w ++ [arg]) w) else (-1, w).

(** [TimePointToPyFloat]. *)
Definition TimePointToPyFloat (time : Z) : PyObject := PyFloat time.

(** How [PyObject_CallFunction] builds the argument from its format and the
    variadic slot: ["O"] takes an object pointer, ["(d)"] takes a C double.
    Reading the slot at the other type is not defined by the language:
    [None]. *)
Definition Py_BuildValue (format : string) (a : va_slot) : option PyObject :=
  if String.eqb format "O" then
    match a with VaObject o => Some o | VaDouble _ => None end
  else if String.eqb format "(d)" then
    match a with VaDouble ns => Some (PyFloat ns) | VaObject _ => None end
  else None.

(** [PyObject_CallFunction(callback, format, arg)] for the callback of
    injector [p]; [ok] tells whether the callable returns ([true]) or raises
    ([false], the result is [nullptr]).  A null callable is reported by the
    interpreter as a null result. *)
Definition PyObject_CallFunction (p : ptr) (callback : option callable) (format : string)
    (a : va_slot) (ok : bool) (w : World) : bool * World :=
  match callback with
  | Some f => (ok, emit (EvCallback p f (Py_BuildValue format a)) w)
  | None => (false, w)
  end.

(** ** Dispatch: [FastCall], [Call], [OnFastTrace], [OnTrace], [Attach] *)

Definition FastCall (addOk : bool) (injector : ptr) (w : World) : World :=
  if negb (IsValid (deref w injector)) then w
  else
    let '(res, w1) := Py_AddPendingCall addOk injector w in
    if res =? -1 then w1 (* TODO: if add pending failed, ... *) else w1.

Definition Call (injector : ptr) (w : World) : World :=
  if negb (IsValid (deref w injector)) then w
  else
    (* SwapState: the current thread state is the injector's *)
    let t := m_State (m_ThState (deref w injector)) in
    let state := tstate w t in
    let capsule := PyCapsule injector (c_tracefunc state) (c_traceobj state) in
    PyEval_SetTrace t (Some OnTrace_fn) (Some capsule) w.

Definition OnFastTrace (ok : bool) (injector : ptr) (w : World) : Z * World :=
  if negb (IsValid (deref w injector)) then (0, w)
  else
    let callback := m_Callback (deref w injector) in
    let pyStartTime := TimePointToPyFloat (m_StartTime (deref w injector)) in
    let '(res, w1) :=
      PyObject_CallFunction injector callback "O" (VaObject pyStartTime) ok w in
    if res then (0, w1) else (-1, w1).

(** [OnTrace], run by thread [t] at a trace event.  [None]: the assertion
    on the capsule fails. *)
Definition OnTrace (t : tid) (ok : bool) (w : World) : option (Z * World) :=
  match c_traceobj (tstate w t) with
  | Some (PyCapsule injector tracefunc pyTraceobj) =>
      (* recover the old trace *)
      let w1 := PyEval_SetTrace t tracefunc pyTraceobj w in
      let pyStartTime := TimePointToPyFloat (m_StartTime (deref w1 injector)) in
      let callback := m_Callback (deref w1 injector) in
      if negb (IsValid (deref w1 injector)) then Some (0, w1)
      else
        let '(res, w2) :=
          PyObject_CallFunction injector callback "(d)" (VaObject pyStartTime) ok w1 in
        if res then Some (0, w2) else Some (-1, w2)
  | _ => None
  end.

(** [CAttacher::Attach], [WITH_THREAD] build. *)
Definition Attach (addOk : ptr -> bool) (injector : ptr) (w : World) : World :=
  if IsMainThreadInjector (deref w injector)
  then FastCall (addOk injector) injector w
  else Call injector w.

(** ** [CContextHelper]: the registry *)

Definition joinable (c : CContextHelper) : bool :=
  match m_CheckTh c with NotStarted => false | _ => true end.

(** [m_RunCond.notify_one()] / [notify_all()]: a thread blocked in [wait]
    returns to the test of [while (!m_IsQuit)]. *)
Definition notify (c : CContextHelper) : CContextHelper :=
  match m_CheckTh c with
  | Parked => set_phase (if m_IsQuit c then Exited else Scanning) c
  | _ => c
  end.

Definition AddTimeoutCallback (pInjector : ptr) (c : CContextHelper) : CContextHelper :=
  if m_Running c
  then set_newvect (m_NewVect c ++ [pInjector]) c
  else set_callmap (<[pInjector := pInjector]> (m_CallMap c)) c.

Definition helper_Start (pInjector : ptr) (c : CContextHelper) : CContextHelper :=
  let c1 := AddTimeoutCallback pInjector c in
  let c2 := if negb (m_Running c1) then set_running true c1 else c1 in
  let c3 := if negb (joinable c2)
            then set_phase Scanning (set_quit false c2)   (* the thread is created *)
            else c2 in
  notify c3.

(** [CContextHelper::Start] on the world. *)
Definition Start (pInjector : ptr) (w : World) : World :=
  emit (EvStart pInjector) (set_helper (helper_Start pInjector (helper w)) w).

Definition helper_Stop (pInjector : ptr) (c : CContextHelper) : CContextHelper :=
  match m_CallMap c !! pInjector with
  | None => c
  | Some _ =>
      if m_Running c
      then set_delvect (m_DelVect c ++ [pInjector]) c     (* delete later *)
      else set_callmap (delete pInjector (m_CallMap c)) c
  end.

(** [CContextHelper::Stop]. *)
Definition Stop (pInjector : ptr) (w : World) : World :=
  let w1 := update pInjector Release w in
  set_helper (helper_Stop pInjector (helper w1)) w1.

(** [CContextHelper::Merge]; the validity of an item is read in the heap. *)
Definition Merge (w : World) : World :=
  let c := helper w in
  let m1 := foldl (fun m item => delete item m) (m_CallMap c) (m_DelVect c) in
  let c1 := set_delvect [] (set_callmap m1 c) in
  let m2 := foldl (fun m item =>
                     if negb (IsValid (deref w item)) then m   (* it maybe released *)
                     else <[item := item]> m)
                  (m_CallMap c1) (m_NewVect c1) in
  set_helper (set_newvect [] (set_callmap m2 c1)) w.

(** ** [CContextHelper::CheckThread] *)

(** The readings of [ClockType::now()] during one iteration of the
    [do .. while] loop: before the scan, at the visit of each entry, after
    [Merge]. *)
Record ScanClock : Type := mkClock {
  t_begin : Z;
  t_at : ptr -> Z;
  t_end : Z
}.

Definition erase_entry (k : ptr) (w : World) : World :=
  emit (EvErase k) (set_helper (set_callmap (delete k (m_CallMap (helper w))) (helper w)) w).

(** The [for] loop over [m_CallMap].  [its] is what the iterator still has
    to visit; erasing the visited entry leaves the others in place.  The
    assertion between [Attach] and [erase] is taken to hold here;
    [scan_loop_asserting] below checks it. *)
Fixpoint scan_loop (clk : ScanClock) (addOk : ptr -> bool) (its : list (ptr * ptr))
    (minSpan : Z) (w : World) : Z * World :=
  match its with
  | [] => (minSpan, w)
  | (k, injector) :: rest =>
      let span := t_at clk k - m_StartTime (deref w injector) in
      let duration := ns_of_ms (m_Duration (deref w injector)) in
      if span >? duration then
        let w1 := Attach addOk injector (emit (EvAttach injector) w) in
        let w2 := erase_entry k w1 in
        scan_loop clk addOk rest minSpan w2
      else
        let minSpan' := Z.min minSpan (duration - span) in
        if m_IsQuit (helper w) then (minSpan', w)
        else scan_loop clk addOk rest minSpan' w
  end.

(** The loop from [m_CallMap.begin()], the entries taken in the order of
    [map_to_list]; [thread_step] below takes them in any order. *)
Definition scan (clk : ScanClock) (addOk : ptr -> bool) (w : World) : Z * World :=
  scan_loop clk addOk (map_to_list (m_CallMap (helper w))) LLONG_MAX w.

(** [AccurateSleep(nMilliseconds)]. *)
Definition AccurateSleep (nMilliseconds : Z) (w : World) : World :=
  emit (EvSleep nMilliseconds) w.

(** The test that guards [AccurateSleep(1)]. *)
Definition sleep_wanted (minSpan startTime endTime : Z) : bool :=
  minSpan - (endTime - startTime) >? ns_of_ms INTERVAL_RESOLUTION.

(** The milliseconds slept at the end of an iteration. *)
Definition sleep_ms (minSpan startTime endTime : Z) : Z :=
  if sleep_wanted minSpan startTime endTime then 1 else 0.

Definition after_merge (clk : ScanClock) (addOk : ptr -> bool) (w : World) : Z * World :=
  let '(minSpan, w1) := scan clk addOk w in (minSpan, Merge w1).

(** One iteration of the body of [do .. while (m_Running)]. *)
Definition cycle (clk : ScanClock) (addOk : ptr -> bool) (w : World) : World :=
  let '(minSpan, w2) := after_merge clk addOk w in
  let w3 := if bool_decide (m_CallMap (helper w2) = ∅)
            then set_helper (set_running false (helper w2)) w2
            else w2 in
  if sleep_wanted minSpan (t_begin clk) (t_end clk) then AccurateSleep 1 w3 else w3.

(** Where the thread goes after the iteration: around the loop again, or out
    of it to [wait] (or out of [while (!m_IsQuit)]). *)
Definition loop_exit (c : CContextHelper) : CContextHelper :=
  if m_Running c then c
  else if m_IsQuit c then set_phase Exited c
  else set_phase Parked c.

(** A whole iteration, and the way out of the loop, as one transition:
    nothing else runs from the first reading of the clock to the test of
    [while (m_Running)] and, when the loop ends, to [wait].  [thread_step]
    below has the same statements one at a time. *)
Definition CheckThread_iteration (clk : ScanClock) (addOk : ptr -> bool) (w : World)
    : option World :=
  match m_CheckTh (helper w) with
  | Scanning =>
      let w1 := cycle clk addOk w in
      Some (set_helper (loop_exit (helper w1)) w1)
  | _ => None
  end.

(** [~CContextHelper]: [m_IsQuit = true; m_RunCond.notify_all()].  The
    [join] that follows is in [call_step] below. *)
Definition Shutdown (w : World) : World :=
  set_helper (notify (set_quit true (helper w))) w.

(** ** The binding: [PyInjector] *)

Definition fresh_ptr (w : World) : ptr := fresh (dom (heap w)).

(** [InitPyInjector]: format ["IO"] stores the time in a [uint32_t] without
    an overflow check. *)
Definition InitPyInjector (self : handle) (time : Z) (callback : callable) (th : tid)
    (w : World) : option World :=
  let p := fresh_ptr w in
  i ← SetCallback (Some callback) (CLocalInjector_new w th);
  Some (set_handles (<[self := p]> (handles w))
          (set_heap (<[p := SetDuration (time `mod` 2 ^ 32) i]> (heap w)) w)).

Definition InjectorStart (self : handle) (now : Z) (w : World) : option World :=
  injector ← handles w !! self;
  Some (Start injector (update injector (RecordStartTime now) w)).

Definition InjectorStop (self : handle) (w : World) : option World :=
  injector ← handles w !! self;
  Some (Stop injector w).

(** [InjectorReset] called on thread [th] at time [now]. *)
Definition InjectorReset (self : handle) (now : Z) (th : tid) (w : World) : option World :=
  injector ← handles w !! self;
  let callback := m_Callback (deref w injector) in
  let time := m_Duration (deref w injector) in
  let w1 := update injector Release w in
  (* replace the injector *)
  let p := fresh_ptr w1 in
  i ← SetCallback callback (CLocalInjector_new w1 th);
  let i := RecordStartTime now (SetDuration time i) in
  Some (Start p (set_handles (<[self := p]> (handles w1))
                   (set_heap (<[p := i]> (heap w1)) w1))).

(** [DeallocPyInjector]. *)
Definition DeallocPyInjector (self : handle) (w : World) : option World :=
  match handles w !! self with
  | None => Some w
  | Some injector =>
      Some (set_handles (delete self (handles w)) (update injector Release w))
  end.

(** ** The interleaving semantics *)

(** [LCreate] is [__init__] on handle [h]: on a handle that is bound
    already it binds the handle to a fresh injector and lets go of the old
    one, without releasing it. *)
Inductive label : Type :=
  | LCreate (h : handle) (time : Z) (callback : callable) (th : tid)
  | LStart (h : handle) (now : Z)
  | LStop (h : handle)
  | LReset (h : handle) (now : Z) (th : tid)
  | LDealloc (h : handle)
  | LCycle (clk : ScanClock) (addOk : ptr -> bool)
  | LRunPending (ok : bool)           (* the main thread runs a pending call *)
  | LTrace (t : tid) (ok : bool)      (* thread [t] reaches a trace event *)
  | LForeignSetTrace (t : tid) (f : option nat) (o : option nat)
  | LShutdown.

Definition run_pending (ok : bool) (w : World) : option World :=
  match pendingcalls w with
  | [] => None
  | injector :: q => Some (snd (OnFastTrace ok injector (set_pending q w)))
  end.

Definition trace_event (t : tid) (ok : bool) (w : World) : option World :=
  match c_tracefunc (tstate w t) with
  | Some OnTrace_fn => snd <$> OnTrace t ok w
  | _ => Some w
  end.

Definition step (l : label) (w : World) : option World :=
  match l with
  | LCreate h time callback th => InitPyInjector h time callback th w
  | LStart h now => InjectorStart h now w
  | LStop h => InjectorStop h w
  | LReset h now th => InjectorReset h now th w
  | LDealloc h => DeallocPyInjector h w
  | LCycle clk addOk => CheckThread_iteration clk addOk w
  | LRunPending ok => run_pending ok w
  | LTrace t ok => trace_event t ok w
  | LForeignSetTrace t f o =>
      Some (PyEval_SetTrace t (ForeignTrace <$> f) (PyOther <$> o) w)
  | LShutdown => Some (Shutdown w)
  end.

Fixpoint run (ls : list label) (w : World) : option World :=
  match ls with
  | [] => Some w
  | l :: ls' => w' ← step l w; run ls' w'
  end.

(** The process right after module initialisation, [main] being the thread
    recorded in [g_MainThreadId]. *)
Definition initial (main : tid) : World :=
  mkWorld ∅ ∅ (mkHelper NotStarted false false ∅ [] []) [] ∅ main [].

(** ** Counting events *)

Definition is_start (p : ptr) (e : event) : bool :=
  match e with EvStart q => Nat.eqb p q | _ => false end.
Definition is_attach (p : ptr) (e : event) : bool :=
  match e with EvAttach q => Nat.eqb p q | _ => false end.
Definition is_callback (p : ptr) (e : event) : bool :=
  match e with EvCallback q _ _ => Nat.eqb p q | _ => false end.

Definition count (f : event -> bool) (l : list event) : nat :=
  length (List.filter f l).

Definition starts (p : ptr) (w : World) : nat := count (is_start p) (log w).
Definition attaches (p : ptr) (w : World) : nat := count (is_attach p) (log w).
Definition callbacks (p : ptr) (w : World) : nat := count (is_callback p) (log w).

(** ** Specification-side definitions *)

(** The claim about [Merge] in its own words: removals first, then the adds
    that are still valid, then both staging lists emptied. *)
Definition apply_removals (dels : list ptr) (m : gmap nat nat) : gmap nat nat :=
  foldl (fun m item => delete item m) m dels.

Definition apply_adds (w : World) (news : list ptr) (m : gmap nat nat) : gmap nat nat :=
  foldl (fun m item => if IsValid (deref w item) then <[item := item]> m else m) m news.

Definition Merge_spec (w : World) : World :=
  let c := helper w in
  let active := apply_adds w (m_NewVect c) (apply_removals (m_DelVect c) (m_CallMap c)) in
  set_helper (set_newvect [] (set_delvect [] (set_callmap active c))) w.

(** [Reset] in the words of the specification: [Stop()] on the handle, then
    a fresh entry with the callback and the duration the handle had, bound
    to the handle and started with [Start()]. *)
Definition Stop_then_fresh_Start (self : handle) (now : Z) (th : tid) (w : World)
    : option World :=
  injector ← handles w !! self;
  let callback := m_Callback (deref w injector) in
  let time := m_Duration (deref w injector) in
  w1 ← InjectorStop self w;
  let p := fresh_ptr w1 in
  i ← SetCallback callback (CLocalInjector_new w1 th);
  InjectorStart self now
    (set_handles (<[self := p]> (handles w1))
       (set_heap (<[p := SetDuration time i]> (heap w1)) w1)).

(** The sleep duration as the specification words it, in nanoseconds: the
    minimum remaining time minus the elapsed scan time, floored at the
    resolution quantum and at zero. *)
Definition sleep_spec (minRemaining elapsed : Z) : Z :=
  Z.max (ns_of_ms INTERVAL_RESOLUTION) (Z.max 0 (minRemaining - elapsed)).

(** ** The scan, entry by entry *)

Definition elapsed (clk : ScanClock) (h : gmap nat CLocalInjector) (kv : ptr * ptr) : Z :=
  t_at clk kv.1 - m_StartTime (default released_injector (h !! kv.2)).

Definition duration_ns (h : gmap nat CLocalInjector) (kv : ptr * ptr) : Z :=
  ns_of_ms (m_Duration (default released_injector (h !! kv.2))).

Definition expired (clk : ScanClock) (h : gmap nat CLocalInjector) (kv : ptr * ptr) : bool :=
  elapsed clk h kv >? duration_ns h kv.

(** The entries the [for] loop hands to [Attach], in order. *)
Fixpoint dispatched (clk : ScanClock) (quit : bool) (h : gmap nat CLocalInjector)
    (its : list (ptr * ptr)) : list (ptr * ptr) :=
  match its with
  | [] => []
  | kv :: rest =>
      if expired clk h kv then kv :: dispatched clk quit h rest
      else if quit then [] else dispatched clk quit h rest
  end.

(** The entries the loop visits and leaves in the map. *)
Fixpoint kept (clk : ScanClock) (quit : bool) (h : gmap nat CLocalInjector)
    (its : list (ptr * ptr)) : list (ptr * ptr) :=
  match its with
  | [] => []
  | kv :: rest =>
      if expired clk h kv then kept clk quit h rest
      else if quit then [kv] else kv :: kept clk quit h rest
  end.

Definition scan_events (ds : list (ptr * ptr)) : list event :=
  flat_map (fun kv : ptr * ptr => [EvAttach kv.2; EvErase kv.1]) ds.

Definition min_remaining (clk : ScanClock) (h : gmap nat CLocalInjector)
    (minSpan : Z) (ks : list (ptr * ptr)) : Z :=
  foldl (fun acc kv => Z.min acc (duration_ns h kv - elapsed clk h kv)) minSpan ks.

(** Whether [Attach] on the entry queues a pending call: a valid entry of
    the main thread, and [Py_AddPendingCall] accepts. *)
Definition queues_request (addOk : ptr -> bool) (h : gmap nat CLocalInjector)
    (kv : ptr * ptr) : bool :=
  let i := default released_injector (h !! kv.2) in
  IsMainThreadInjector i && IsValid i && addOk kv.2.

(** What one scan of world [w] dispatches, and the [minSpan] it computes. *)
Definition scan_dispatched (clk : ScanClock) (w : World) : list (ptr * ptr) :=
  dispatched clk (m_IsQuit (helper w)) (heap w) (map_to_list (m_CallMap (helper w))).

Definition scan_kept (clk : ScanClock) (w : World) : list (ptr * ptr) :=
  kept clk (m_IsQuit (helper w)) (heap w) (map_to_list (m_CallMap (helper w))).

Definition scan_minSpan (clk : ScanClock) (w : World) : Z :=
  min_remaining clk (heap w) LLONG_MAX (scan_kept clk w).

(** The nanoseconds the loop sleeps at the end of the iteration. *)
Definition slept_ns (clk : ScanClock) (addOk : ptr -> bool) (w : World) : Z :=
  ns_of_ms (sleep_ms (scan clk addOk w).1 (t_begin clk) (t_end clk)).

(** ** Predicates, measures and sample worlds used by the statements *)

(** Every key of the active map is the address its value owns. *)
Definition keys_are_values (m : gmap nat nat) : Prop :=
  map_Forall (fun k v : nat => k = v) m.

(** The entry at address [p] is allocated and its valid flag is cleared. *)
Definition released_in (w : World) (p : ptr) : Prop :=
  exists i, heap w !! p = Some i /\ m_IsValid i = false.


(** The entry is in the active map or among the pending adds. *)
Definition registered (w : World) (p : ptr) : Prop :=
  m_CallMap (helper w) !! p = Some p \/ p ∈ m_NewVect (helper w).

(** The steps that notify [m_RunCond]: [Start], [Reset] (through [Start])
    and the shutdown. *)
Definition wakes (l : label) : Prop :=
  match l with
  | LStart _ _ | LReset _ _ _ | LShutdown => True
  | _ => False
  end.

(** Occurrences of an address in a list of addresses. *)
Definition occ (p : ptr) (l : list ptr) : nat := length (List.filter (Nat.eqb p) l).

(** The injectors whose capsules are stacked in a trace object: the one of
    the capsule, then those of the trace object it captured. *)
Fixpoint capsule_chain (o : PyObject) : list ptr :=
  match o with
  | PyCapsule injector _ pyTraceobj =>
      injector :: match pyTraceobj with
                  | Some o' => capsule_chain o'
                  | None => []
                  end
  | _ => []
  end.

Definition slot_chain (s : PyThreadState) : list ptr :=
  match c_traceobj s with
  | Some o => capsule_chain o
  | None => []
  end.

Definition chain_sum (p : ptr) (m : gmap nat PyThreadState) : nat :=
  map_fold (fun (_ : nat) (s : PyThreadState) (acc : nat) => (occ p (slot_chain s) + acc)%nat)
           0%nat m.

(** Requests for [p] waiting in the pending-call queue, hooks for [p]
    waiting in trace slots. *)
Definition pend (p : ptr) (w : World) : nat := occ p (pendingcalls w).

Definition caps (p : ptr) (w : World) : nat := chain_sum p (tstates w).

(** Callbacks of [p] already run, plus those that may still run. *)
Definition tokens (p : ptr) (w : World) : nat :=
  (callbacks p w + pend p w + caps p w)%nat.

(** Registrations of [p] the scan may still dispatch. *)
Definition inmap (p : ptr) (w : World) : nat :=
  match m_CallMap (helper w) !! p with Some _ => 1%nat | None => 0%nat end.

Definition innew (p : ptr) (w : World) : nat := occ p (m_NewVect (helper w)).

(** [e1] occurs before [e2] in a sequence of events. *)
Definition precedes (e1 e2 : event) (evs : list event) : Prop :=
  exists l1 l2 l3, evs = l1 ++ e1 :: l2 ++ e2 :: l3.

(** Sample worlds.  A registry whose loop is running, with one entry of
    [ms] milliseconds created by the main thread (thread 0) through
    handle 1 and started at time 0; the entry lives at address 0. *)
Definition world_one_entry (ms : Z) : World :=
  default (initial 0%nat) (run [LCreate 1%nat ms 7%nat 0%nat; LStart 1%nat 0] (initial 0%nat)).

(** A clock that reads [t] throughout an iteration. *)
Definition clock_at (t : Z) : ScanClock := mkClock t (fun _ => t) t.

(** A valid entry of a worker thread (thread 3), created with duration
    50 ms, started at time 42 ns and dispatched by the scan through [Call]:
    its capsule sits in the trace slot of thread 3. *)
Definition world_hook_installed : World :=
  default (initial 0%nat)
    (run [LCreate 1%nat 50 7%nat 3%nat; LStart 1%nat 42;
          LCycle (clock_at 60000000) (fun _ => true)] (initial 0%nat)).

(** One timer of 50 ms on the main thread, left to expire and fire. *)
Definition run_one_timer : list label :=
  [LCreate 1%nat 50 7%nat 0%nat; LStart 1%nat 0;
   LCycle (clock_at 60000000) (fun _ => true); LRunPending true].

(** ** The rest of the source *)

(** *** [CInjectorQueue]

    The queue, front first.  An element is a [shared_ptr], which may be
    null ([None]); every operation runs under [m_Mutex], which is the
    atomicity of the call. *)

Definition Queue_Empty (q : list (option ptr)) : bool :=
  match q with [] => true | _ :: _ => false end.

Definition Queue_Push (injector : option ptr) (q : list (option ptr)) : list (option ptr) :=
  q ++ [injector].

(** [Pop]: [nullptr] on an empty queue, else the front, which is removed. *)
Definition Queue_Pop (q : list (option ptr)) : option ptr * list (option ptr) :=
  match q with
  | [] => (None, [])
  | injector :: q' => (injector, q')
  end.

Fixpoint Queue_PopN (n : nat) (q : list (option ptr)) : list (option ptr) * list (option ptr) :=
  match n with
  | O => ([], q)
  | S n' =>
      let '(x, q1) := Queue_Pop q in
      let '(xs, q2) := Queue_PopN n' q1 in
      (x :: xs, q2)
  end.

(** *** [CAttacher], the build without [WITH_THREAD] *)

Record CAttacher : Type := mkAttacher {
  m_Queue : list (option ptr);
  m_Appended : bool
}.

(** The attacher, the [OnCall] requests the interpreter holds for it, and
    the process. *)
Record Single : Type := mkSingle {
  attacher : CAttacher;
  oncall_pending : nat;
  world : World
}.

(** [InjectRequest]; [addOk] is the verdict of [Py_AddPendingCall]. *)
Definition InjectRequest (addOk : bool) (injector : option ptr) (s : Single) : bool * Single :=
  let q := Queue_Push injector (m_Queue (attacher s)) in
  if m_Appended (attacher s)
  then (true, mkSingle (mkAttacher q true) (oncall_pending s) (world s))
  else
    (* m_Appended = true *)
    if addOk
    then (true, mkSingle (mkAttacher q true) (S (oncall_pending s)) (world s))
    else (false, mkSingle (mkAttacher q true) (oncall_pending s) (world s)).

(** The [while (!m_Queue.Empty())] loop of [Handle]; every turn pops one
    element, so the length of the queue is fuel enough. *)
Fixpoint Handle_loop (fuel : nat) (q : list (option ptr)) (w : World)
    : list (option ptr) * World :=
  match fuel with
  | O => (q, w)
  | S fuel' =>
      if Queue_Empty q then (q, w)
      else
        let '(injector, q') := Queue_Pop q in
        match injector with
        | None => Handle_loop fuel' q' w          (* continue *)
        | Some i => Handle_loop fuel' q' (Call i w)
        end
  end.

Definition Handle (s : Single) : Single :=
  let '(q, w) := Handle_loop (length (m_Queue (attacher s))) (m_Queue (attacher s)) (world s) in
  mkSingle (mkAttacher q (m_Appended (attacher s))) (oncall_pending s) w.

(** [OnCall]: [Handle(); m_Appended = false; Handle(); return 0]. *)
Definition OnCall (s : Single) : Z * Single :=
  let s1 := Handle s in
  let s2 := mkSingle (mkAttacher (m_Queue (attacher s1)) false) (oncall_pending s1) (world s1) in
  (0, Handle s2).

(** The main thread runs one of the pending [OnCall] requests. *)
Definition run_OnCall (s : Single) : option Single :=
  match oncall_pending s with
  | O => None
  | S n => Some (OnCall (mkSingle (attacher s) n (world s))).2
  end.

(** What can happen to the attacher: the watchdog files a request, the main
    thread runs a pending [OnCall]. *)
Inductive single_label : Type :=
  | SInject (addOk : bool) (injector : option ptr)
  | SOnCall.

Definition single_step (l : single_label) (s : Single) : option Single :=
  match l with
  | SInject addOk injector => Some (InjectRequest addOk injector s).2
  | SOnCall => run_OnCall s
  end.

Fixpoint single_run (ls : list single_label) (s : Single) : option Single :=
  match ls with
  | [] => Some s
  | l :: ls' => s' ← single_step l s; single_run ls' s'
  end.

Definition single_initial (w : World) : Single := mkSingle (mkAttacher [] false) 0%nat w.

Definition accepts (l : single_label) : Prop :=
  match l with SInject addOk _ => addOk = true | SOnCall => True end.

(** What [Handle] does to the process: [Call] on every non-null injector,
    front first. *)
Definition call_all (q : list (option nat)) (w : World) : World :=
  foldl (fun w x => match x with Some i => Call i w | None => w end) w q.

(** *** [CThreadState::SwapState] and [RestoreState]

    The interpreter side: the current thread state ([PyThreadState_GET()])
    and the value stored under [g_PyTLSKey] for the calling thread. *)
Record PyRuntime : Type := mkRuntime {
  rt_current : option tid;
  rt_tls : option tid
}.

(** [SwapState] returns the new [m_PrevState]. *)
Definition SwapState (m_State : tid) (m_PrevState : option tid) (rt : PyRuntime)
    : option tid * PyRuntime :=
  if bool_decide (rt_current rt = Some m_State) then (m_PrevState, rt)
  else (rt_current rt, mkRuntime (Some m_State) (Some m_State)).

Definition RestoreState (m_PrevState : option tid) (rt : PyRuntime)
    : option tid * PyRuntime :=
  match m_PrevState with
  | None => (None, rt)
  | Some prev => (None, mkRuntime (Some prev) (Some prev))
  end.

(** *** [CPyObjectHolder]

    Reference counts of the Python objects, by object; a holder is its
    [m_Object], [None] for [nullptr]. *)
Definition refcnt (rc : gmap nat Z) (o : nat) : Z := default 0 (rc !! o).

Definition Py_XINCREF (o : option nat) (rc : gmap nat Z) : gmap nat Z :=
  match o with
  | Some x => <[x := refcnt rc x + 1]> rc
  | None => rc
  end.

Definition Py_XDECREF (o : option nat) (rc : gmap nat Z) : gmap nat Z :=
  match o with
  | Some x => <[x := refcnt rc x - 1]> rc
  | None => rc
  end.

(** [~CPyObjectHolder()]. *)
Definition Holder_destroy (this : option nat) (rc : gmap nat Z) : gmap nat Z :=
  Py_XDECREF this rc.

(** [CPyObjectHolder(const CPyObjectHolder& rhs)]. *)
Definition Holder_copy (rhs : option nat) (rc : gmap nat Z) : option nat * gmap nat Z :=
  (rhs, Py_XINCREF rhs rc).

(** [operator=(const CPyObjectHolder& rhs)]: [Py_XSETREF(m_Object, rhs.m_Object)]. *)
Definition Holder_copy_assign (this rhs : option nat) (rc : gmap nat Z)
    : option nat * gmap nat Z :=
  (rhs, Py_XDECREF this rc).

(** [CPyObjectHolder(CPyObjectHolder&& rhs)]: the new holder and what is left
    of [rhs]. *)
Definition Holder_move (rhs : option nat) : option nat * option nat := (rhs, None).

(** [operator=(CPyObjectHolder&& rhs)]; [same] tells whether [this == &rhs]. *)
Definition Holder_move_assign (same : bool) (this rhs : option nat)
    : option nat * option nat :=
  if same then (this, rhs) else (rhs, None).

(** *** [GetPyThreadIndex]

    [get_key_value i] is [PyThread_get_key_value(i)] for the calling thread,
    [None] for a null value. *)
Fixpoint find_key (get_key_value : nat -> option tid) (state : tid) (i fuel : nat) : Z :=
  match fuel with
  | O => -1
  | S fuel' =>
      if bool_decide (get_key_value i = Some state) then Z.of_nat i
      else find_key get_key_value state (S i) fuel'
  end.

Definition KEY_LIMIT : nat := Z.to_nat 100000.

Definition GetPyThreadIndex (get_key_value : nat -> option tid) (state : tid) : Z :=
  find_key get_key_value state 0%nat KEY_LIMIT.

(** *** Well-formed heaps *)

(** What the constructor, [SetCallback], [SetDuration] and [Release] keep of
    an injector: it is valid exactly when it has a callback, and its
    duration fits a [uint32_t]. *)
Definition injector_ok (i : CLocalInjector) : Prop :=
  (m_IsValid i = true <-> is_Some (m_Callback i)) /\ 0 <= m_Duration i < 2 ^ 32.

Definition heap_ok (w : World) : Prop :=
  map_Forall (fun (_ : nat) (i : CLocalInjector) => injector_ok i) (heap w) /\
  map_Forall (fun (_ : nat) (p : nat) => is_Some (heap w !! p)) (handles w).


(** ** [AccurateSleep], the branch without [_WIN32] *)

Record timespec : Type := mkTimespec { tv_sec : Z; tv_nsec : Z }.

(** What one [nanosleep(&req, &rem)] does, as the system decides: the whole
    request was slept (0, [rem] is not written); a signal came with [remaining]
    still to sleep (-1, [rem] written); the request was refused (-1, [rem]
    is not written). *)
Inductive nanosleep_outcome : Type :=
  | Slept
  | Interrupted (remaining : timespec)
  | Refused.

Definition nanosleep (o : nanosleep_outcome) (req rem : timespec) : Z * timespec :=
  match o with
  | Slept => (0, rem)
  | Interrupted remaining => (-1, remaining)
  | Refused => (-1, rem)
  end.

(** An [unsigned long] product stored in the [long] field [tv_nsec]. *)
Definition to_long (z : Z) : Z :=
  let r := z `mod` 2 ^ 64 in if r <? 2 ^ 63 then r else r - 2 ^ 64.

(** The [while] loop; [os k] is the outcome of the [k]-th call, [calls] the
    requests passed to [nanosleep] so far.  [None]: out of fuel. *)
Fixpoint sleep_loop (fuel : nat) (os : nat -> nanosleep_outcome) (k : nat)
    (req rem : timespec) (calls : list timespec) : option (list timespec) :=
  match fuel with
  | O => None
  | S fuel' =>
      let '(res, rem1) := nanosleep (os k) req rem in
      let calls1 := calls ++ [req] in
      if res =? 0 then
        if tv_nsec rem1 <? 1000 then Some calls1
        else sleep_loop fuel' os (S k) rem1 (mkTimespec 0 0) calls1
      else Some calls1
  end.

Definition AccurateSleep_posix (fuel : nat) (os : nat -> nanosleep_outcome)
    (nMilliseconds : Z) : option (list timespec) :=
  sleep_loop fuel os 0%nat (mkTimespec 0 (to_long (nMilliseconds * 1000000)))
             (mkTimespec 0 0) [].

(** Two worlds with the same hooks: apart from the log they agree on every
    field, the trace table being compared by what each thread reads. *)
Definition same_hooks (w1 w2 : World) : Prop :=
  heap w1 = heap w2 /\ handles w1 = handles w2 /\ helper w1 = helper w2 /\
  pendingcalls w1 = pendingcalls w2 /\ g_MainThreadId w1 = g_MainThreadId w2 /\
  forall t, tstate w1 t = tstate w2 t.

(** ** The process at the grain of the source

    [step] takes an iteration of [CheckThread] as one transition, visits the
    map in the order of [map_to_list], and leaves the two assertions on
    [use_count] and [m_IsValid] out.  The transitions below follow the
    source more closely:
    - the thread runs statement by statement, and any call into the module
      may come between two of its statements: the [for] loop (which runs
      while [m_Running] keeps [Start] and [Stop] away from the map), [Merge]
      (under [m_CallMapMtx]), the test of [m_CallMap.empty()], the test
      before [AccurateSleep], the test of [while (m_Running)], the test of
      [if (!m_IsQuit)], and [m_RunCond.wait];
    - the order in which the [for] loop meets the entries of the
      [unordered_map] is not fixed by the language: the transition takes
      it as given, any arrangement of the entries;
    - the owners of every injector are counted, [assert(use_count() > 1)]
      between [Attach] and [erase] and [assert(!m_IsValid)] in the
      destructor end the process when they fail. *)

(** Where the thread stands in [CheckThread] while it is not waiting.  The
    clock readings of the iteration and [minSpan] are its local
    variables. *)
Inductive program_counter : Type :=
  | AtScan
  | AtMerge (clk : ScanClock) (minSpan : Z)
  | AtEmptyTest (clk : ScanClock) (minSpan : Z)
  | AtSleepTest (clk : ScanClock) (minSpan : Z)
  | AtWhileTest
  | AtQuitTest
  | AtWait.

(** [leaked]: the injectors of the wrappers nothing will free.  [FastCall]
    does not free its wrapper when [Py_AddPendingCall] rejects it; [OnTrace]
    returns before [Py_DECREF(capsule)] when the entry is released. *)
Record Process : Type := mkProcess {
  pworld : World;
  pc : program_counter;
  leaked : list ptr
}.

Definition set_world (w : World) (c : Process) : Process :=
  mkProcess w (pc c) (leaked c).
Definition set_pc (l : program_counter) (c : Process) : Process :=
  mkProcess (pworld c) l (leaked c).

(** The [shared_ptr]s to injector [p]: in handles, in the active map, in
    [m_NewVect], in the wrappers of pending calls, in the wrappers of the
    capsules that sit in trace slots, in leaked wrappers. *)
Definition handle_refs (p : ptr) (w : World) : nat :=
  length (List.filter (fun hp : nat * nat => Nat.eqb p hp.2) (map_to_list (handles w))).

Definition map_refs (p : ptr) (w : World) : nat :=
  length (List.filter (fun kv : nat * nat => Nat.eqb p kv.2)
            (map_to_list (m_CallMap (helper w)))).

Definition use_count (c : Process) (p : ptr) : nat :=
  (handle_refs p (pworld c) + map_refs p (pworld c) + innew p (pworld c) +
   pend p (pworld c) + caps p (pworld c) + occ p (leaked c))%nat.

(** The owners of [p] other than the active map. *)
Definition other_owners (c : Process) (p : ptr) : nat :=
  (handle_refs p (pworld c) + innew p (pworld c) + pend p (pworld c) +
   caps p (pworld c) + occ p (leaked c))%nat.

Definition FastCall_leak (addOk : ptr -> bool) (injector : ptr) (w : World) : list ptr :=
  if IsMainThreadInjector (deref w injector) && IsValid (deref w injector)
     && negb (addOk injector)
  then [injector] else [].

Definition OnTrace_leak (t : tid) (w : World) : list ptr :=
  match c_tracefunc (tstate w t), c_traceobj (tstate w t) with
  | Some OnTrace_fn, Some (PyCapsule injector _ _) =>
      if IsValid (deref w injector) then [] else [injector]
  | _, _ => []
  end.

(** [CAttacher::Attach] with the wrappers counted. *)
Definition Attach_counted (addOk : ptr -> bool) (injector : ptr) (c : Process) : Process :=
  mkProcess (Attach addOk injector (pworld c)) (pc c)
            (leaked c ++ FastCall_leak addOk injector (pworld c)).

(** The [for] loop over the entries in the order [its], with the assertion
    between [Attach] and [erase].  [None]: the assertion fails. *)
Fixpoint scan_loop_asserting (clk : ScanClock) (addOk : ptr -> bool)
    (its : list (ptr * ptr)) (minSpan : Z) (c : Process) : option (Z * Process) :=
  match its with
  | [] => Some (minSpan, c)
  | (k, injector) :: rest =>
      let span := t_at clk k - m_StartTime (deref (pworld c) injector) in
      let duration := ns_of_ms (m_Duration (deref (pworld c) injector)) in
      if span >? duration then
        let c1 := Attach_counted addOk injector
                    (set_world (emit (EvAttach injector) (pworld c)) c) in
        if (1 <? use_count c1 injector)%nat     (* assert(iter->second.use_count() > 1) *)
        then scan_loop_asserting clk addOk rest minSpan
               (set_world (erase_entry k (pworld c1)) c1)
        else None
      else
        let minSpan' := Z.min minSpan (duration - span) in
        if m_IsQuit (helper (pworld c)) then Some (minSpan', c)
        else scan_loop_asserting clk addOk rest minSpan' c
  end.

(** One statement of the thread.  It runs only while the thread exists and
    is not blocked in [wait]. *)
Definition thread_step (its : list (ptr * ptr)) (clk : ScanClock) (addOk : ptr -> bool)
    (c : Process) : option Process :=
  let w := pworld c in
  match m_CheckTh (helper w) with
  | Scanning =>
      match pc c with
      | AtScan =>
          if bool_decide (its ≡ₚ map_to_list (m_CallMap (helper w))) then
            r ← scan_loop_asserting clk addOk its LLONG_MAX c;
            Some (set_pc (AtMerge clk r.1) r.2)
          else None
      | AtMerge clk0 minSpan =>
          Some (set_pc (AtEmptyTest clk0 minSpan) (set_world (Merge w) c))
      | AtEmptyTest clk0 minSpan =>
          let w1 := if bool_decide (m_CallMap (helper w) = ∅)
                    then set_helper (set_running false (helper w)) w
                    else w in
          Some (set_pc (AtSleepTest clk0 minSpan) (set_world w1 c))
      | AtSleepTest clk0 minSpan =>
          let w1 := if sleep_wanted minSpan (t_begin clk0) (t_end clk0)
                    then AccurateSleep 1 w else w in
          Some (set_pc AtWhileTest (set_world w1 c))
      | AtWhileTest =>
          Some (set_pc (if m_Running (helper w) then AtScan else AtQuitTest) c)
      | AtQuitTest =>
          if m_IsQuit (helper w)
          then Some (set_pc AtScan (set_world (set_helper (set_phase Exited (helper w)) w) c))
          else Some (set_pc AtWait c)
      | AtWait =>
          Some (set_pc AtScan (set_world (set_helper (set_phase Parked (helper w)) w) c))
      end
  | _ => None
  end.

(** A call into the module or a step of the interpreter.  The destructor
    of [CContextHelper] joins the thread: on a thread that was never
    started [join] throws, which ends the process. *)
Definition call_step (l : label) (c : Process) : option Process :=
  let w := pworld c in
  match l with
  | LCycle _ _ => None
  | LShutdown =>
      match m_CheckTh (helper w) with
      | NotStarted => None
      | _ => Some (set_world (Shutdown w) c)
      end
  | LTrace t _ =>
      w' ← step l w;
      Some (mkProcess w' (pc c) (leaked c ++ OnTrace_leak t w))
  | _ => w' ← step l w; Some (set_world w' c)
  end.

(** [~CLocalInjector] runs when the last owner lets go; it asserts that the
    injector has been released. *)
Definition destructor_ok (c c' : Process) : bool :=
  forallb (fun p => negb ((0 <? use_count c p)%nat && (use_count c' p =? 0)%nat
                          && IsValid (deref (pworld c') p)))
          (map_to_list (heap (pworld c'))).*1.

Inductive plabel : Type :=
  | PCall (l : label)
  | PThread (its : list (ptr * ptr)) (clk : ScanClock) (addOk : ptr -> bool).

Definition pstep (l : plabel) (c : Process) : option Process :=
  c' ← match l with
       | PCall l => call_step l c
       | PThread its clk addOk => thread_step its clk addOk c
       end;
  if destructor_ok c c' then Some c' else None.

Fixpoint prun (ls : list plabel) (c : Process) : option Process :=
  match ls with
  | [] => Some c
  | l :: ls' => c' ← pstep l c; prun ls' c'
  end.

Definition process_initial (main : tid) : Process := mkProcess (initial main) AtScan [].

(** The statements of the thread from the [for] loop to the test of
    [while (m_Running)], nothing else running in between; the order and
    the oracles matter to the first only. *)
Definition thread_steps (n : nat) (its : list (ptr * ptr)) (clk : ScanClock)
    (addOk : ptr -> bool) : list plabel :=
  PThread its clk addOk :: replicate n (PThread [] clk addOk).

(** The calls that notify [m_RunCond]. *)
Definition pwakes (l : plabel) : Prop :=
  match l with
  | PCall l => wakes l
  | PThread _ _ _ => False
  end.

(** Sample runs of the process.  One timer of 50 ms is started, expires
    and is dispatched; the thread finds the map empty after [Merge], clears
    [m_Running], leaves the [do .. while] and finds [m_IsQuit] clear: it
    stands right before [m_RunCond.wait]. *)
Definition going_idle : list plabel :=
  [PCall (LCreate 1%nat 50 7%nat 0%nat); PCall (LStart 1%nat 0)] ++
  thread_steps 5 [(0%nat, 0%nat)] (clock_at 60000000) (fun _ => true).

(** A second timer is created and started. *)
Definition second_timer : list plabel :=
  [PCall (LCreate 2%nat 50 8%nat 0%nat); PCall (LStart 2%nat 60000001)].

(** The thread takes its next statement. *)
Definition thread_goes_on : list plabel := [PThread [] (clock_at 0) (fun _ => true)].

(** A timer of 1000 ms is started and reset 5 ns later; the thread runs one
    iteration at 6 ns and is back at the head of the [for] loop. *)
Definition reset_then_iterate : list plabel :=
  [PCall (LCreate 1%nat 1000 7%nat 0%nat); PCall (LStart 1%nat 0);
   PCall (LReset 1%nat 5 0%nat)] ++
  thread_steps 4 [(0%nat, 0%nat)] (clock_at 6) (fun _ => true).

(** The same with [stop] and a second handle in the place of [reset]. *)
Definition stop_start_then_iterate : list plabel :=
  [PCall (LCreate 1%nat 1000 7%nat 0%nat); PCall (LStart 1%nat 0);
   PCall (LStop 1%nat);
   PCall (LCreate 2%nat 1000 7%nat 0%nat); PCall (LStart 2%nat 5)] ++
  thread_steps 4 [(0%nat, 0%nat)] (clock_at 6) (fun _ => true).





(** A timer started between [Merge] and the test of [m_CallMap.empty()]. *)
Definition stranded_add : list plabel :=
  [PCall (LCreate 1%nat 50 7%nat 0%nat); PCall (LStart 1%nat 0)] ++
  thread_steps 1 [(0%nat, 0%nat)] (clock_at 60000000) (fun _ => true) ++
  second_timer ++
  replicate 5 (PThread [] (clock_at 0) (fun _ => true)).

(** [n] statements of the thread in a row, nothing running in between.
    The order and the oracles are those of the [for] loop, the other
    statements do not look at them. *)
Fixpoint thread_iter (n : nat) (its : list (ptr * ptr)) (clk : ScanClock)
    (addOk : ptr -> bool) (c : Process) : option Process :=
  match n with
  | O => Some c
  | S n' => c' ← thread_step its clk addOk c; thread_iter n' its clk addOk c'
  end.

(** A statement that has returned, in a sequence of statements. *)
Ltac bind_some :=
  change (Some ?x ≫= ?f) with (f x); cbn beta; unfold set_pc; cbn [fst snd pworld leaked].

(** ** Basic facts *)

Lemma deref_heap w1 w2 p : heap w1 = heap w2 -> deref w1 p = deref w2 p.
Proof. unfold deref. by intros ->. Qed.

Lemma Attach_frame addOk p w :
  heap (Attach addOk p w) = heap w /\ handles (Attach addOk p w) = handles w /\
  helper (Attach addOk p w) = helper w /\ log (Attach addOk p w) = log w /\
  g_MainThreadId (Attach addOk p w) = g_MainThreadId w.
Proof.
  unfold Attach, FastCall, Call, Py_AddPendingCall, PyEval_SetTrace.
  repeat case_match; simplify_eq; done.
Qed.

Lemma Attach_pending addOk p w :
  pendingcalls (Attach addOk p w) =
  pendingcalls w ++ (if queues_request addOk (heap w) (p, p) then [p] else []).
Proof.
  unfold Attach, FastCall, Call, Py_AddPendingCall, PyEval_SetTrace, queues_request, deref.
  cbn. destruct (IsMainThreadInjector _), (IsValid _), (addOk p); cbn;
    by rewrite ?app_nil_r.
Qed.

Lemma scan_loop_spec clk addOk its :
  forall minSpan w,
    let r := scan_loop clk addOk its minSpan w in
    let ds := dispatched clk (m_IsQuit (helper w)) (heap w) its in
    heap r.2 = heap w /\ handles r.2 = handles w /\
    g_MainThreadId r.2 = g_MainThreadId w /\
    log r.2 = log w ++ scan_events ds /\
    helper r.2 = set_callmap (foldl (fun m kv => delete kv.1 m) (m_CallMap (helper w)) ds)
                   (helper w) /\
    r.1 = min_remaining clk (heap w) minSpan (kept clk (m_IsQuit (helper w)) (heap w) its) /\
    pendingcalls r.2 =
      pendingcalls w ++ (List.filter (queues_request addOk (heap w)) ds).*2.
Proof.
  induction its as [|[k v] rest IH]; intros minSpan w; cbn zeta.
  - cbn. rewrite !app_nil_r. by destruct (helper w).
  - cbn [scan_loop dispatched kept].
    change (t_at clk k - m_StartTime (deref w v) >? ns_of_ms (m_Duration (deref w v)))
      with (expired clk (heap w) (k, v)).
    destruct (expired clk (heap w) (k, v)) eqn:Hexp.
    + destruct (Attach_frame addOk v (emit (EvAttach v) w)) as (Hh & Hha & Hc & Hl & Hg).
      specialize (IH minSpan (erase_entry k (Attach addOk v (emit (EvAttach v) w)))).
      cbn zeta in IH. destruct IH as (IH1 & IH2 & IH3 & IH4 & IH5 & IH6 & IH7).
      cbn [erase_entry emit set_helper heap handles g_MainThreadId log helper
           set_callmap m_IsQuit m_CallMap pendingcalls] in IH1, IH2, IH3, IH4, IH5, IH6, IH7.
      rewrite Hc in IH4, IH5, IH6, IH7. rewrite Hh in IH1, IH4, IH5, IH6, IH7.
      cbn in IH4, IH5, IH6.
      rewrite Hha in IH2. rewrite Hg in IH3. rewrite Hl in IH4.
      rewrite Attach_pending in IH7.
      cbn [emit heap handles g_MainThreadId log helper pendingcalls m_IsQuit] in IH1, IH2, IH3, IH4, IH7.
      repeat split; try done.
      * rewrite IH4. cbn. by rewrite <- !app_assoc.
      * rewrite IH7. cbn [List.filter].
        change (queues_request addOk (heap w) (k, v))
          with (queues_request addOk (heap w) (v, v)).
        destruct (queues_request addOk (heap w) (v, v)); cbn;
          by rewrite <- ?app_assoc, ?app_nil_r.
    + destruct (m_IsQuit (helper w)) eqn:Hq.
      * cbn. rewrite !app_nil_r. repeat split; try done. by destruct (helper w).
      * specialize (IH (Z.min minSpan (ns_of_ms (m_Duration (deref w v))
                                        - (t_at clk k - m_StartTime (deref w v)))) w).
        cbn zeta in IH. rewrite Hq in IH.
        destruct IH as (IH1 & IH2 & IH3 & IH4 & IH5 & IH6 & IH7).
        repeat split; done.
Qed.

Lemma count_app f l1 l2 : count f (l1 ++ l2) = (count f l1 + count f l2)%nat.
Proof. unfold count. by rewrite List.filter_app, length_app. Qed.

Lemma dispatched_elem clk quit h its kv :
  kv ∈ dispatched clk quit h its -> kv ∈ its /\ expired clk h kv = true.
Proof.
  induction its as [|kv' rest IH]; cbn; [by intros ?%elem_of_nil|].
  destruct (expired clk h kv') eqn:Hexp.
  - intros [->|Hin]%elem_of_cons; [split; [left|done]|].
    destruct (IH Hin). split; [by right|done].
  - destruct quit; [by intros ?%elem_of_nil|].
    intros Hin. destruct (IH Hin). split; [by right|done].
Qed.

Lemma count_attach_scan_events p ds :
  (0 < count (is_attach p) (scan_events ds))%nat -> exists k, (k, p) ∈ ds.
Proof.
  induction ds as [|[k v] rest IH]; cbn; [lia|].
  unfold count in *. cbn. destruct (Nat.eqb_spec p v) as [->|Hne]; cbn.
  - intros _. exists k. left.
  - intros H. destruct (IH H) as [k' Hk']. exists k'. by right.
Qed.


Lemma apply_removals_lookup dels (m : gmap nat nat) (p : ptr) :
  apply_removals dels m !! p = if bool_decide (p ∈ dels) then None else m !! p.
Proof.
  unfold apply_removals. revert m. induction dels as [|d dels IH]; intros m; cbn.
  - by rewrite bool_decide_eq_false_2 by apply not_elem_of_nil.
  - rewrite IH. destruct (decide (p = d)) as [->|Hne].
    + rewrite (bool_decide_eq_true_2 (d ∈ d :: dels)) by left.
      case_bool_decide; [done|apply lookup_delete_eq].
    + rewrite lookup_delete_ne by done.
      apply (f_equal (fun b : bool => if b then None else m !! p)).
      apply bool_decide_ext. rewrite elem_of_cons. intuition congruence.
Qed.

Lemma apply_adds_lookup w news (m : gmap nat nat) (p : ptr) :
  apply_adds w news m !! p =
  if bool_decide (p ∈ news) && IsValid (deref w p) then Some p else m !! p.
Proof.
  unfold apply_adds. revert m. induction news as [|n news IH]; intros m; cbn.
  - by rewrite bool_decide_eq_false_2 by apply not_elem_of_nil.
  - rewrite IH. destruct (decide (p = n)) as [->|Hne].
    + rewrite (bool_decide_eq_true_2 (n ∈ n :: news)) by left. cbn.
      destruct (IsValid (deref w n)) eqn:Hv.
      * rewrite lookup_insert_eq. by destruct (bool_decide _).
      * by rewrite andb_false_r.
    + assert (bool_decide (p ∈ n :: news) = bool_decide (p ∈ news)) as ->.
      { apply bool_decide_ext. rewrite elem_of_cons. intuition congruence. }
      destruct (bool_decide (p ∈ news) && IsValid (deref w p)); [done|].
      destruct (IsValid (deref w n)); [by rewrite lookup_insert_ne|done].
Qed.

Lemma adds_fold_eq w news (m : gmap nat nat) :
  foldl (fun m item => if negb (IsValid (deref w item)) then m else <[item := item]> m)
        m news = apply_adds w news m.
Proof.
  unfold apply_adds. revert m.
  induction news as [|n news IH]; intros m; cbn; [done|].
  rewrite IH. by destruct (IsValid (deref w n)).
Qed.

Lemma deref_adds_heap w1 w2 news (m : gmap nat nat) :
  heap w1 = heap w2 -> apply_adds w1 news m = apply_adds w2 news m.
Proof.
  intros Hh. unfold apply_adds. revert m.
  induction news as [|n news IH]; intros m; cbn; [done|].
  by rewrite IH, (deref_heap w1 w2 n Hh).
Qed.

Lemma Merge_is_Merge_spec w : Merge w = Merge_spec w.
Proof.
  unfold Merge, Merge_spec. cbn. rewrite adds_fold_eq. done.
Qed.

Lemma Merge_lookup w (p : nat) :
  m_CallMap (helper (Merge w)) !! p =
  if bool_decide (p ∈ m_NewVect (helper w)) && IsValid (deref w p) then Some p
  else if bool_decide (p ∈ m_DelVect (helper w)) then None
  else m_CallMap (helper w) !! p.
Proof.
  rewrite Merge_is_Merge_spec. unfold Merge_spec. cbn.
  by rewrite apply_adds_lookup, apply_removals_lookup.
Qed.

(** ** Claims about single operations *)

(** C7. [Merge] applies every pending removal to the active map, then every
    pending add whose entry is still valid, and leaves both staging lists
    empty: it is the function the specification describes, an address ends
    up in the active map exactly when it is a valid pending add, or was
    active and is not a pending removal, and nothing else of the process
    changes. *)
Theorem Merge_removals_then_valid_adds (w : World) :
  Merge w = Merge_spec w /\
  m_NewVect (helper (Merge w)) = [] /\
  m_DelVect (helper (Merge w)) = [] /\
  (forall p : ptr,
     m_CallMap (helper (Merge w)) !! p =
     if bool_decide (p ∈ m_NewVect (helper w)) && IsValid (deref w p) then Some p
     else if bool_decide (p ∈ m_DelVect (helper w)) then None
     else m_CallMap (helper w) !! p) /\
  heap (Merge w) = heap w /\ log (Merge w) = log w.
Proof.
  split; [apply Merge_is_Merge_spec|].
  split; [done|]. split; [done|]. split; [apply Merge_lookup|done].
Qed.

Lemma scan_spec clk addOk w :
  heap (scan clk addOk w).2 = heap w /\
  log (scan clk addOk w).2 = log w ++ scan_events (scan_dispatched clk w) /\
  helper (scan clk addOk w).2 =
    set_callmap (foldl (fun m kv => delete kv.1 m) (m_CallMap (helper w))
                   (scan_dispatched clk w)) (helper w) /\
  (scan clk addOk w).1 = scan_minSpan clk w /\
  pendingcalls (scan clk addOk w).2 =
    pendingcalls w ++ (List.filter (queues_request addOk (heap w)) (scan_dispatched clk w)).*2.
Proof.
  unfold scan.
  destruct (scan_loop_spec clk addOk (map_to_list (m_CallMap (helper w))) LLONG_MAX w)
    as (H1 & _ & _ & H4 & H5 & H6 & H7).
  done.
Qed.

Lemma cycle_log clk addOk w :
  log (cycle clk addOk w) =
  log w ++ scan_events (scan_dispatched clk w) ++
  (if sleep_wanted (scan_minSpan clk w) (t_begin clk) (t_end clk) then [EvSleep 1] else []).
Proof.
  unfold cycle, after_merge.
  destruct (scan_spec clk addOk w) as (_ & Hl & _ & Hm & _).
  destruct (scan clk addOk w) as [ms w1]. cbn in Hl, Hm. subst ms.
  assert (log (Merge w1) = log w1) as HM by done.
  destruct (sleep_wanted _ _ _); case_bool_decide; cbn;
    rewrite ?HM, Hl, <- ?app_assoc, ?app_nil_r; done.
Qed.

Lemma min_remaining_le clk h ks : forall m, min_remaining clk h m ks <= m.
Proof.
  unfold min_remaining. induction ks as [|kv ks IH]; intros m; cbn; [lia|].
  specialize (IH (Z.min m (duration_ns h kv - elapsed clk h kv))). lia.
Qed.

Lemma min_remaining_lower clk h ks kv :
  kv ∈ ks -> forall m, min_remaining clk h m ks <= duration_ns h kv - elapsed clk h kv.
Proof.
  unfold min_remaining. induction 1 as [kv ks|kv kv' ks _ IH]; intros m; cbn.
  - pose proof (min_remaining_le clk h ks (Z.min m (duration_ns h kv - elapsed clk h kv))).
    unfold min_remaining in *. lia.
  - apply IH.
Qed.

Lemma min_remaining_attained clk h ks :
  forall m, min_remaining clk h m ks = m \/
            exists kv, kv ∈ ks /\ min_remaining clk h m ks = duration_ns h kv - elapsed clk h kv.
Proof.
  unfold min_remaining. induction ks as [|kv ks IH]; intros m; cbn; [by left|].
  destruct (IH (Z.min m (duration_ns h kv - elapsed clk h kv))) as [Heq|(kv' & Hin & Heq)].
  - destruct (Z.min_spec m (duration_ns h kv - elapsed clk h kv)) as [[_ Hm]|[_ Hm]].
    + left. by rewrite Heq.
    + right. exists kv. split; [left|]. by rewrite Heq.
  - right. exists kv'. split; [by right|done].
Qed.

(** C3 (amended). At the end of an iteration the loop compares
    [minSpan - (endTime - startTime)] with the 5 ms resolution, [minSpan]
    being the minimum of [duration - span] over the entries the scan
    visited and kept ([LLONG_MAX] when there is none): strictly above the
    resolution it sleeps exactly 1 ms, otherwise it does not sleep.  The
    time slept is never negative and never more than 1 ms. *)
Theorem sleep_is_one_ms_above_resolution (clk : ScanClock) (addOk : ptr -> bool) (w : World) :
  let minSpan := scan_minSpan clk w in
  let wanted := minSpan - (t_end clk - t_begin clk) >? ns_of_ms INTERVAL_RESOLUTION in
  (scan clk addOk w).1 = minSpan /\
  (forall kv, kv ∈ scan_kept clk w ->
              minSpan <= duration_ns (heap w) kv - elapsed clk (heap w) kv) /\
  (minSpan = LLONG_MAX \/
   exists kv, kv ∈ scan_kept clk w /\
              minSpan = duration_ns (heap w) kv - elapsed clk (heap w) kv) /\
  log (cycle clk addOk w) =
    log (after_merge clk addOk w).2 ++ (if wanted then [EvSleep 1] else []) /\
  slept_ns clk addOk w = (if wanted then ns_of_ms 1 else 0) /\
  0 <= slept_ns clk addOk w <= ns_of_ms 1.
Proof.
  cbn zeta. destruct (scan_spec clk addOk w) as (_ & Hl & _ & Hm & _).
  split; [done|]. split.
  { intros kv Hin. by apply min_remaining_lower. }
  split.
  { apply min_remaining_attained. }
  split.
  { rewrite cycle_log. unfold after_merge.
    destruct (scan clk addOk w) as [ms w1]. cbn in Hl |- *.
    change (log (Merge w1)) with (log w1). rewrite Hl, <- app_assoc. done. }
  unfold slept_ns, sleep_ms, sleep_wanted. rewrite Hm.
  destruct (_ >? _); cbn; unfold ns_of_ms; lia.
Qed.

(** C3, as stated, fails: with one entry of 1000 ms just started and a scan
    that takes no time, the specification's formula gives a sleep of
    1000 ms, the loop sleeps 1 ms. *)
Lemma sleep_is_not_the_remaining_time :
  let w := world_one_entry 1000 in
  let clk := clock_at 0 in
  scan_minSpan clk w = ns_of_ms 1000 /\
  slept_ns clk (fun _ => true) w = ns_of_ms 1 /\
  sleep_spec (scan_minSpan clk w) (t_end clk - t_begin clk) = ns_of_ms 1000 /\
  slept_ns clk (fun _ => true) w <>
    sleep_spec (scan_minSpan clk w) (t_end clk - t_begin clk).
Proof. vm_compute. repeat split; discriminate. Qed.

(** The scan hands an entry to [Attach] only in the branch
    [span > duration]. *)
Lemma attach_needs_expiry clk addOk w p :
  (attaches p w < attaches p (cycle clk addOk w))%nat ->
  exists k,
    m_CallMap (helper w) !! k = Some p /\
    t_at clk k - m_StartTime (deref w p) > ns_of_ms (m_Duration (deref w p)).
Proof.
  unfold attaches. rewrite cycle_log, !count_app. intros Hlt.
  assert (count (is_attach p)
            (if sleep_wanted (scan_minSpan clk w) (t_begin clk) (t_end clk)
             then [EvSleep 1] else []) = 0%nat) as Hs by (by destruct (sleep_wanted _ _ _)).
  rewrite Hs in Hlt.
  destruct (count_attach_scan_events p (scan_dispatched clk w)) as [k Hk]; [lia|].
  apply dispatched_elem in Hk as [Hin Hexp].
  apply elem_of_map_to_list in Hin.
  exists k. split; [done|].
  unfold expired, elapsed, duration_ns in Hexp. cbn in Hexp.
  unfold deref. lia.
Qed.

Lemma attaches_cycle_mono clk addOk w p :
  (attaches p w <= attaches p (cycle clk addOk w))%nat.
Proof. unfold attaches. rewrite cycle_log, !count_app. lia. Qed.

(** At an elapsed time equal to the duration the entry stays. *)
Example no_dispatch_at_the_duration :
  attaches 0%nat (cycle (clock_at 50000000) (fun _ => true) (world_one_entry 50)) = 0%nat.
Proof. vm_compute. reflexivity. Qed.

(** ** The checkpoint hook *)

Lemma Py_BuildValue_d_of_object o : Py_BuildValue "(d)" (VaObject o) = None.
Proof. reflexivity. Qed.

Lemma Py_BuildValue_O_of_object o : Py_BuildValue "O" (VaObject o) = Some o.
Proof. reflexivity. Qed.

(** What [OnTrace] does on a thread whose trace object is a capsule: the
    captured handler is put back first; a released entry ends the call with
    0; a valid one has its callback called, a failure of the callback is
    returned as -1. *)
Lemma OnTrace_order t ok w p tf tobj :
  c_traceobj (tstate w t) = Some (PyCapsule p tf tobj) ->
  let w1 := PyEval_SetTrace t tf tobj w in
  tstate w1 t = mkTState tf tobj /\
  OnTrace t ok w =
    if negb (IsValid (deref w p)) then Some (0, w1)
    else match m_Callback (deref w p) with
         | Some f =>
             Some (if ok then 0 else -1,
                   emit (EvCallback p f
                           (Py_BuildValue "(d)"
                              (VaObject (TimePointToPyFloat (m_StartTime (deref w p))))))
                        w1)
         | None => Some (-1, w1)
         end.
Proof.
  intros Hcap. cbn zeta. split.
  - unfold tstate, PyEval_SetTrace. cbn. by rewrite lookup_insert_eq.
  - unfold OnTrace. rewrite Hcap.
    change (deref (PyEval_SetTrace t tf tobj w) p) with (deref w p).
    destruct (IsValid (deref w p)); cbn; [|done].
    unfold PyObject_CallFunction. destruct (m_Callback (deref w p)); [|done].
    by destruct ok.
Qed.

Lemma OnFastTrace_call ok w p f :
  IsValid (deref w p) = true -> m_Callback (deref w p) = Some f ->
  OnFastTrace ok p w =
    (if ok then 0 else -1,
     emit (EvCallback p f (Some (TimePointToPyFloat (m_StartTime (deref w p))))) w).
Proof.
  intros Hv Hc. unfold OnFastTrace, PyObject_CallFunction. rewrite Hv, Hc. cbn.
  by destruct ok.
Qed.

(** C6, at the failing input.  On [world_hook_installed] the hook restores
    the captured handler first and then, the entry being valid, calls the
    callback; but the format ["(d)"] reads a C double from an argument slot
    that holds the object [pyStartTime], so what the callback receives is
    not the recorded start time (42), whereas the fast path [OnFastTrace],
    format ["O"], does pass it. *)
Theorem OnTrace_does_not_pass_the_start_time :
  let w := world_hook_installed in
  c_traceobj (tstate w 3%nat) = Some (PyCapsule 0%nat None None) /\
  IsValid (deref w 0%nat) = true /\
  m_StartTime (deref w 0%nat) = 42 /\
  (exists w', OnTrace 3%nat true w = Some (0, w') /\
              tstate w' 3%nat = mkTState None None /\
              log w' = log w ++ [EvCallback 0%nat 7%nat None]) /\
  log (OnFastTrace true 0%nat w).2 =
    log w ++ [EvCallback 0%nat 7%nat (Some (TimePointToPyFloat 42))].
Proof.
  cbn zeta. split; [by vm_compute|]. split; [by vm_compute|]. split; [by vm_compute|].
  split; [|by vm_compute].
  exists (PyEval_SetTrace 3%nat None None
            (emit (EvCallback 0%nat 7%nat None) world_hook_installed)).
  split; [by vm_compute|]. split; by vm_compute.
Qed.

(** ** The registry across one iteration *)

Lemma erase_dispatched_is_removals (m : gmap nat nat) (ds : list (ptr * ptr)) :
  foldl (fun m kv => delete kv.1 m) m ds = apply_removals ds.*1 m.
Proof.
  unfold apply_removals. revert m. induction ds as [|kv ds IH]; intros m; cbn; [done|].
  by rewrite IH.
Qed.

Lemma apply_removals_wf dels m : keys_are_values m -> keys_are_values (apply_removals dels m).
Proof.
  intros Hwf k v. rewrite apply_removals_lookup. case_bool_decide; [done|]. apply Hwf.
Qed.

Lemma apply_adds_wf w news m : keys_are_values m -> keys_are_values (apply_adds w news m).
Proof.
  intros Hwf k v. rewrite apply_adds_lookup.
  destruct (_ && _); [by intros [= ->]|apply Hwf].
Qed.

Lemma cycle_helper clk addOk w :
  helper (cycle clk addOk w) =
  let m := apply_adds w (m_NewVect (helper w))
             (apply_removals (m_DelVect (helper w))
                (apply_removals (scan_dispatched clk w).*1 (m_CallMap (helper w)))) in
  mkHelper (m_CheckTh (helper w)) (m_IsQuit (helper w))
           (if bool_decide (m = ∅) then false else m_Running (helper w))
           m [] [].
Proof.
  unfold cycle, after_merge.
  destruct (scan_spec clk addOk w) as (Hh & _ & Hc & _ & _).
  destruct (scan clk addOk w) as [ms w1]. cbn in Hh, Hc.
  rewrite Merge_is_Merge_spec. unfold Merge_spec.
  rewrite (deref_adds_heap w1 w) by done.
  rewrite Hc, erase_dispatched_is_removals.
  cbn [helper set_helper set_newvect set_delvect set_callmap set_running
       m_CallMap m_NewVect m_DelVect m_CheckTh m_IsQuit m_Running].
  set (m := apply_adds w _ _).
  unfold AccurateSleep, emit.
  by destruct (sleep_wanted _ _ _), (bool_decide (m = ∅)).
Qed.

Lemma cycle_frame clk addOk w :
  heap (cycle clk addOk w) = heap w /\ handles (cycle clk addOk w) = handles w /\
  pendingcalls (cycle clk addOk w) =
    pendingcalls w ++ (List.filter (queues_request addOk (heap w)) (scan_dispatched clk w)).*2.
Proof.
  unfold cycle, after_merge.
  destruct (scan_loop_spec clk addOk (map_to_list (m_CallMap (helper w))) LLONG_MAX w)
    as (Hh & Hha & _ & _ & _ & _ & Hp).
  fold (scan clk addOk w) in Hh, Hha, Hp. fold (scan_dispatched clk w) in Hp.
  destruct (scan clk addOk w) as [ms w1]. cbn in Hh, Hha, Hp.
  by destruct (sleep_wanted _ _ _); case_bool_decide.
Qed.

Lemma cycle_wf clk addOk w :
  keys_are_values (m_CallMap (helper w)) ->
  keys_are_values (m_CallMap (helper (cycle clk addOk w))).
Proof.
  intros Hwf. rewrite cycle_helper. cbn.
  by apply apply_adds_wf, apply_removals_wf, apply_removals_wf.
Qed.

Lemma no_attach_without_entry clk addOk w p :
  keys_are_values (m_CallMap (helper w)) ->
  m_CallMap (helper w) !! p = None ->
  attaches p (cycle clk addOk w) = attaches p w.
Proof.
  intros Hwf Hnone. unfold attaches. rewrite cycle_log, !count_app.
  assert (count (is_attach p)
            (if sleep_wanted (scan_minSpan clk w) (t_begin clk) (t_end clk)
             then [EvSleep 1] else []) = 0%nat) as -> by (by destruct (sleep_wanted _ _ _)).
  destruct (count (is_attach p) (scan_events (scan_dispatched clk w))) eqn:Hc; [lia|].
  destruct (count_attach_scan_events p (scan_dispatched clk w)) as [k Hk]; [lia|].
  apply dispatched_elem in Hk as [Hin _]. apply elem_of_map_to_list in Hin.
  cbn in Hin. pose proof (Hwf _ _ Hin) as Heq. cbn in Heq. rewrite Heq in Hin.
  discriminate (eq_trans (eq_sym Hin) Hnone).
Qed.

(** C9. When the scan dispatches an entry of the main thread and
    [Py_AddPendingCall] rejects the request, [FastCall] leaves the process as
    it was: no request for the entry is queued.  The scan erases the entry
    all the same, so after the iteration it is in neither the active map nor
    the pending adds, and the following iterations do not dispatch it. *)
Theorem rejected_pending_call_is_dropped (clk : ScanClock) (addOk : ptr -> bool)
    (w : World) (p : ptr) :
  keys_are_values (m_CallMap (helper w)) ->
  ((p, p) ∈ scan_dispatched clk w) ->
  IsMainThreadInjector (deref w p) = true ->
  addOk p = false ->
  p ∉ m_NewVect (helper w) ->
  let w' := cycle clk addOk w in
  FastCall (addOk p) p w = w /\
  (exists added, pendingcalls w' = pendingcalls w ++ added /\ p ∉ added) /\
  m_CallMap (helper w') !! p = None /\
  (p ∉ m_NewVect (helper w')) /\
  forall clk' addOk', attaches p (cycle clk' addOk' w') = attaches p w'.
Proof.
  intros Hwf Hd Hmain Hrej Hnew. cbn zeta.
  assert (m_CallMap (helper (cycle clk addOk w)) !! p = None) as Hgone.
  { rewrite cycle_helper. cbn. rewrite apply_adds_lookup.
    rewrite (bool_decide_eq_false_2 _ Hnew). cbn.
    rewrite apply_removals_lookup. case_bool_decide; [done|].
    rewrite apply_removals_lookup. rewrite bool_decide_eq_true_2; [done|].
    apply list_elem_of_fmap. by exists (p, p). }
  split.
  { unfold FastCall, Py_AddPendingCall. rewrite Hrej.
    by destruct (IsValid (deref w p)). }
  split.
  { destruct (cycle_frame clk addOk w) as (_ & _ & ->). eexists. split; [done|].
    intros ((k & v) & Hv & Hin)%list_elem_of_fmap. cbn in Hv. subst v.
    apply list_elem_of_In, List.filter_In in Hin as [_ Hq].
    unfold queues_request in Hq. cbn in Hq. rewrite Hrej, andb_false_r in Hq. done. }
  split; [done|]. split.
  { rewrite cycle_helper. cbn. apply not_elem_of_nil. }
  intros clk' addOk'. apply no_attach_without_entry; [by apply cycle_wf|done].
Qed.

Lemma rejected_pending_call_is_dropped_witness :
  let w := world_one_entry 50 in
  let clk := clock_at 60000000 in
  let addOk := fun _ : ptr => false in
  let w' := cycle clk addOk w in
  FastCall (addOk 0%nat) 0%nat w = w /\
  (exists added, pendingcalls w' = pendingcalls w ++ added /\ 0%nat ∉ added) /\
  m_CallMap (helper w') !! 0%nat = None /\
  (0%nat ∉ m_NewVect (helper w')) /\
  forall clk' addOk', attaches 0%nat (cycle clk' addOk' w') = attaches 0%nat w'.
Proof.
  apply (rejected_pending_call_is_dropped (clock_at 60000000) (fun _ => false)
           (world_one_entry 50) 0%nat).
  - apply (bool_decide_unpack _). vm_compute. exact I.
  - apply (bool_decide_unpack _). vm_compute. exact I.
  - vm_compute. reflexivity.
  - reflexivity.
  - apply (bool_decide_unpack _). vm_compute. exact I.
Defined.

(** ** Steps of the process: what they leave alone *)

Lemma OnFastTrace_frame ok q w :
  let r := (OnFastTrace ok q w).2 in
  heap r = heap w /\ handles r = handles w /\ helper r = helper w /\
  pendingcalls r = pendingcalls w /\ tstates r = tstates w /\
  log r = log w ++
          match m_Callback (deref w q) with
          | Some f =>
              if IsValid (deref w q)
              then [EvCallback q f (Some (TimePointToPyFloat (m_StartTime (deref w q))))]
              else []
          | None => []
          end.
Proof.
  unfold OnFastTrace, PyObject_CallFunction.
  destruct (IsValid (deref w q)), (m_Callback (deref w q)), ok; cbn;
    by rewrite ?app_nil_r.
Qed.

Lemma OnTrace_frame t ok w r :
  OnTrace t ok w = Some r ->
  exists q tf tobj,
    c_traceobj (tstate w t) = Some (PyCapsule q tf tobj) /\
    heap r.2 = heap w /\ handles r.2 = handles w /\ helper r.2 = helper w /\
    pendingcalls r.2 = pendingcalls w /\
    tstates r.2 = <[t := mkTState tf tobj]> (tstates w) /\
    log r.2 = log w ++
              match m_Callback (deref w q) with
              | Some f => if IsValid (deref w q) then [EvCallback q f None] else []
              | None => []
              end.
Proof.
  intros Hr. destruct (c_traceobj (tstate w t)) as [[|q tf tobj|]|] eqn:Hcap;
    try (unfold OnTrace in Hr; rewrite Hcap in Hr; discriminate).
  destruct (OnTrace_order t ok w q tf tobj Hcap) as [_ Heq]. rewrite Heq in Hr.
  exists q, tf, tobj. split; [done|].
  destruct (IsValid (deref w q)), (m_Callback (deref w q)); cbn in Hr;
    injection Hr as <-; cbn; by rewrite ?app_nil_r.
Qed.

Lemma fresh_ptr_fresh w : heap w !! fresh_ptr w = None.
Proof. apply not_elem_of_dom. unfold fresh_ptr. apply is_fresh. Qed.

Lemma deref_update p q f w :
  deref (update p f w) q = if decide (p = q) then
                             match heap w !! q with
                             | Some i => f i
                             | None => released_injector
                             end
                           else deref w q.
Proof.
  unfold deref, update. cbn. rewrite lookup_alter. case_decide; [subst|done].
  by destruct (heap w !! q).
Qed.

(** *** Validity never comes back *)

Lemma released_in_deref w p : released_in w p -> IsValid (deref w p) = false.
Proof. intros (i & Hi & Hv). unfold deref. by rewrite Hi. Qed.

Lemma released_update p q f w :
  (forall i, m_IsValid i = false -> m_IsValid (f i) = false) ->
  released_in w q -> released_in (update p f w) q.
Proof.
  intros Hf (i & Hi & Hv). unfold released_in, update. cbn.
  destruct (decide (p = q)) as [->|Hne].
  - rewrite lookup_alter_eq, Hi. cbn. eauto.
  - rewrite lookup_alter_ne by done. eauto.
Qed.

Lemma released_heap_eq w w' q : heap w' = heap w -> released_in w q -> released_in w' q.
Proof. unfold released_in. by intros ->. Qed.

Lemma released_insert_fresh w q (i : CLocalInjector) (w' : World) :
  heap w' = <[fresh_ptr w := i]> (heap w) -> released_in w q -> released_in w' q.
Proof.
  intros Hh (j & Hj & Hv). exists j. rewrite Hh. split; [|done].
  rewrite lookup_insert_ne; [done|]. intros Heq. rewrite <- Heq, fresh_ptr_fresh in Hj. done.
Qed.

Lemma step_heap_shape l w w' :
  step l w = Some w' ->
  heap w' = heap w \/
  (exists p f, heap w' = alter f p (heap w) /\
               forall i, m_IsValid i = false -> m_IsValid (f i) = false) \/
  (exists i, heap w' = <[fresh_ptr w := i]> (heap w)) \/
  (exists p i, heap w' = <[fresh_ptr (update p Release w) := i]> (alter Release p (heap w))).
Proof.
  destruct l as [h time cb th|h now|h|h now th|h|clk addOk|ok|t ok|t f o|]; cbn; intros Hs.
  - unfold InitPyInjector in Hs. cbn in Hs.
    injection Hs as <-. right; right; left. eauto.
  - unfold InjectorStart in Hs. destruct (handles w !! h) as [p|]; [|done]. cbn in Hs.
    injection Hs as <-. right; left. exists p, (RecordStartTime now). split; done.
  - unfold InjectorStop in Hs. destruct (handles w !! h) as [p|]; [|done]. cbn in Hs.
    injection Hs as <-. right; left. exists p, Release. split; done.
  - unfold InjectorReset in Hs. destruct (handles w !! h) as [p|]; [|done]. cbn in Hs.
    destruct (m_Callback (deref w p)) as [f|]; [|done]. cbn in Hs.
    injection Hs as <-. right; right; right. eauto.
  - unfold DeallocPyInjector in Hs. destruct (handles w !! h) as [p|].
    + injection Hs as <-. right; left. exists p, Release. split; done.
    + injection Hs as <-. by left.
  - unfold CheckThread_iteration in Hs. destruct (m_CheckTh (helper w)); try done.
    injection Hs as <-. left. cbn. apply cycle_frame.
  - unfold run_pending in Hs. destruct (pendingcalls w) as [|q qs]; [done|].
    injection Hs as <-. left. apply (OnFastTrace_frame ok q (set_pending qs w)).
  - unfold trace_event in Hs. destruct (c_tracefunc (tstate w t)) as [[|n]|].
    + destruct (OnTrace t ok w) as [r|] eqn:Hr; [|done]. cbn in Hs. injection Hs as <-.
      left. destruct (OnTrace_frame _ _ _ _ Hr) as (q & tf & tobj & _ & Hh & _). done.
    + injection Hs as <-. by left.
    + injection Hs as <-. by left.
  - injection Hs as <-. by left.
  - injection Hs as <-. by left.
Qed.

Lemma step_released l w w' p : step l w = Some w' -> released_in w p -> released_in w' p.
Proof.
  intros Hs Hr.
  destruct (step_heap_shape l w w' Hs) as [Hh|[(q & f & Hh & Hf)|[(i & Hh)|(q & i & Hh)]]].
  - by apply (released_heap_eq w).
  - apply (released_heap_eq (update q f w)); [done|]. by apply released_update.
  - by apply (released_insert_fresh w p i).
  - apply (released_insert_fresh (update q Release w) p i); [done|].
    by apply released_update.
Qed.

Lemma count_scan_events_callback p ds : count (is_callback p) (scan_events ds) = 0%nat.
Proof. induction ds as [|kv ds IH]; [done|]. unfold count in *. cbn. exact IH. Qed.

Lemma count_scan_events_start p ds : count (is_start p) (scan_events ds) = 0%nat.
Proof. induction ds as [|kv ds IH]; [done|]. unfold count in *. cbn. exact IH. Qed.

Lemma count_nil f : count f [] = 0%nat.
Proof. done. Qed.

Lemma cycle_callbacks clk addOk w p : callbacks p (cycle clk addOk w) = callbacks p w.
Proof.
  unfold callbacks. rewrite cycle_log, !count_app, count_scan_events_callback.
  destruct (sleep_wanted _ _ _); unfold count; cbn; lia.
Qed.

Lemma callbacks_log_start p q w w' :
  log w' = log w ++ [EvStart q] -> callbacks p w' = callbacks p w.
Proof. unfold callbacks. intros ->. rewrite count_app. unfold count. cbn. lia. Qed.

(** A step runs the callback of an entry only if the entry is valid. *)
Lemma step_callbacks_released l w w' p :
  step l w = Some w' -> IsValid (deref w p) = false -> callbacks p w' = callbacks p w.
Proof.
  destruct l as [h time cb th|h now|h|h now th|h|clk addOk|ok|t ok|t f o|]; cbn;
    intros Hs Hinv.
  - unfold InitPyInjector in Hs. cbn in Hs.
    by injection Hs as <-.
  - unfold InjectorStart in Hs. destruct (handles w !! h) as [q|]; [|done]. cbn in Hs.
    injection Hs as <-. by apply (callbacks_log_start p q).
  - unfold InjectorStop in Hs. destruct (handles w !! h) as [q|]; [|done]. cbn in Hs.
    by injection Hs as <-.
  - unfold InjectorReset in Hs. destruct (handles w !! h) as [q|]; [|done]. cbn in Hs.
    destruct (m_Callback (deref w q)) as [f|]; [|done]. cbn in Hs.
    injection Hs as <-. by eapply callbacks_log_start.
  - unfold DeallocPyInjector in Hs. destruct (handles w !! h) as [q|];
      by injection Hs as <-.
  - unfold CheckThread_iteration in Hs. destruct (m_CheckTh (helper w)); try done.
    injection Hs as <-. apply cycle_callbacks.
  - unfold run_pending in Hs. destruct (pendingcalls w) as [|q qs]; [done|].
    injection Hs as <-.
    destruct (OnFastTrace_frame ok q (set_pending qs w)) as (_ & _ & _ & _ & _ & Hl).
    unfold callbacks. rewrite Hl, count_app.
    change (deref (set_pending qs w) q) with (deref w q).
    destruct (m_Callback (deref w q)); [|unfold count; cbn; lia].
    destruct (IsValid (deref w q)) eqn:Hv; [|unfold count; cbn; lia].
    unfold count. cbn. destruct (Nat.eqb_spec p q) as [->|]; [congruence|unfold count; cbn; lia].
  - unfold trace_event in Hs. destruct (c_tracefunc (tstate w t)) as [[|n]|];
      [|by injection Hs as <-..].
    destruct (OnTrace t ok w) as [r|] eqn:Hr; [|done]. cbn in Hs. injection Hs as <-.
    destruct (OnTrace_frame _ _ _ _ Hr) as (q & tf & tobj & _ & _ & _ & _ & _ & _ & Hl).
    unfold callbacks. rewrite Hl, count_app.
    destruct (m_Callback (deref w q)); [|unfold count; cbn; lia].
    destruct (IsValid (deref w q)) eqn:Hv; [|unfold count; cbn; lia].
    unfold count. cbn. destruct (Nat.eqb_spec p q) as [->|]; [congruence|unfold count; cbn; lia].
  - by injection Hs as <-.
  - by injection Hs as <-.
Qed.

(** Once an entry is released, no execution runs its callback again. *)
Lemma released_never_fires ls :
  forall w w' p, run ls w = Some w' -> released_in w p ->
                 callbacks p w' = callbacks p w /\ released_in w' p.
Proof.
  induction ls as [|l ls IH]; intros w w' p Hrun Hrel; cbn in Hrun.
  - by injection Hrun as <-.
  - destruct (step l w) as [w1|] eqn:Hs; [|done]. cbn in Hrun.
    destruct (IH w1 w' p Hrun (step_released _ _ _ _ Hs Hrel)) as [Hc Hr].
    split; [|done]. rewrite Hc.
    apply (step_callbacks_released l w w1 p Hs). by apply released_in_deref.
Qed.

(** ** Cancellation *)

Lemma Stop_releases p w : is_Some (heap w !! p) -> released_in (Stop p w) p.
Proof.
  intros [i Hi]. exists (Release i). split; [|done].
  unfold Stop, update. cbn. by rewrite lookup_alter_eq, Hi.
Qed.


(** ** Handles and their entries *)

Lemma helper_Start_fields p c :
  m_CallMap (helper_Start p c) =
    (if m_Running c then m_CallMap c else <[p := p]> (m_CallMap c)) /\
  m_NewVect (helper_Start p c) =
    (if m_Running c then m_NewVect c ++ [p] else m_NewVect c) /\
  m_DelVect (helper_Start p c) = m_DelVect c /\
  m_Running (helper_Start p c) = true /\
  m_CheckTh (helper_Start p c) =
    match m_CheckTh c with
    | NotStarted => Scanning
    | Parked => if m_IsQuit c then Exited else Scanning
    | ph => ph
    end /\
  m_IsQuit (helper_Start p c) =
    match m_CheckTh c with NotStarted => false | _ => m_IsQuit c end.
Proof. destruct c as [[] [] [] m n d]; done. Qed.

Lemma Start_registers p w : registered (Start p w) p.
Proof.
  unfold registered, Start. cbn [helper emit set_helper].
  destruct (helper_Start_fields p (helper w)) as (-> & -> & _).
  destruct (m_Running (helper w)).
  - right. apply elem_of_app. right. left.
  - left. apply lookup_insert_eq.
Qed.

Lemma step_handles l w w' h p :
  step l w = Some w' -> handles w !! h = Some p ->
  handles w' !! h = Some p \/ (exists now th, l = LReset h now th) \/ l = LDealloc h \/
  (exists time cb th, l = LCreate h time cb th).
Proof.
  destruct l as [h' time cb th|h' now|h'|h' now th|h'|clk addOk|ok|t ok|t f o|]; cbn;
    intros Hs Hh.
  - destruct (decide (h' = h)) as [->|Hne]; [right; right; right; eauto|].
    unfold InitPyInjector in Hs. cbn in Hs.
    injection Hs as <-. left. cbn. by rewrite lookup_insert_ne.
  - unfold InjectorStart in Hs. destruct (handles w !! h') as [q|]; [|done]. cbn in Hs.
    injection Hs as <-. by left.
  - unfold InjectorStop in Hs. destruct (handles w !! h') as [q|]; [|done]. cbn in Hs.
    injection Hs as <-. by left.
  - destruct (decide (h' = h)) as [->|Hne]; [right; left; eauto|].
    unfold InjectorReset in Hs. destruct (handles w !! h') as [q|]; [|done]. cbn in Hs.
    destruct (m_Callback (deref w q)) as [f|]; [|done]. cbn in Hs.
    injection Hs as <-. left. cbn. by rewrite lookup_insert_ne.
  - destruct (decide (h' = h)) as [->|Hne]; [by right; right; left|].
    unfold DeallocPyInjector in Hs. destruct (handles w !! h') as [q|];
      injection Hs as <-; left; cbn; [by rewrite lookup_delete_ne|done].
  - unfold CheckThread_iteration in Hs. destruct (m_CheckTh (helper w)); try done.
    injection Hs as <-. left. cbn. by destruct (cycle_frame clk addOk w) as (_ & -> & _).
  - unfold run_pending in Hs. destruct (pendingcalls w) as [|q qs]; [done|].
    injection Hs as <-. left.
    destruct (OnFastTrace_frame ok q (set_pending qs w)) as (_ & Hc & _).
    cbn zeta in Hc. by rewrite Hc.
  - unfold trace_event in Hs. destruct (c_tracefunc (tstate w t)) as [[|n]|];
      [|by injection Hs as <-; left..].
    destruct (OnTrace t ok w) as [r|] eqn:Hr; [|done]. cbn in Hs. injection Hs as <-.
    destruct (OnTrace_frame _ _ _ _ Hr) as (q & tf & tobj & _ & _ & Hc & _).
    left. by rewrite Hc.
  - injection Hs as <-. by left.
  - injection Hs as <-. by left.
Qed.

(** What a successful [InjectorReset] on handle [h] leaves behind. *)
Lemma Reset_replaces h now th w w' :
  InjectorReset h now th w = Some w' ->
  exists old p f,
    handles w !! h = Some old /\ heap w !! p = None /\
    m_Callback (deref w old) = Some f /\
    handles w' !! h = Some p /\
    heap w' !! p = Some (mkInjector true (Some f) (m_Duration (deref w old)) now
                           (mkThreadState th (Nat.eqb (g_MainThreadId w) th))) /\
    heap w' = <[p := mkInjector true (Some f) (m_Duration (deref w old)) now
                       (mkThreadState th (Nat.eqb (g_MainThreadId w) th))]>
                (alter Release old (heap w)) /\
    registered w' p.
Proof.
  unfold InjectorReset. intros Hs. destruct (handles w !! h) as [old|] eqn:Hh; [|done].
  cbn in Hs. destruct (m_Callback (deref w old)) as [f|] eqn:Hcb; [|done]. cbn in Hs.
  injection Hs as <-. exists old, (fresh_ptr (update old Release w)), f.
  split; [done|]. split.
  { pose proof (fresh_ptr_fresh (update old Release w)) as Hf.
    unfold update in Hf at 1. cbn in Hf. by apply lookup_alter_None in Hf. }
  split; [done|]. split; [cbn; apply lookup_insert_eq|].
  split; [cbn; apply lookup_insert_eq|]. split; [done|].
  apply Start_registers.
Qed.

(** C10. Invalidation is permanent, and [Reset] does not get round it on a
    stopped handle.  (1) No step of the process turns a released entry valid
    again.  (2) [Start] on a handle after [Stop] registers the same,
    released entry, and no execution invokes its callback.  (3) [Reset] on a
    handle after [Stop] does not restart the timer: [Release] has cleared
    the callback, [InjectorReset] hands the null pointer to [SetCallback],
    whose [Py_INCREF] dereferences it; the call faults.  (4) On a handle
    whose entry still has its callback, [Reset] returns and binds the handle
    to a fresh entry: valid, with the callback and duration of the old one,
    started now, registered; the old entry is released.  (5) The entry a
    handle is bound to changes only by [Reset], by deallocation and by
    running [__init__] on the handle again. *)
Theorem invalidation_is_permanent :
  (forall l w w' p, step l w = Some w' -> released_in w p -> released_in w' p) /\
  (forall h p w w1 w2 now,
     handles w !! h = Some p -> is_Some (heap w !! p) ->
     step (LStop h) w = Some w1 -> step (LStart h now) w1 = Some w2 ->
     registered w2 p /\ released_in w2 p /\
     forall ls w', run ls w2 = Some w' -> callbacks p w' = callbacks p w1) /\
  (forall h p w w1 now th,
     handles w !! h = Some p -> step (LStop h) w = Some w1 ->
     handles w1 !! h = Some p /\ m_Callback (deref w1 p) = None /\
     step (LReset h now th) w1 = None) /\
  (forall h old f now th w,
     handles w !! h = Some old -> m_Callback (deref w old) = Some f ->
     exists w' p,
       step (LReset h now th) w = Some w' /\
       heap w !! p = None /\ handles w' !! h = Some p /\
       deref w' p = mkInjector true (Some f) (m_Duration (deref w old)) now
                      (mkThreadState th (Nat.eqb (g_MainThreadId w) th)) /\
       registered w' p /\
       (is_Some (heap w !! old) -> released_in w' old)) /\
  (forall l w w' h p,
     step l w = Some w' -> handles w !! h = Some p ->
     handles w' !! h = Some p \/ (exists now th, l = LReset h now th) \/ l = LDealloc h \/
     (exists time cb th, l = LCreate h time cb th)).
Proof.
  split; [exact step_released|]. split; [|split; [|split; [|exact step_handles]]].
  - intros h p w w1 w2 now Hh Hp Hs1 Hs2.
    cbn in Hs1. unfold InjectorStop in Hs1. rewrite Hh in Hs1. cbn in Hs1.
    injection Hs1 as <-.
    pose proof (Stop_releases p w Hp) as Hrel.
    pose proof (step_released _ _ _ p Hs2 Hrel) as Hrel2.
    pose proof (step_callbacks_released _ _ _ p Hs2 (released_in_deref _ _ Hrel)) as Hc.
    cbn in Hs2. unfold InjectorStart in Hs2.
    change (handles (Stop p w)) with (handles w) in Hs2. rewrite Hh in Hs2. cbn in Hs2.
    injection Hs2 as <-.
    split; [apply Start_registers|]. split; [done|].
    intros ls w' Hrun. destruct (released_never_fires ls _ _ p Hrun Hrel2) as [-> _].
    done.
  - intros h p w w1 now th Hh Hs1.
    cbn in Hs1. unfold InjectorStop in Hs1. rewrite Hh in Hs1. cbn in Hs1.
    injection Hs1 as <-.
    assert (m_Callback (deref (Stop p w) p) = None) as Hcb.
    { unfold deref, Stop, update. cbn. rewrite lookup_alter_eq.
      by destruct (heap w !! p). }
    split; [done|]. split; [done|].
    cbn. unfold InjectorReset. change (handles (Stop p w)) with (handles w).
    rewrite Hh. cbn. by rewrite Hcb.
  - intros h old f now th w Hh Hcb.
    assert (is_Some (InjectorReset h now th w)) as [w' Hs].
    { unfold InjectorReset. rewrite Hh. cbn. rewrite Hcb. cbn. by eexists. }
    destruct (Reset_replaces _ _ _ _ _ Hs) as (old' & p & f' & H1 & H2 & H3 & H4 & H5 & H6 & H7).
    assert (old' = old) as -> by congruence. assert (f' = f) as -> by congruence.
    exists w', p. split; [exact Hs|]. split; [done|]. split; [done|].
    split; [unfold deref; by rewrite H5|]. split; [done|].
    intros [i Hi]. exists (Release i). split; [|done]. rewrite H6.
    rewrite lookup_insert_ne by congruence. by rewrite lookup_alter_eq, Hi.
Qed.

(** The failing input: a handle is started, stopped and reset.  [Reset]
    faults.  Started again instead, the stopped handle registers its
    released entry, silent for ever. *)
Lemma invalidation_is_permanent_witness :
  let w := world_one_entry 1000 in
  let w1 := Stop 0%nat w in
  let w2 := Start 0%nat (update 0%nat (RecordStartTime 5) w1) in
  (handles w1 !! 1%nat = Some 0%nat /\ m_Callback (deref w1 0%nat) = None /\
   step (LReset 1%nat 5 0%nat) w1 = None) /\
  (registered w2 0%nat /\ released_in w2 0%nat /\
   forall ls w', run ls w2 = Some w' -> callbacks 0%nat w' = callbacks 0%nat w1).
Proof.
  split.
  - apply (proj1 (proj2 (proj2 invalidation_is_permanent)) 1%nat 0%nat
             (world_one_entry 1000) _ 5 0%nat).
    + vm_compute. reflexivity.
    + vm_compute. reflexivity.
  - apply (proj1 (proj2 invalidation_is_permanent) 1%nat 0%nat (world_one_entry 1000) _ _ 5).
    + vm_compute. reflexivity.
    + apply (bool_decide_unpack _). vm_compute. exact I.
    + vm_compute. reflexivity.
    + vm_compute. reflexivity.
Defined.

(** [Reset] on a handle that was stopped: the callback was cleared by
    [Release], [SetCallback] is handed a null pointer and faults. *)
Example Reset_after_Stop_faults :
  step (LReset 1%nat 5 0%nat) (Stop 0%nat (world_one_entry 1000)) = None.
Proof. vm_compute. reflexivity. Qed.

(** [Reset] on a live handle goes through. *)
Example Reset_of_live_entry :
  exists w', step (LReset 1%nat 5 0%nat) (world_one_entry 1000) = Some w' /\
             handles w' !! 1%nat = Some 1%nat /\
             IsValid (deref w' 1%nat) = true /\ IsValid (deref w' 0%nat) = false.
Proof.
  exists (default (initial 0%nat) (step (LReset 1%nat 5 0%nat) (world_one_entry 1000))).
  split; [by vm_compute|]. split; [by vm_compute|]. split; by vm_compute.
Qed.

(** ** Parking *)

Lemma helper_Stop_fields p c :
  m_CheckTh (helper_Stop p c) = m_CheckTh c /\ m_IsQuit (helper_Stop p c) = m_IsQuit c /\
  m_Running (helper_Stop p c) = m_Running c /\ m_NewVect (helper_Stop p c) = m_NewVect c.
Proof.
  unfold helper_Stop. repeat case_match; repeat split; by cbn.
Qed.

Lemma step_parked l w w' :
  step l w = Some w' -> m_CheckTh (helper w) = Parked ->
  m_CheckTh (helper w') = Parked \/ wakes l.
Proof.
  destruct l as [h time cb th|h now|h|h now th|h|clk addOk|ok|t ok|t f o|]; cbn;
    intros Hs Hp; try (by right).
  - unfold InitPyInjector in Hs. cbn in Hs.
    injection Hs as <-. by left.
  - unfold InjectorStop in Hs. destruct (handles w !! h) as [q|]; [|done]. cbn in Hs.
    injection Hs as <-. left. unfold Stop. cbn [helper set_helper].
    by destruct (helper_Stop_fields q (helper (update q Release w))) as (-> & _).
  - unfold DeallocPyInjector in Hs. destruct (handles w !! h) as [q|];
      injection Hs as <-; by left.
  - unfold CheckThread_iteration in Hs. by rewrite Hp in Hs.
  - unfold run_pending in Hs. destruct (pendingcalls w) as [|q qs]; [done|].
    injection Hs as <-. left.
    destruct (OnFastTrace_frame ok q (set_pending qs w)) as (_ & _ & Hc & _).
    cbn zeta in Hc. by rewrite Hc.
  - unfold trace_event in Hs. destruct (c_tracefunc (tstate w t)) as [[|n]|];
      [|by injection Hs as <-; left..].
    destruct (OnTrace t ok w) as [r|] eqn:Hr; [|done]. cbn in Hs. injection Hs as <-.
    destruct (OnTrace_frame _ _ _ _ Hr) as (q & tf & tobj & _ & _ & _ & Hc & _).
    left. by rewrite Hc.
  - injection Hs as <-. by left.
Qed.

Lemma run_parked ls :
  forall w w', Forall (fun l => ~ wakes l) ls -> run ls w = Some w' ->
               m_CheckTh (helper w) = Parked -> m_CheckTh (helper w') = Parked.
Proof.
  induction ls as [|l ls IH]; intros w w' Hall Hrun Hp; cbn in Hrun.
  - by injection Hrun as <-.
  - destruct (step l w) as [w1|] eqn:Hs; [|done]. cbn in Hrun.
    apply Forall_cons in Hall as [Hl Hall].
    destruct (step_parked l w w1 Hs Hp) as [Hp1|Hw]; [|done].
    by apply (IH w1).
Qed.

Lemma after_merge_callmap clk addOk w :
  m_CallMap (helper (after_merge clk addOk w).2) =
  apply_adds w (m_NewVect (helper w))
    (apply_removals (m_DelVect (helper w))
       (apply_removals (scan_dispatched clk w).*1 (m_CallMap (helper w)))).
Proof.
  unfold after_merge.
  destruct (scan_spec clk addOk w) as (Hh & _ & Hc & _ & _).
  destruct (scan clk addOk w) as [ms w1]. cbn in Hh, Hc.
  cbn [snd]. rewrite Merge_is_Merge_spec. unfold Merge_spec.
  rewrite (deref_adds_heap w1 w) by done.
  by rewrite Hc, erase_dispatched_is_removals.
Qed.

(** ** [Reset] against [Stop] followed by a fresh [Start] *)

Lemma helper_Stop_then_Start old p c :
  let cs := helper_Start p (helper_Stop old c) in
  let cr := helper_Start p c in
  m_CheckTh cs = m_CheckTh cr /\ m_IsQuit cs = m_IsQuit cr /\
  m_Running cs = m_Running cr /\ m_NewVect cs = m_NewVect cr /\
  (old <> p ->
   m_CallMap cs = (if m_Running c then m_CallMap cr else delete old (m_CallMap cr))) /\
  m_DelVect cs =
    (if m_Running c && bool_decide (is_Some (m_CallMap c !! old))
     then m_DelVect cr ++ [old] else m_DelVect cr).
Proof.
  cbn zeta.
  destruct (helper_Start_fields p (helper_Stop old c)) as (-> & -> & -> & -> & -> & ->).
  destruct (helper_Start_fields p c) as (-> & -> & -> & -> & -> & ->).
  destruct (helper_Stop_fields old c) as (-> & -> & -> & ->).
  repeat split.
  - intros Hne. unfold helper_Stop.
    destruct (m_CallMap c !! old) eqn:Hold; destruct (m_Running c) eqn:Hr; cbn;
      rewrite ?Hr; try done.
    + by rewrite delete_insert_ne.
    + rewrite delete_insert_ne by done. by rewrite delete_id.
  - unfold helper_Stop.
    destruct (m_CallMap c !! old) eqn:Hold; destruct (m_Running c) eqn:Hr; cbn; done.
Qed.

(** X20. On a live handle, [Reset] and [Stop] followed by a fresh
    [Start] both go through and leave the same heap (the old entry released,
    the same fresh entry with the callback and duration of the old one), the
    same handle binding, the same pending adds, flags, thread phase, pending
    calls, trace slots and log.  They differ in one thing: [Reset] does not
    touch the registration of the old entry, which [Stop] erases from the
    active map (loop idle) or queues for removal (loop running).  The old
    entry never fires after [Reset] has returned. *)
Theorem Reset_is_Stop_Start_up_to_old_registration (h : handle) (now : Z) (th : tid)
    (w : World) (old : ptr) :
  handles w !! h = Some old ->
  is_Some (heap w !! old) ->
  is_Some (m_Callback (deref w old)) ->
  exists wr ws,
    InjectorReset h now th w = Some wr /\
    Stop_then_fresh_Start h now th w = Some ws /\
    heap wr = heap ws /\ handles wr = handles ws /\
    pendingcalls wr = pendingcalls ws /\ tstates wr = tstates ws /\ log wr = log ws /\
    m_CheckTh (helper wr) = m_CheckTh (helper ws) /\
    m_IsQuit (helper wr) = m_IsQuit (helper ws) /\
    m_Running (helper wr) = m_Running (helper ws) /\
    m_NewVect (helper wr) = m_NewVect (helper ws) /\
    m_CallMap (helper ws) =
      (if m_Running (helper w) then m_CallMap (helper wr)
       else delete old (m_CallMap (helper wr))) /\
    m_DelVect (helper ws) =
      (if m_Running (helper w) && bool_decide (is_Some (m_CallMap (helper w) !! old))
       then m_DelVect (helper wr) ++ [old] else m_DelVect (helper wr)) /\
    released_in wr old /\
    (forall ls w', run ls wr = Some w' -> callbacks old w' = callbacks old wr).
Proof.
  intros Hh [i Hi] [f Hf].
  set (w1 := update old Release w).
  set (p := fresh_ptr w1).
  assert (old <> p) as Hne.
  { intros Heq. pose proof (fresh_ptr_fresh w1) as Hfr. fold p in Hfr. rewrite <- Heq in Hfr.
    unfold w1, update in Hfr. cbn in Hfr. by rewrite lookup_alter_eq, Hi in Hfr. }
  set (inj := mkInjector true (Some f) (m_Duration (deref w old)) now
                (mkThreadState th (Nat.eqb (g_MainThreadId w) th))).
  set (wr := Start p (set_handles (<[h := p]> (handles w1))
                        (set_heap (<[p := inj]> (heap w1)) w1))).
  set (ws := Start p (set_handles (<[h := p]> (handles w1))
                        (set_heap (<[p := inj]> (heap w1))
                           (set_helper (helper_Stop old (helper w1)) w1)))).
  assert (InjectorReset h now th w = Some wr) as Hr.
  { unfold InjectorReset. rewrite Hh. cbn. rewrite Hf. done. }
  assert (Stop_then_fresh_Start h now th w = Some ws) as Hs.
  { unfold Stop_then_fresh_Start, InjectorStop. rewrite Hh. cbn. rewrite Hf. cbn.
    unfold InjectorStart. cbn. rewrite lookup_insert_eq. cbn.
    unfold ws, Start, update. cbn. do 2 f_equal.
    unfold set_heap. cbn. f_equal. by rewrite alter_insert_eq. }
  exists wr, ws. split; [done|]. split; [done|].
  destruct (helper_Stop_then_Start old p (helper w)) as (H1 & H2 & H3 & H4 & H5 & H6).
  assert (released_in wr old) as Hrel.
  { exists (Release i). split; [|done]. unfold wr, Start. cbn.
    rewrite lookup_insert_ne by congruence. by rewrite lookup_alter_eq, Hi. }
  assert (helper ws = helper_Start p (helper_Stop old (helper w))) as Hhs by done.
  assert (helper wr = helper_Start p (helper w)) as Hhr by done.
  rewrite Hhr, Hhs.
  repeat split; try done; try (symmetry; assumption).
  - by apply H5.
  - intros ls w' Hrun. by destruct (released_never_fires ls _ _ old Hrun Hrel).
Qed.

Lemma Reset_is_Stop_Start_up_to_old_registration_witness :
  exists wr ws,
    InjectorReset 1%nat 5 0%nat (world_one_entry 1000) = Some wr /\
    Stop_then_fresh_Start 1%nat 5 0%nat (world_one_entry 1000) = Some ws /\
    heap wr = heap ws /\ handles wr = handles ws /\
    pendingcalls wr = pendingcalls ws /\ tstates wr = tstates ws /\ log wr = log ws /\
    m_CheckTh (helper wr) = m_CheckTh (helper ws) /\
    m_IsQuit (helper wr) = m_IsQuit (helper ws) /\
    m_Running (helper wr) = m_Running (helper ws) /\
    m_NewVect (helper wr) = m_NewVect (helper ws) /\
    m_CallMap (helper ws) =
      (if m_Running (helper (world_one_entry 1000)) then m_CallMap (helper wr)
       else delete 0%nat (m_CallMap (helper wr))) /\
    m_DelVect (helper ws) =
      (if m_Running (helper (world_one_entry 1000)) &&
          bool_decide (is_Some (m_CallMap (helper (world_one_entry 1000)) !! 0%nat))
       then m_DelVect (helper wr) ++ [0%nat] else m_DelVect (helper wr)) /\
    released_in wr 0%nat /\
    (forall ls w', run ls wr = Some w' -> callbacks 0%nat w' = callbacks 0%nat wr).
Proof.
  apply (Reset_is_Stop_Start_up_to_old_registration 1%nat 5 0%nat (world_one_entry 1000)
           0%nat).
  - vm_compute. reflexivity.
  - apply (bool_decide_unpack _). vm_compute. exact I.
  - apply (bool_decide_unpack _). vm_compute. exact I.
Defined.

(** The difference at work: on a running registry that holds the entry of
    handle 1, [Stop] then a fresh [Start] queues the old entry for removal
    and the next iteration takes it out of the active map; after [Reset]
    nothing is queued and the old entry is still in the active map after the
    next iteration. *)
Lemma Reset_leaves_the_old_entry_registered :
  let w := world_one_entry 1000 in
  let clk := clock_at 6 in
  let addOk := fun _ : ptr => true in
  exists wr ws,
    InjectorReset 1%nat 5 0%nat w = Some wr /\
    Stop_then_fresh_Start 1%nat 5 0%nat w = Some ws /\
    m_DelVect (helper wr) = [] /\ m_DelVect (helper ws) = [0%nat] /\
    m_CallMap (helper (cycle clk addOk wr)) !! 0%nat = Some 0%nat /\
    m_CallMap (helper (cycle clk addOk ws)) !! 0%nat = None /\
    helper wr <> helper ws.
Proof.
  cbn zeta.
  exists (default (initial 0%nat) (InjectorReset 1%nat 5 0%nat (world_one_entry 1000))),
         (default (initial 0%nat) (Stop_then_fresh_Start 1%nat 5 0%nat (world_one_entry 1000))).
  split; [by vm_compute|]. split; [by vm_compute|]. split; [by vm_compute|].
  split; [by vm_compute|]. split; [by vm_compute|]. split; [by vm_compute|].
  intros Heq. apply (f_equal m_DelVect) in Heq. vm_compute in Heq. discriminate.
Qed.

(** ** Delivery tokens *)

Lemma occ_app p l1 l2 : occ p (l1 ++ l2) = (occ p l1 + occ p l2)%nat.
Proof. unfold occ. by rewrite List.filter_app, length_app. Qed.

Lemma occ_cons p q l : occ p (q :: l) = ((if Nat.eqb p q then 1 else 0) + occ p l)%nat.
Proof. unfold occ. cbn. by destruct (Nat.eqb p q). Qed.

Lemma occ_notin p l : p ∉ l -> occ p l = 0%nat.
Proof.
  induction l as [|q l IH]; [done|]. rewrite occ_cons, not_elem_of_cons.
  intros [Hne Hnin]. rewrite (IH Hnin). by destruct (Nat.eqb_spec p q).
Qed.

Lemma occ_pos_elem p l : (0 < occ p l)%nat -> p ∈ l.
Proof.
  intros Hpos. destruct (decide (p ∈ l)) as [|Hnin]; [done|].
  rewrite (occ_notin p l Hnin) in Hpos. lia.
Qed.

Lemma occ_NoDup p l : NoDup l -> (occ p l <= 1)%nat.
Proof.
  induction 1 as [|q l Hnin _ IH]; [unfold occ; cbn; lia|].
  rewrite occ_cons. destruct (Nat.eqb_spec p q) as [->|]; [|lia].
  rewrite (occ_notin q l Hnin). lia.
Qed.

Lemma chain_sum_insert p t s (m : gmap nat PyThreadState) :
  (chain_sum p (<[t := s]> m) + occ p (slot_chain (default no_trace (m !! t))) =
   chain_sum p m + occ p (slot_chain s))%nat.
Proof.
  unfold chain_sum.
  assert (forall (m' : gmap nat PyThreadState) (j1 j2 : nat) (z1 z2 : PyThreadState) (y : nat),
            j1 <> j2 -> m' !! j1 = Some z1 -> m' !! j2 = Some z2 ->
            (occ p (slot_chain z1) + (occ p (slot_chain z2) + y) =
             occ p (slot_chain z2) + (occ p (slot_chain z1) + y))%nat) as Hcomm
    by (intros; lia).
  destruct (m !! t) as [s0|] eqn:Ht; cbn.
  - rewrite (map_fold_delete_L _ _ t s0 m (Hcomm m) Ht).
    rewrite <- (insert_delete_eq m t s).
    rewrite map_fold_insert_L; [lia|apply Hcomm|apply lookup_delete_eq].
  - rewrite map_fold_insert_L; [unfold occ; cbn; lia|apply Hcomm|done].
Qed.

Lemma caps_SetTrace p t f o w :
  (caps p (PyEval_SetTrace t f o w) + occ p (slot_chain (tstate w t)) =
   caps p w + occ p (slot_chain (mkTState f o)))%nat.
Proof. unfold caps, PyEval_SetTrace, tstate. cbn. apply chain_sum_insert. Qed.

Lemma slot_chain_capsule q tf tobj f :
  slot_chain (mkTState f (Some (PyCapsule q tf tobj))) = q :: slot_chain (mkTState tf tobj).
Proof. by destruct tobj. Qed.

Lemma FastCall_eq ok v w :
  FastCall ok v w =
  if IsValid (deref w v) && ok then set_pending (pendingcalls w ++ [v]) w else w.
Proof.
  unfold FastCall, Py_AddPendingCall. by destruct (IsValid (deref w v)), ok.
Qed.

(** [Attach] on [v] creates at most one token, and only for [v]. *)
Lemma Attach_tokens addOk v w p :
  (pend p (Attach addOk v w) + caps p (Attach addOk v w) <=
   pend p w + caps p w + (if Nat.eqb p v then 1 else 0))%nat /\
  callbacks p (Attach addOk v w) = callbacks p w /\
  attaches p (Attach addOk v w) = attaches p w.
Proof.
  destruct (Attach_frame addOk v w) as (_ & _ & _ & Hl & _).
  split; [|by unfold callbacks, attaches; rewrite Hl].
  unfold Attach. destruct (IsMainThreadInjector (deref w v)).
  - rewrite FastCall_eq.
    destruct (IsValid (deref w v) && addOk v); [|destruct (Nat.eqb p v); lia].
    unfold pend, caps. cbn [pendingcalls tstates set_pending].
    rewrite occ_app, occ_cons. change (occ p []) with 0%nat.
    destruct (Nat.eqb p v); lia.
  - unfold Call. destruct (IsValid (deref w v)); cbn [negb];
      [|destruct (Nat.eqb p v); lia].
    pose proof (caps_SetTrace p (m_State (m_ThState (deref w v))) (Some OnTrace_fn)
                  (Some (PyCapsule v
                           (c_tracefunc (tstate w (m_State (m_ThState (deref w v)))))
                           (c_traceobj (tstate w (m_State (m_ThState (deref w v)))))))
                  w) as Hc.
    rewrite slot_chain_capsule, occ_cons in Hc.
    assert (mkTState (c_tracefunc (tstate w (m_State (m_ThState (deref w v)))))
                     (c_traceobj (tstate w (m_State (m_ThState (deref w v)))))
            = tstate w (m_State (m_ThState (deref w v)))) as Heta
      by (by destruct (tstate w _)).
    rewrite Heta in Hc.
    unfold pend in *. cbn [pendingcalls PyEval_SetTrace set_tstates].
    destruct (Nat.eqb p v); lia.
Qed.

Lemma tokens_emit_attach p v w :
  tokens p (emit (EvAttach v) w) = tokens p w /\
  attaches p (emit (EvAttach v) w) = (attaches p w + (if Nat.eqb p v then 1 else 0))%nat.
Proof.
  unfold tokens, callbacks, attaches, pend, caps.
  cbn [log emit pendingcalls tstates]. rewrite !count_app.
  unfold count. cbn. destruct (Nat.eqb p v); cbn; lia.
Qed.

Lemma tokens_erase_entry p k w :
  tokens p (erase_entry k w) = tokens p w /\ attaches p (erase_entry k w) = attaches p w.
Proof.
  unfold tokens, callbacks, attaches, pend, caps, erase_entry.
  cbn [log emit set_helper pendingcalls tstates]. rewrite !count_app.
  unfold count. cbn. lia.
Qed.

Lemma scan_loop_tokens clk addOk p its :
  forall minSpan w,
    (tokens p (scan_loop clk addOk its minSpan w).2 + attaches p w <=
     tokens p w + attaches p (scan_loop clk addOk its minSpan w).2)%nat.
Proof.
  induction its as [|[k v] rest IH]; intros minSpan w; cbn [scan_loop]; [cbn; lia|].
  destruct (_ >? _).
  - specialize (IH minSpan (erase_entry k (Attach addOk v (emit (EvAttach v) w)))).
    destruct (tokens_erase_entry p k (Attach addOk v (emit (EvAttach v) w))) as [Ht He].
    destruct (Attach_tokens addOk v (emit (EvAttach v) w) p) as (Ha1 & Ha2 & Ha3).
    destruct (tokens_emit_attach p v w) as [Hm1 Hm2].
    rewrite Ht, He in IH. unfold tokens in *. destruct (Nat.eqb p v); lia.
  - destruct (m_IsQuit (helper w)); [cbn; lia|apply IH].
Qed.

Lemma measures_same p w w' :
  log w' = log w -> pendingcalls w' = pendingcalls w -> tstates w' = tstates w ->
  tokens p w' = tokens p w /\ attaches p w' = attaches p w /\ starts p w' = starts p w.
Proof.
  unfold tokens, callbacks, attaches, starts, pend, caps. by intros -> -> ->.
Qed.

Lemma measures_start p q w w' :
  log w' = log w ++ [EvStart q] -> pendingcalls w' = pendingcalls w ->
  tstates w' = tstates w ->
  tokens p w' = tokens p w /\ attaches p w' = attaches p w /\
  starts p w' = (starts p w + (if Nat.eqb p q then 1 else 0))%nat.
Proof.
  unfold tokens, callbacks, attaches, starts, pend, caps. intros -> -> ->.
  rewrite !count_app. unfold count. cbn. destruct (Nat.eqb p q); cbn; lia.
Qed.

Lemma cycle_vs_scan clk addOk w :
  pendingcalls (cycle clk addOk w) = pendingcalls (scan clk addOk w).2 /\
  tstates (cycle clk addOk w) = tstates (scan clk addOk w).2 /\
  exists evs, log (cycle clk addOk w) = log (scan clk addOk w).2 ++ evs /\
              (evs = [] \/ evs = [EvSleep 1]).
Proof.
  unfold cycle, after_merge. destruct (scan clk addOk w) as [ms w1]. cbn [snd].
  destruct (sleep_wanted _ _ _); case_bool_decide; cbn;
    (split; [done|split; [done|]]).
  - exists [EvSleep 1]. split; [done|by right].
  - exists [EvSleep 1]. split; [done|by right].
  - exists []. split; [by rewrite app_nil_r|by left].
  - exists []. split; [by rewrite app_nil_r|by left].
Qed.

Lemma cycle_tokens clk addOk w p :
  (tokens p (cycle clk addOk w) + attaches p w <=
   tokens p w + attaches p (cycle clk addOk w))%nat /\
  starts p (cycle clk addOk w) = starts p w.
Proof.
  destruct (cycle_vs_scan clk addOk w) as (Hp & Ht & evs & Hl & Hevs).
  pose proof (scan_loop_tokens clk addOk p (map_to_list (m_CallMap (helper w)))
                LLONG_MAX w) as Hscan.
  fold (scan clk addOk w) in Hscan.
  destruct (scan_spec clk addOk w) as (_ & Hsl & _).
  assert (count (is_callback p) evs = 0%nat /\ count (is_attach p) evs = 0%nat /\
          count (is_start p) evs = 0%nat) as (Hc1 & Hc2 & Hc3)
    by (by destruct Hevs as [->| ->]).
  split.
  - unfold tokens, callbacks, attaches, pend, caps in *. rewrite Hp, Ht, Hl, !count_app. lia.
  - unfold starts. rewrite Hl, Hsl, !count_app, Hc3.
    rewrite count_scan_events_start. lia.
Qed.

Lemma callback_events_count p q (cb : option callable) (valid : bool) (a : option PyObject) :
  (count (is_callback p)
     match cb with
     | Some f => if valid then [EvCallback q f a] else []
     | None => []
     end <= if Nat.eqb p q then 1 else 0)%nat /\
  count (is_attach p)
     match cb with
     | Some f => if valid then [EvCallback q f a] else []
     | None => []
     end = 0%nat /\
  count (is_start p)
     match cb with
     | Some f => if valid then [EvCallback q f a] else []
     | None => []
     end = 0%nat.
Proof.
  destruct cb, valid; unfold count; cbn; destruct (Nat.eqb p q); cbn; lia.
Qed.

Lemma slot_chain_of_capsule s q tf tobj :
  c_traceobj s = Some (PyCapsule q tf tobj) ->
  slot_chain s = q :: slot_chain (mkTState tf tobj).
Proof. unfold slot_chain. intros ->. by destruct tobj. Qed.

(** A step never creates more tokens for [p] than it records dispatches of
    [p]. *)
Lemma step_tokens l w w' p :
  step l w = Some w' ->
  (tokens p w' + attaches p w <= tokens p w + attaches p w')%nat.
Proof.
  destruct l as [h time cb th|h now|h|h now th|h|clk addOk|ok|t ok|t f o|]; cbn;
    intros Hs.
  - unfold InitPyInjector in Hs. cbn in Hs.
    injection Hs as <-.
    destruct (measures_same p w (set_handles (<[h:=fresh_ptr w]> (handles w))
       (set_heap (<[fresh_ptr w:=SetDuration (time `mod` 2 ^ 32)
           (set_callback (Some cb) (CLocalInjector_new w th))]> (heap w)) w)))
      as (-> & -> & _); done.
  - unfold InjectorStart in Hs. destruct (handles w !! h) as [q|]; [|done]. cbn in Hs.
    injection Hs as <-.
    destruct (measures_start p q w (Start q (update q (RecordStartTime now) w)))
      as (-> & -> & _); done.
  - unfold InjectorStop in Hs. destruct (handles w !! h) as [q|]; [|done]. cbn in Hs.
    injection Hs as <-.
    destruct (measures_same p w (Stop q w)) as (-> & -> & _); done.
  - unfold InjectorReset in Hs. destruct (handles w !! h) as [q|]; [|done]. cbn in Hs.
    destruct (m_Callback (deref w q)) as [f|]; [|done]. cbn in Hs.
    injection Hs as <-.
    match goal with |- context [Start ?x ?y] =>
      destruct (measures_start p x w (Start x y)) as (-> & -> & _); done end.
  - unfold DeallocPyInjector in Hs. destruct (handles w !! h) as [q|];
      injection Hs as <-; [|lia].
    match goal with |- context [tokens p ?y] =>
      destruct (measures_same p w y) as (-> & -> & _); done end.
  - unfold CheckThread_iteration in Hs. destruct (m_CheckTh (helper w)); try done.
    injection Hs as <-.
    destruct (cycle_tokens clk addOk w p) as [Hc _].
    match goal with |- context [tokens p ?y] =>
      destruct (measures_same p (cycle clk addOk w) y) as (-> & -> & _); done end.
  - unfold run_pending in Hs. destruct (pendingcalls w) as [|q qs] eqn:Hq; [done|].
    injection Hs as <-.
    destruct (OnFastTrace_frame ok q (set_pending qs w)) as (_ & _ & _ & Hp & Ht & Hl).
    cbn zeta in Hp, Ht, Hl.
    destruct (callback_events_count p q (m_Callback (deref (set_pending qs w) q))
                (IsValid (deref (set_pending qs w) q))
                (Some (TimePointToPyFloat (m_StartTime (deref (set_pending qs w) q)))))
      as (Hc1 & Hc2 & _).
    unfold tokens, callbacks, attaches, pend, caps. rewrite Hp, Ht, Hl, !count_app, Hc2.
    cbn [pendingcalls tstates log set_pending]. rewrite Hq, occ_cons.
    destruct (Nat.eqb p q); lia.
  - unfold trace_event in Hs. destruct (c_tracefunc (tstate w t)) as [[|n]|];
      [|injection Hs as <-; lia..].
    destruct (OnTrace t ok w) as [r|] eqn:Hr; [|done]. cbn in Hs. injection Hs as <-.
    destruct (OnTrace_frame _ _ _ _ Hr) as (q & tf & tobj & Hcap & _ & _ & _ & Hp & Ht & Hl).
    destruct (callback_events_count p q (m_Callback (deref w q)) (IsValid (deref w q)) None)
      as (Hc1 & Hc2 & _).
    pose proof (chain_sum_insert p t (mkTState tf tobj) (tstates w)) as Hsum.
    fold (tstate w t) in Hsum.
    rewrite (slot_chain_of_capsule _ _ _ _ Hcap), occ_cons in Hsum.
    unfold tokens, callbacks, attaches, pend, caps. rewrite Hp, Ht, Hl, !count_app, Hc2.
    destruct (Nat.eqb p q); lia.
  - injection Hs as <-.
    pose proof (caps_SetTrace p t (ForeignTrace <$> f) (PyOther <$> o) w) as Hsum.
    assert (occ p (slot_chain (mkTState (ForeignTrace <$> f) (PyOther <$> o))) = 0%nat)
      as Hz by (by destruct o).
    unfold tokens, callbacks, attaches, pend in *.
    cbn [log pendingcalls PyEval_SetTrace set_tstates]. lia.
  - injection Hs as <-.
    destruct (measures_same p w (Shutdown w)) as (-> & -> & _); done.
Qed.

(** ** Registrations against dispatches *)

Lemma occ_elem p l : p ∈ l -> (1 <= occ p l)%nat.
Proof.
  induction 1 as [q l|q q' l _ IH]; rewrite occ_cons.
  - rewrite Nat.eqb_refl. lia.
  - lia.
Qed.

Lemma count_attach_is_occ p ds : count (is_attach p) (scan_events ds) = occ p ds.*2.
Proof.
  induction ds as [|[k v] ds IH]; [done|]. cbn [fmap list_fmap snd]. rewrite occ_cons, <- IH.
  unfold count. cbn. by destruct (Nat.eqb p v).
Qed.

Lemma dispatched_NoDup clk quit h its :
  NoDup its.*1 -> NoDup (dispatched clk quit h its).*1.
Proof.
  induction its as [|kv rest IH]; cbn; [done|].
  intros [Hnin Hnd]%NoDup_cons. destruct (expired clk h kv).
  - cbn. apply NoDup_cons. split; [|by apply IH].
    intros (kv' & Hk & Hin)%list_elem_of_fmap. apply dispatched_elem in Hin as [Hin _].
    apply Hnin. apply list_elem_of_fmap. by exists kv'.
  - destruct quit; [constructor|by apply IH].
Qed.

Lemma scan_dispatched_wf clk w :
  keys_are_values (m_CallMap (helper w)) ->
  (scan_dispatched clk w).*2 = (scan_dispatched clk w).*1 /\
  NoDup (scan_dispatched clk w).*1 /\
  (forall p, p ∈ (scan_dispatched clk w).*1 -> m_CallMap (helper w) !! p = Some p).
Proof.
  intros Hwf. unfold scan_dispatched.
  assert (forall kv, kv ∈ dispatched clk (m_IsQuit (helper w)) (heap w)
                          (map_to_list (m_CallMap (helper w))) ->
                     m_CallMap (helper w) !! kv.1 = Some kv.2 /\ kv.1 = kv.2) as Hall.
  { intros [k v] [Hin _]%dispatched_elem. apply elem_of_map_to_list in Hin.
    split; [done|]. exact (Hwf k v Hin). }
  split; [|split].
  - induction (dispatched _ _ _ _) as [|kv ds IH]; [done|]. cbn.
    rewrite IH by (intros kv' Hin; apply Hall; by right).
    f_equal. symmetry. apply Hall. left.
  - apply dispatched_NoDup, NoDup_fst_map_to_list.
  - intros p ([k v] & -> & Hin)%list_elem_of_fmap.
    destruct (Hall _ Hin) as [Hl Heq]. cbn in *. by subst v.
Qed.

Lemma cycle_registry clk addOk w p :
  keys_are_values (m_CallMap (helper w)) ->
  (attaches p (cycle clk addOk w) + inmap p (cycle clk addOk w) + innew p (cycle clk addOk w)
   <= attaches p w + inmap p w + innew p w)%nat.
Proof.
  intros Hwf. destruct (scan_dispatched_wf clk w Hwf) as (Heq & Hnd & Hin).
  pose proof (occ_NoDup p _ Hnd) as Hle.
  assert (attaches p (cycle clk addOk w) =
          (attaches p w + occ p (scan_dispatched clk w).*1)%nat) as ->.
  { unfold attaches. rewrite cycle_log, !count_app, count_attach_is_occ, Heq.
    destruct (sleep_wanted _ _ _); unfold count; cbn; lia. }
  unfold inmap, innew. rewrite cycle_helper. cbn [m_CallMap m_NewVect].
  change (occ p []) with 0%nat.
  rewrite apply_adds_lookup.
  destruct (bool_decide (p ∈ m_NewVect (helper w)) && IsValid (deref w p)) eqn:Hadd.
  - apply andb_prop in Hadd as [Hn%bool_decide_eq_true _].
    pose proof (occ_elem p _ Hn) as Hone.
    destruct (decide (p ∈ (scan_dispatched clk w).*1)) as [Hd|Hd].
    + rewrite (Hin p Hd). lia.
    + rewrite (occ_notin p _ Hd). lia.
  - rewrite apply_removals_lookup.
    destruct (decide (p ∈ (scan_dispatched clk w).*1)) as [Hd|Hd].
    + rewrite (Hin p Hd). destruct (bool_decide (p ∈ m_DelVect (helper w))); [lia|].
      rewrite apply_removals_lookup, bool_decide_eq_true_2 by done. lia.
    + rewrite (occ_notin p _ Hd).
      destruct (bool_decide (p ∈ m_DelVect (helper w))); [destruct (_ !! p); lia|].
      rewrite apply_removals_lookup, bool_decide_eq_false_2 by done.
      destruct (_ !! p); lia.
Qed.

Lemma helper_Start_registry q c p :
  keys_are_values (m_CallMap c) ->
  keys_are_values (m_CallMap (helper_Start q c)) /\
  (match m_CallMap (helper_Start q c) !! p with Some _ => 1 | None => 0 end
   + occ p (m_NewVect (helper_Start q c))
   <= match m_CallMap c !! p with Some _ => 1 | None => 0 end + occ p (m_NewVect c)
      + (if Nat.eqb p q then 1 else 0))%nat.
Proof.
  intros Hwf. destruct (helper_Start_fields q c) as (-> & -> & _).
  destruct (m_Running c).
  - split; [done|]. rewrite occ_app, occ_cons. change (occ p []) with 0%nat.
    destruct (Nat.eqb p q); lia.
  - split.
    + intros k v. rewrite lookup_insert. case_decide; [by intros [= <-]|apply Hwf].
    + rewrite lookup_insert. destruct (Nat.eqb_spec p q) as [->|Hne].
      * rewrite decide_True by done. destruct (m_CallMap c !! q); lia.
      * rewrite decide_False by done. lia.
Qed.

Lemma helper_Stop_registry q c p :
  keys_are_values (m_CallMap c) ->
  keys_are_values (m_CallMap (helper_Stop q c)) /\
  (match m_CallMap (helper_Stop q c) !! p with Some _ => 1 | None => 0 end
   <= match m_CallMap c !! p with Some _ => 1 | None => 0 end)%nat /\
  m_NewVect (helper_Stop q c) = m_NewVect c.
Proof.
  intros Hwf. unfold helper_Stop.
  destruct (m_CallMap c !! q) eqn:Hq; [|done]. destruct (m_Running c); cbn; [done|].
  split; [|split; [|done]].
  - intros k v. rewrite lookup_delete. case_decide; [done|apply Hwf].
  - rewrite lookup_delete. case_decide; [destruct (_ !! p); lia|done].
Qed.

Lemma loop_exit_fields c :
  m_CallMap (loop_exit c) = m_CallMap c /\ m_NewVect (loop_exit c) = m_NewVect c.
Proof. unfold loop_exit. by destruct (m_Running c), (m_IsQuit c). Qed.

Lemma Shutdown_fields w :
  m_CallMap (helper (Shutdown w)) = m_CallMap (helper w) /\
  m_NewVect (helper (Shutdown w)) = m_NewVect (helper w).
Proof. unfold Shutdown, notify. cbn. by destruct (m_CheckTh (helper w)). Qed.

Lemma log_same p w w' :
  log w' = log w -> attaches p w' = attaches p w /\ starts p w' = starts p w.
Proof. unfold attaches, starts. by intros ->. Qed.

Lemma registry_same p w w' :
  helper w' = helper w -> inmap p w' = inmap p w /\ innew p w' = innew p w.
Proof. unfold inmap, innew. by intros ->. Qed.

(** A step never records more dispatches of [p] than it uses up
    registrations of [p]; registrations only come from [Start]. *)
Lemma step_registry l w w' p :
  step l w = Some w' ->
  keys_are_values (m_CallMap (helper w)) ->
  keys_are_values (m_CallMap (helper w')) /\
  (attaches p w' + inmap p w' + innew p w' + starts p w <=
   attaches p w + inmap p w + innew p w + starts p w')%nat.
Proof.
  destruct l as [h time cb th|h now|h|h now th|h|clk addOk|ok|t ok|t f o|]; cbn;
    intros Hs Hwf.
  - unfold InitPyInjector in Hs. cbn in Hs.
    injection Hs as <-. split; [done|].
    match goal with |- context [attaches p ?y] =>
      destruct (measures_same p w y) as (_ & -> & ->); [done..|];
      destruct (registry_same p w y) as (-> & ->); [done|lia] end.
  - unfold InjectorStart in Hs. destruct (handles w !! h) as [q|]; [|done]. cbn in Hs.
    injection Hs as <-.
    destruct (helper_Start_registry q (helper w) p Hwf) as [Hwf' Hle].
    split; [done|].
    destruct (measures_start p q w (Start q (update q (RecordStartTime now) w)))
      as (_ & -> & ->); [done..|].
    unfold inmap, innew in *. cbn [helper Start emit set_helper update set_heap] in *.
    destruct (Nat.eqb p q); lia.
  - unfold InjectorStop in Hs. destruct (handles w !! h) as [q|]; [|done]. cbn in Hs.
    injection Hs as <-.
    destruct (helper_Stop_registry q (helper w) p Hwf) as (Hwf' & Hle & Hn).
    split; [done|].
    destruct (measures_same p w (Stop q w)) as (_ & -> & ->); [done..|].
    unfold inmap, innew in *. cbn [helper Stop set_helper update set_heap] in *.
    rewrite Hn. lia.
  - unfold InjectorReset in Hs. destruct (handles w !! h) as [q|]; [|done]. cbn in Hs.
    destruct (m_Callback (deref w q)) as [f|]; [|done]. cbn in Hs.
    injection Hs as <-.
    set (q' := fresh_ptr (update q Release w)).
    destruct (helper_Start_registry q' (helper w) p Hwf) as [Hwf' Hle].
    split; [done|].
    match goal with |- context [attaches p (Start q' ?y)] =>
      destruct (measures_start p q' w (Start q' y)) as (_ & -> & ->); [done..|] end.
    unfold inmap, innew in *.
    cbn [helper Start emit set_helper update set_heap set_handles] in *.
    destruct (Nat.eqb p q'); lia.
  - unfold DeallocPyInjector in Hs. destruct (handles w !! h) as [q|];
      injection Hs as <-; (split; [done|]); [|lia].
    match goal with |- context [attaches p ?y] =>
      destruct (measures_same p w y) as (_ & -> & ->); [done..|];
      destruct (registry_same p w y) as (-> & ->); [done|lia] end.
  - unfold CheckThread_iteration in Hs. destruct (m_CheckTh (helper w)); try done.
    injection Hs as <-.
    pose proof (cycle_wf clk addOk w Hwf) as Hwf'.
    pose proof (cycle_registry clk addOk w p Hwf) as Hle.
    destruct (cycle_tokens clk addOk w p) as [_ Hst].
    destruct (loop_exit_fields (helper (cycle clk addOk w))) as [Hm Hn].
    split.
    + cbn [helper set_helper]. by rewrite Hm.
    + match goal with |- context [attaches p ?y] =>
        destruct (measures_same p (cycle clk addOk w) y) as (_ & -> & ->); [done..|];
        assert (inmap p y = inmap p (cycle clk addOk w) /\
                innew p y = innew p (cycle clk addOk w)) as (-> & ->) end.
      { unfold inmap, innew. cbn [helper set_helper]. by rewrite Hm, Hn. }
      rewrite Hst. lia.
  - unfold run_pending in Hs. destruct (pendingcalls w) as [|q qs] eqn:Hq; [done|].
    injection Hs as <-.
    destruct (OnFastTrace_frame ok q (set_pending qs w)) as (_ & _ & Hc & _ & _ & Hl).
    cbn zeta in Hc, Hl.
    destruct (callback_events_count p q (m_Callback (deref (set_pending qs w) q))
                (IsValid (deref (set_pending qs w) q))
                (Some (TimePointToPyFloat (m_StartTime (deref (set_pending qs w) q)))))
      as (_ & Hc2 & Hc3).
    split; [by rewrite Hc|].
    unfold attaches, starts, inmap, innew. rewrite Hc, Hl, !count_app, Hc2, Hc3.
    cbn [helper log set_pending]. lia.
  - unfold trace_event in Hs. destruct (c_tracefunc (tstate w t)) as [[|n]|];
      [|injection Hs as <-; (split; [done|lia])..].
    destruct (OnTrace t ok w) as [r|] eqn:Hr; [|done]. cbn in Hs. injection Hs as <-.
    destruct (OnTrace_frame _ _ _ _ Hr) as (q & tf & tobj & _ & _ & _ & Hc & _ & _ & Hl).
    destruct (callback_events_count p q (m_Callback (deref w q)) (IsValid (deref w q)) None)
      as (_ & Hc2 & Hc3).
    split; [by rewrite Hc|].
    unfold attaches, starts, inmap, innew. rewrite Hc, Hl, !count_app, Hc2, Hc3. lia.
  - injection Hs as <-. split; [done|].
    match goal with |- context [attaches p ?y] =>
      destruct (log_same p w y) as (-> & ->); [done|];
      destruct (registry_same p w y) as (-> & ->); [done|lia] end.
  - injection Hs as <-. destruct (Shutdown_fields w) as [Hm Hn]. split.
    + by rewrite Hm.
    + destruct (measures_same p w (Shutdown w)) as (_ & -> & ->); [done..|].
      unfold inmap, innew. rewrite Hm, Hn. lia.
Qed.

(** ** At most one delivery per registration *)

Lemma run_counts ls :
  forall w w' p,
    run ls w = Some w' ->
    keys_are_values (m_CallMap (helper w)) ->
    keys_are_values (m_CallMap (helper w')) /\
    (tokens p w' + attaches p w <= tokens p w + attaches p w')%nat /\
    (attaches p w' + inmap p w' + innew p w' + starts p w <=
     attaches p w + inmap p w + innew p w + starts p w')%nat.
Proof.
  induction ls as [|l ls IH]; intros w w' p Hrun Hwf; cbn in Hrun.
  - injection Hrun as <-. split; [done|lia].
  - destruct (step l w) as [w1|] eqn:Hs; [|done]. cbn in Hrun.
    destruct (step_registry l w w1 p Hs Hwf) as [Hwf1 Hr1].
    pose proof (step_tokens l w w1 p Hs) as Ht1.
    destruct (IH w1 w' p Hrun Hwf1) as (Hwf' & Ht & Hr).
    split; [done|lia].
Qed.

Lemma initial_counts main p :
  keys_are_values (m_CallMap (helper (initial main))) /\
  tokens p (initial main) = 0%nat /\ attaches p (initial main) = 0%nat /\
  inmap p (initial main) = 0%nat /\ innew p (initial main) = 0%nat /\
  starts p (initial main) = 0%nat.
Proof.
  split; [apply map_Forall_empty|].
  unfold tokens, caps, chain_sum, inmap. cbn. by rewrite map_fold_empty.
Qed.

(** C1 (amended). In every execution from the initial state, the callback
    of an entry has been invoked at most as many times as the entry has
    been dispatched, and dispatched at most as many times as it has been
    registered by [Start] (directly or through [Reset]).  A scan hands an
    expired entry to [Attach] while it is still in the active map and
    erases it right after, in the same turn of the loop: the events of a
    scan are pairs dispatch-then-erase, and every dispatched entry is
    absent from the active map when the scan ends. *)
Theorem at_most_once_per_start (main : tid) (ls : list label) (w : World) (p : ptr) :
  run ls (initial main) = Some w ->
  (callbacks p w <= attaches p w)%nat /\
  (attaches p w <= starts p w)%nat /\
  forall clk addOk,
    log (scan clk addOk w).2 =
      log w ++ flat_map (fun kv : ptr * ptr => [EvAttach kv.2; EvErase kv.1])
                 (scan_dispatched clk w) /\
    forall kv, kv ∈ scan_dispatched clk w ->
               kv.1 = kv.2 /\
               m_CallMap (helper w) !! kv.1 = Some kv.2 /\
               m_CallMap (helper (scan clk addOk w).2) !! kv.1 = None.
Proof.
  intros Hrun.
  destruct (initial_counts main p) as (Hwf0 & Ht0 & Ha0 & Hm0 & Hn0 & Hs0).
  destruct (run_counts ls _ _ p Hrun Hwf0) as (Hwf & Ht & Hr).
  split; [unfold tokens in *; lia|]. split; [lia|].
  intros clk addOk. destruct (scan_spec clk addOk w) as (_ & Hl & Hc & _).
  split; [exact Hl|].
  intros [k v] Hin. cbn [fst snd].
  pose proof Hin as [Hmap _]%dispatched_elem. apply elem_of_map_to_list in Hmap.
  pose proof (Hwf k v Hmap) as Hkv. cbn in Hkv.
  split; [done|]. split; [done|].
  rewrite Hc. cbn [m_CallMap set_callmap].
  rewrite erase_dispatched_is_removals, apply_removals_lookup.
  rewrite bool_decide_eq_true_2; [done|].
  apply list_elem_of_fmap. by exists (k, v).
Qed.

Lemma at_most_once_per_start_witness :
  let w := default (initial 0%nat) (run run_one_timer (initial 0%nat)) in
  (callbacks 0%nat w <= attaches 0%nat w)%nat /\
  (attaches 0%nat w <= starts 0%nat w)%nat /\
  forall clk addOk,
    log (scan clk addOk w).2 =
      log w ++ flat_map (fun kv : ptr * ptr => [EvAttach kv.2; EvErase kv.1])
                 (scan_dispatched clk w) /\
    forall kv, kv ∈ scan_dispatched clk w ->
               kv.1 = kv.2 /\
               m_CallMap (helper w) !! kv.1 = Some kv.2 /\
               m_CallMap (helper (scan clk addOk w).2) !! kv.1 = None.
Proof.
  apply (at_most_once_per_start 0%nat run_one_timer).
  vm_compute. reflexivity.
Defined.

(** In that execution the callback ran exactly once. *)
Example one_timer_fires_once :
  callbacks 0%nat (default (initial 0%nat) (run run_one_timer (initial 0%nat))) = 1%nat.
Proof. vm_compute. reflexivity. Qed.

(** C1, as stated, fails: the scan does not erase the entry before it
    dispatches it.  With one expired entry in the active map, the world on
    which [Attach] has run (its request is queued) still has the entry in
    the active map; the scan erases it afterwards, so in the log the
    dispatch comes first and the erase does not precede it. *)
Lemma dispatch_precedes_erase :
  let w := world_one_entry 50 in
  let clk := clock_at 60000000 in
  let addOk := fun _ : ptr => true in
  let attached := Attach addOk 0%nat (emit (EvAttach 0%nat) w) in
  scan clk addOk w = (LLONG_MAX, erase_entry 0%nat attached) /\
  pendingcalls attached = [0%nat] /\
  m_CallMap (helper attached) !! 0%nat = Some 0%nat /\
  log (scan clk addOk w).2 = log w ++ [EvAttach 0%nat; EvErase 0%nat] /\
  ~ precedes (EvErase 0%nat) (EvAttach 0%nat) [EvAttach 0%nat; EvErase 0%nat].
Proof.
  cbn zeta. split; [by vm_compute|]. split; [by vm_compute|]. split; [by vm_compute|].
  split; [by vm_compute|].
  intros (l1 & l2 & l3 & Heq).
  destruct l1 as [|a [|b l1]]; cbn in Heq.
  - discriminate.
  - injection Heq as _ Heq. by destruct l2.
  - injection Heq as _ _ Heq. by destruct l1.
Qed.

(** ** A stopped entry stays out of the active map *)











(** * Further properties of the source *)

(** ** [CInjectorQueue] *)

Lemma push_all (q xs : list (option nat)) :
  foldl (fun q x => Queue_Push x q) q xs = q ++ xs.
Proof.
  revert q. induction xs as [|x xs IH]; intros q; cbn; [by rewrite app_nil_r|].
  rewrite IH. unfold Queue_Push. by rewrite <- app_assoc.
Qed.

Lemma pop_all (l : list (option nat)) (n : nat) :
  Queue_PopN (length l + n) l = (l ++ replicate n None, []).
Proof.
  induction l as [|x l IH]; cbn.
  - induction n as [|n IHn]; cbn; [done|]. by rewrite IHn.
  - by rewrite IH.
Qed.

(** X1. The queue is first in, first out: after pushing [xs] onto a queue
    [q], popping returns the elements of [q], then those of [xs], in the
    order they were pushed, and from then on [nullptr] with the queue left
    empty. *)
Theorem Queue_is_fifo (q xs : list (option nat)) (n : nat) :
  Queue_PopN (length q + length xs + n) (foldl (fun q x => Queue_Push x q) q xs)
  = (q ++ xs ++ replicate n None, []) /\
  Queue_Empty (Queue_PopN (length q + length xs + n)
                 (foldl (fun q x => Queue_Push x q) q xs)).2 = true.
Proof.
  rewrite push_all, <- length_app, pop_all, <- app_assoc. done.
Qed.

(** ** [CAttacher] without threads *)

Lemma Handle_loop_drains q :
  forall fuel w, (length q <= fuel)%nat -> Handle_loop fuel q w = ([], call_all q w).
Proof.
  induction q as [|x q IH]; intros fuel w Hle.
  - by destruct fuel.
  - destruct fuel as [|fuel]; [cbn in Hle; lia|]. cbn in Hle.
    cbn [Handle_loop Queue_Empty Queue_Pop]. destruct x as [i|]; apply IH; lia.
Qed.

Lemma Handle_drains s :
  Handle s = mkSingle (mkAttacher [] (m_Appended (attacher s))) (oncall_pending s)
               (call_all (m_Queue (attacher s)) (world s)).
Proof. unfold Handle. by rewrite Handle_loop_drains. Qed.

Lemma Call_frame i w :
  heap (Call i w) = heap w /\ helper (Call i w) = helper w /\ log (Call i w) = log w /\
  pendingcalls (Call i w) = pendingcalls w.
Proof. unfold Call. by destruct (IsValid (deref w i)). Qed.

Lemma Call_caps i w p :
  caps p (Call i w) =
  (caps p w + (if IsValid (deref w i) && Nat.eqb p i then 1 else 0))%nat.
Proof.
  unfold Call. destruct (IsValid (deref w i)); cbn [negb andb]; [|lia].
  pose proof (caps_SetTrace p (m_State (m_ThState (deref w i))) (Some OnTrace_fn)
                (Some (PyCapsule i
                         (c_tracefunc (tstate w (m_State (m_ThState (deref w i)))))
                         (c_traceobj (tstate w (m_State (m_ThState (deref w i)))))))
                w) as Hc.
  rewrite slot_chain_capsule, occ_cons in Hc.
  assert (mkTState (c_tracefunc (tstate w (m_State (m_ThState (deref w i)))))
                   (c_traceobj (tstate w (m_State (m_ThState (deref w i)))))
          = tstate w (m_State (m_ThState (deref w i)))) as Heta
    by (by destruct (tstate w _)).
  rewrite Heta in Hc. destruct (Nat.eqb p i); lia.
Qed.

Lemma call_all_spec q :
  forall w p,
    heap (call_all q w) = heap w /\ log (call_all q w) = log w /\
    caps p (call_all q w) =
      (caps p w + (if IsValid (deref w p) then occ p (omap id q) else 0))%nat.
Proof.
  induction q as [|x q IH]; intros w p.
  - cbn. split; [done|]. split; [done|]. destruct (IsValid (deref w p)); unfold occ; cbn; lia.
  - unfold call_all in *. cbn [foldl]. destruct x as [i|].
    + destruct (IH (Call i w) p) as (Hh & Hl & Hc).
      destruct (Call_frame i w) as (Hh' & _ & Hl' & _).
      split; [by rewrite Hh|]. split; [by rewrite Hl|].
      rewrite Hc, Call_caps, (deref_heap (Call i w) w p Hh').
      assert (omap id (Some i :: q) = i :: omap id q) as -> by done.
      rewrite occ_cons.
      destruct (Nat.eqb_spec p i) as [->|Hne].
      * destruct (IsValid (deref w i)); cbn; lia.
      * rewrite andb_false_r. destruct (IsValid (deref w p)); lia.
    + apply (IH w p).
Qed.

(** X2. [OnCall] returns 0 with the queue empty and [m_Appended] cleared; it
    leaves heap and log alone and turns every queued request into exactly
    one hook: the hooks waiting for an injector grow by the number of times
    it was queued if it is valid, and not at all if it has been released
    (null entries are skipped). *)
Theorem OnCall_drains_the_queue (s : Single) (p : ptr) :
  (OnCall s).1 = 0 /\
  m_Queue (attacher (OnCall s).2) = [] /\
  m_Appended (attacher (OnCall s).2) = false /\
  oncall_pending (OnCall s).2 = oncall_pending s /\
  heap (world (OnCall s).2) = heap (world s) /\
  log (world (OnCall s).2) = log (world s) /\
  caps p (world (OnCall s).2) =
    (caps p (world s) +
     (if IsValid (deref (world s) p) then occ p (omap id (m_Queue (attacher s))) else 0))%nat.
Proof.
  unfold OnCall. cbn [fst snd]. rewrite !Handle_drains. cbn.
  destruct (call_all_spec (m_Queue (attacher s)) (world s) p) as (Hh & Hl & Hc).
  change (call_all [] ?w) with w. done.
Qed.

Lemma OnCall_frame s :
  m_Queue (attacher (OnCall s).2) = [] /\
  m_Appended (attacher (OnCall s).2) = false /\
  oncall_pending (OnCall s).2 = oncall_pending s.
Proof. unfold OnCall. cbn [fst snd]. rewrite !Handle_drains. done. Qed.

Lemma single_step_invariant l s s' :
  single_step l s = Some s' -> accepts l ->
  ((m_Appended (attacher s) = true <-> oncall_pending s = 1%nat) /\
   (oncall_pending s <= 1)%nat /\
   (m_Appended (attacher s) = false -> m_Queue (attacher s) = [])) ->
  (m_Appended (attacher s') = true <-> oncall_pending s' = 1%nat) /\
  (oncall_pending s' <= 1)%nat /\
  (m_Appended (attacher s') = false -> m_Queue (attacher s') = []).
Proof.
  destruct l as [addOk injector|]; cbn [single_step accepts];
    intros Hs Hacc (Ha & Hle & Hq).
  - injection Hs as <-. subst addOk. unfold InjectRequest.
    destruct (m_Appended (attacher s)) eqn:Happ; cbn.
    + split; [|split; [lia|done]]. split; [intros _; by apply Ha|done].
    + assert (oncall_pending s = 0%nat) as ->.
      { destruct (oncall_pending s) as [|[|n]]; [done| |lia].
        destruct Ha as [_ Ha]. by specialize (Ha eq_refl). }
      split; [done|]. split; [lia|done].
  - unfold run_OnCall in Hs. destruct (oncall_pending s) as [|n] eqn:Hn; [done|].
    assert (s' = (OnCall (mkSingle (attacher s) n (world s))).2) as -> by congruence.
    destruct (OnCall_frame (mkSingle (attacher s) n (world s))) as (Hq' & Ha' & Hp').
    rewrite Hq', Ha', Hp'. cbn. assert (n = 0%nat) as -> by lia.
    split; [done|]. split; [lia|done].
Qed.

(** X3. As long as [Py_AddPendingCall] accepts, at most one [OnCall] is
    pending at any time, [m_Appended] is set exactly when one is pending,
    and one is pending whenever the queue holds a request: nothing waits in
    the queue without an [OnCall] on its way. *)
Theorem one_OnCall_for_all_requests (w : World) (ls : list single_label) (s : Single) :
  single_run ls (single_initial w) = Some s ->
  Forall accepts ls ->
  (oncall_pending s <= 1)%nat /\
  (m_Appended (attacher s) = true <-> oncall_pending s = 1%nat) /\
  (m_Queue (attacher s) <> [] -> oncall_pending s = 1%nat).
Proof.
  intros Hrun Hall.
  assert ((m_Appended (attacher s) = true <-> oncall_pending s = 1%nat) /\
          (oncall_pending s <= 1)%nat /\
          (m_Appended (attacher s) = false -> m_Queue (attacher s) = [])) as (Ha & Hle & Hq).
  { assert ((m_Appended (attacher (single_initial w)) = true <->
             oncall_pending (single_initial w) = 1%nat) /\
            (oncall_pending (single_initial w) <= 1)%nat /\
            (m_Appended (attacher (single_initial w)) = false ->
             m_Queue (attacher (single_initial w)) = [])) as Hinit
      by (cbn; split; [split; intros; discriminate|split; [lia|done]]).
    revert Hrun Hall Hinit. generalize (single_initial w).
    induction ls as [|l ls IH]; intros s0 Hrun Hall Hinv; cbn in Hrun.
    - by injection Hrun as <-.
    - destruct (single_step l s0) as [s1|] eqn:Hs; [|done]. cbn in Hrun.
      apply Forall_cons in Hall as [Hl Hall].
      apply (IH s1 Hrun Hall). by apply (single_step_invariant l s0). }
  split; [done|]. split; [done|].
  intros Hne. apply Ha. destruct (m_Appended (attacher s)); [done|]. by destruct Hne, Hq.
Qed.

Lemma one_OnCall_for_all_requests_witness :
  exists s,
    single_run [SInject true (Some 0%nat); SInject true (Some 1%nat)]
      (single_initial (initial 0%nat)) = Some s /\
    (oncall_pending s <= 1)%nat /\
    (m_Appended (attacher s) = true <-> oncall_pending s = 1%nat) /\
    (m_Queue (attacher s) <> [] -> oncall_pending s = 1%nat).
Proof.
  eexists. split; [reflexivity|].
  apply (one_OnCall_for_all_requests (initial 0%nat)
           [SInject true (Some 0%nat); SInject true (Some 1%nat)]).
  - reflexivity.
  - repeat constructor.
Defined.

Lemma InjectRequest_appended ok injector s :
  m_Appended (attacher s) = true -> (InjectRequest ok injector s).1 = true.
Proof. unfold InjectRequest. by intros ->. Qed.

(** X4. When [Py_AddPendingCall] rejects the [OnCall] request,
    [InjectRequest] returns [false] but leaves [m_Appended] set; every later
    [InjectRequest], whatever the interpreter would answer, returns [true],
    only queues its injector and schedules nothing. *)
Theorem rejected_OnCall_latches (s : Single) (injector : option ptr)
    (reqs : list (bool * option nat)) :
  m_Appended (attacher s) = false ->
  let s1 := (InjectRequest false injector s).2 in
  let s2 := foldl (fun s r => (InjectRequest r.1 r.2 s).2) s1 reqs in
  (InjectRequest false injector s).1 = false /\
  m_Appended (attacher s1) = true /\
  oncall_pending s1 = oncall_pending s /\
  m_Appended (attacher s2) = true /\
  oncall_pending s2 = oncall_pending s /\
  m_Queue (attacher s2) = m_Queue (attacher s) ++ injector :: reqs.*2 /\
  world s2 = world s /\
  (forall r, (InjectRequest r.1 r.2 s2).1 = true).
Proof.
  intros Happ. cbn zeta.
  assert (forall s0, m_Appended (attacher s0) = true ->
            let s2 := foldl (fun s r => (InjectRequest r.1 r.2 s).2) s0 reqs in
            m_Appended (attacher s2) = true /\ oncall_pending s2 = oncall_pending s0 /\
            m_Queue (attacher s2) = m_Queue (attacher s0) ++ reqs.*2 /\
            world s2 = world s0) as Hfold.
  { induction reqs as [|r reqs IH]; intros s0 Hs0; cbn zeta; cbn [foldl].
    - by rewrite app_nil_r.
    - destruct (IH ((InjectRequest r.1 r.2 s0).2)) as (H1 & H2 & H3 & H4).
      { unfold InjectRequest. by rewrite Hs0. }
      rewrite H1, H2, H3, H4. unfold InjectRequest, Queue_Push. rewrite Hs0. cbn.
      by rewrite <- app_assoc. }
  assert (InjectRequest false injector s =
          (false, mkSingle (mkAttacher (m_Queue (attacher s) ++ [injector]) true)
                    (oncall_pending s) (world s))) as Hreq
    by (unfold InjectRequest, Queue_Push; by rewrite Happ).
  rewrite Hreq. cbn [fst snd].
  destruct (Hfold (mkSingle (mkAttacher (m_Queue (attacher s) ++ [injector]) true)
                     (oncall_pending s) (world s)) eq_refl) as (H2 & H3 & H4 & H5).
  cbn [attacher m_Queue m_Appended oncall_pending world] in H3, H4, H5.
  split; [done|]. split; [done|]. split; [done|].
  split; [done|]. split; [done|].
  split; [by rewrite H4, <- app_assoc|].
  split; [done|].
  intros r. by apply InjectRequest_appended.
Qed.

Lemma rejected_OnCall_latches_witness :
  let s := single_initial (initial 0%nat) in
  let reqs := [(true, Some 1%nat); (true, Some 2%nat)] in
  let s1 := (InjectRequest false (Some 0%nat) s).2 in
  let s2 := foldl (fun s r => (InjectRequest r.1 r.2 s).2) s1 reqs in
  (InjectRequest false (Some 0%nat) s).1 = false /\
  m_Appended (attacher s1) = true /\
  oncall_pending s1 = oncall_pending s /\
  m_Appended (attacher s2) = true /\
  oncall_pending s2 = oncall_pending s /\
  m_Queue (attacher s2) = m_Queue (attacher s) ++ Some 0%nat :: reqs.*2 /\
  world s2 = world s /\
  (forall r, (InjectRequest r.1 r.2 s2).1 = true).
Proof.
  apply (rejected_OnCall_latches (single_initial (initial 0%nat)) (Some 0%nat)
           [(true, Some 1%nat); (true, Some 2%nat)]).
  reflexivity.
Defined.

(** ** [CThreadState] *)

(** X5. [SwapState] followed by [RestoreState], from a [CThreadState] whose
    [m_PrevState] is null: in between, the injector's thread state is the
    current one; afterwards [m_PrevState] is null again and the thread state
    that was current before is current again (with the interpreter untouched
    if it was the injector's own).  When no thread state was current,
    nothing was saved and [RestoreState] restores nothing: the injector's
    thread state stays current. *)
Theorem SwapState_then_RestoreState (m_State : tid) (rt : PyRuntime) :
  let swapped := SwapState m_State None rt in
  let restored := RestoreState swapped.1 swapped.2 in
  rt_current swapped.2 = Some m_State /\
  restored.1 = None /\
  match rt_current rt with
  | Some c =>
      rt_current restored.2 = Some c /\
      (c = m_State -> restored.2 = rt) /\
      (c <> m_State -> rt_tls restored.2 = Some c)
  | None => restored.2 = mkRuntime (Some m_State) (Some m_State)
  end.
Proof.
  cbn zeta. unfold SwapState. case_bool_decide as Hcur.
  - cbn. rewrite Hcur. repeat split; try done.
  - destruct rt as [[c|] tls]; cbn in *.
    + repeat split; try done. intros ->. done.
    + done.
Qed.

(** ** [CPyObjectHolder] *)

Lemma refcnt_XINCREF rc (h : option nat) (o : nat) :
  refcnt (Py_XINCREF h rc) o = refcnt rc o + (if bool_decide (h = Some o) then 1 else 0).
Proof.
  unfold Py_XINCREF, refcnt.
  destruct h as [x|]; [|rewrite bool_decide_eq_false_2 by done; lia].
  destruct (decide (x = o)) as [->|Hne].
  - rewrite lookup_insert_eq, bool_decide_eq_true_2 by done. done.
  - rewrite lookup_insert_ne, bool_decide_eq_false_2 by congruence. lia.
Qed.

Lemma refcnt_XDECREF rc (h : option nat) (o : nat) :
  refcnt (Py_XDECREF h rc) o = refcnt rc o - (if bool_decide (h = Some o) then 1 else 0).
Proof.
  unfold Py_XDECREF, refcnt.
  destruct h as [x|]; [|rewrite bool_decide_eq_false_2 by done; lia].
  destruct (decide (x = o)) as [->|Hne].
  - rewrite lookup_insert_eq, bool_decide_eq_true_2 by done. done.
  - rewrite lookup_insert_ne, bool_decide_eq_false_2 by congruence. lia.
Qed.

(** X6. The holder keeps the count on the paths the module uses.  A copy
    takes one reference and its destruction gives it back.  Capturing a raw
    pointer as [Call] does ([Py_XINCREF], a temporary holder built from the
    pointer, move-assigned into a null holder) leaves the member holding the
    pointer with exactly one more reference, the temporary null, and the
    destruction of both restores every count. *)
Theorem Holder_balanced (rc : gmap nat Z) (h : option nat) (o : nat) :
  refcnt (Holder_copy h rc).2 o = refcnt rc o + (if bool_decide (h = Some o) then 1 else 0) /\
  refcnt (Holder_destroy (Holder_copy h rc).1 (Holder_copy h rc).2) o = refcnt rc o /\
  let rc1 := Py_XINCREF h rc in
  let moved := Holder_move_assign false None h in
  moved = (h, None) /\
  refcnt (Holder_destroy moved.2 rc1) o =
    refcnt rc o + (if bool_decide (h = Some o) then 1 else 0) /\
  refcnt (Holder_destroy moved.1 (Holder_destroy moved.2 rc1)) o = refcnt rc o.
Proof.
  unfold Holder_copy, Holder_destroy, Holder_move_assign. cbn [fst snd].
  rewrite !refcnt_XDECREF, !refcnt_XINCREF.
  rewrite (bool_decide_eq_false_2 (None = Some o)) by done.
  split; [done|]. split; [lia|]. split; [done|]. split; lia.
Qed.

(** X7. Two operators drop a count they do not own.  Copy assignment
    releases the object the holder had but takes no reference to the one it
    now shares with [rhs]: destroying both holders afterwards takes two
    references off that object.  Move assignment onto a holder that already
    has an object overwrites it without releasing it. *)
Theorem Holder_assignment_counts (rc : gmap nat Z) (this : option nat) (x : nat) :
  this <> Some x ->
  let assigned := Holder_copy_assign this (Some x) rc in
  assigned.1 = Some x /\
  refcnt assigned.2 x = refcnt rc x /\
  (forall y, this = Some y -> refcnt assigned.2 y = refcnt rc y - 1) /\
  refcnt (Holder_destroy (Some x) (Holder_destroy assigned.1 assigned.2)) x = refcnt rc x - 2 /\
  Holder_move_assign false this (Some x) = (Some x, None) /\
  (forall y, this = Some y ->
             refcnt (Holder_destroy (Holder_move_assign false this (Some x)).1 rc) y
             = refcnt rc y).
Proof.
  intros Hne. unfold Holder_copy_assign, Holder_destroy, Holder_move_assign. cbn [fst snd].
  rewrite !refcnt_XDECREF.
  rewrite (bool_decide_eq_false_2 (this = Some x)) by done.
  rewrite (bool_decide_eq_true_2 (Some x = Some x)) by done.
  split; [done|]. split; [lia|]. split.
  { intros y ->. rewrite refcnt_XDECREF, bool_decide_eq_true_2 by done. done. }
  split; [lia|]. split; [done|].
  intros y ->. rewrite refcnt_XDECREF, bool_decide_eq_false_2; [lia|]. congruence.
Qed.

Lemma Holder_assignment_counts_witness :
  let rc : gmap nat Z := {[ 1%nat := 1; 2%nat := 1 ]} in
  let assigned := Holder_copy_assign (Some 1%nat) (Some 2%nat) rc in
  assigned.1 = Some 2%nat /\
  refcnt assigned.2 2%nat = refcnt rc 2%nat /\
  (forall y, Some 1%nat = Some y -> refcnt assigned.2 y = refcnt rc y - 1) /\
  refcnt (Holder_destroy (Some 2%nat) (Holder_destroy assigned.1 assigned.2)) 2%nat
    = refcnt rc 2%nat - 2 /\
  Holder_move_assign false (Some 1%nat) (Some 2%nat) = (Some 2%nat, None) /\
  (forall y, Some 1%nat = Some y ->
             refcnt (Holder_destroy
                       (Holder_move_assign false (Some 1%nat) (Some 2%nat)).1 rc) y
             = refcnt rc y).
Proof.
  apply (Holder_assignment_counts {[ 1%nat := 1; 2%nat := 1 ]} (Some 1%nat) 2%nat).
  discriminate.
Defined.

(** ** [GetPyThreadIndex] *)

Lemma find_key_spec get state fuel :
  forall i,
    (find_key get state i fuel = -1 /\
     forall j, (i <= j < i + fuel)%nat -> get j <> Some state) \/
    (exists k, find_key get state i fuel = Z.of_nat k /\
               (i <= k < i + fuel)%nat /\ get k = Some state /\
               forall j, (i <= j < k)%nat -> get j <> Some state).
Proof.
  induction fuel as [|fuel IH]; intros i; cbn [find_key].
  - left. split; [done|]. intros j Hj. lia.
  - case_bool_decide as Hi.
    + right. exists i. split; [done|]. split; [lia|]. split; [done|]. intros j Hj. lia.
    + destruct (IH (S i)) as [[Hr Hall]|(k & Hr & Hk & Hget & Hall)].
      * left. split; [done|]. intros j Hj.
        destruct (decide (j = i)) as [->|]; [done|]. apply Hall. lia.
      * right. exists k. split; [done|]. split; [lia|]. split; [done|].
        intros j Hj. destruct (decide (j = i)) as [->|]; [done|]. apply Hall. lia.
Qed.

(** X8. [GetPyThreadIndex] returns the smallest key below 100000 under
    which the calling thread stores the given thread state, and -1 (the
    assertion fails) exactly when there is no such key. *)
Theorem GetPyThreadIndex_is_least (get : nat -> option tid) (state : tid) :
  -1 <= GetPyThreadIndex get state < 100000 /\
  (GetPyThreadIndex get state = -1 <->
   forall j, Z.of_nat j < 100000 -> get j <> Some state) /\
  (forall k, GetPyThreadIndex get state = Z.of_nat k ->
             get k = Some state /\ forall j, (j < k)%nat -> get j <> Some state).
Proof.
  unfold GetPyThreadIndex.
  assert (Z.of_nat KEY_LIMIT = 100000) as Hlim by (unfold KEY_LIMIT; lia).
  destruct (find_key_spec get state KEY_LIMIT 0%nat)
    as [[Hr Hall]|(k & Hr & Hk & Hget & Hall)]; rewrite Hr.
  - split; [lia|]. split.
    + split; [|done]. intros _ j Hj. apply Hall. lia.
    + intros k Hk. lia.
  - split; [lia|]. split.
    + split; [lia|]. intros Hnone. exfalso. apply (Hnone k); [lia|done].
    + intros k' Hk'. assert (k' = k) as -> by lia. split; [done|].
      intros j Hj. apply Hall. lia.
Qed.

(** ** Reachable states *)

(** What a step is, label by label. *)
Lemma step_inv l w w' :
  step l w = Some w' ->
  match l with
  | LCreate h time cb th =>
      w' = set_handles (<[h := fresh_ptr w]> (handles w))
             (set_heap (<[fresh_ptr w :=
                            mkInjector true (Some cb) (time `mod` 2 ^ 32) 0
                              (mkThreadState th (Nat.eqb (g_MainThreadId w) th))]> (heap w)) w)
  | LStart h now =>
      exists q, handles w !! h = Some q /\ w' = Start q (update q (RecordStartTime now) w)
  | LStop h => exists q, handles w !! h = Some q /\ w' = Stop q w
  | LReset h now th =>
      exists q f,
        handles w !! h = Some q /\ m_Callback (deref w q) = Some f /\
        w' = Start (fresh_ptr (update q Release w))
               (set_handles (<[h := fresh_ptr (update q Release w)]> (handles w))
                  (set_heap (<[fresh_ptr (update q Release w) :=
                                 mkInjector true (Some f) (m_Duration (deref w q)) now
                                   (mkThreadState th (Nat.eqb (g_MainThreadId w) th))]>
                               (alter Release q (heap w)))
                     (update q Release w)))
  | LDealloc h =>
      (handles w !! h = None /\ w' = w) \/
      (exists q, handles w !! h = Some q /\
                 w' = set_handles (delete h (handles w)) (update q Release w))
  | LCycle clk addOk =>
      m_CheckTh (helper w) = Scanning /\
      w' = set_helper (loop_exit (helper (cycle clk addOk w))) (cycle clk addOk w)
  | LRunPending ok =>
      exists q qs, pendingcalls w = q :: qs /\ w' = (OnFastTrace ok q (set_pending qs w)).2
  | LTrace t ok =>
      (c_tracefunc (tstate w t) <> Some OnTrace_fn /\ w' = w) \/
      (c_tracefunc (tstate w t) = Some OnTrace_fn /\
       exists r, OnTrace t ok w = Some r /\ w' = r.2)
  | LForeignSetTrace t f o => w' = PyEval_SetTrace t (ForeignTrace <$> f) (PyOther <$> o) w
  | LShutdown => w' = Shutdown w
  end.
Proof.
  destruct l as [h time cb th|h now|h|h now th|h|clk addOk|ok|t ok|t f o|];
    cbn [step]; intros Hs.
  - unfold InitPyInjector in Hs. cbn in Hs. by injection Hs as <-.
  - unfold InjectorStart in Hs. destruct (handles w !! h) as [q|]; [|done]. cbn in Hs.
    exists q. split; [done|]. by injection Hs as <-.
  - unfold InjectorStop in Hs. destruct (handles w !! h) as [q|]; [|done]. cbn in Hs.
    exists q. split; [done|]. by injection Hs as <-.
  - unfold InjectorReset in Hs. destruct (handles w !! h) as [q|]; [|done]. cbn in Hs.
    destruct (m_Callback (deref w q)) as [f|] eqn:Hcb; [|done]. cbn in Hs.
    exists q, f. split; [done|]. split; [done|]. by injection Hs as <-.
  - unfold DeallocPyInjector in Hs. destruct (handles w !! h) as [q|].
    + right. exists q. split; [done|]. by injection Hs as <-.
    + left. split; [done|]. by injection Hs as <-.
  - unfold CheckThread_iteration in Hs. destruct (m_CheckTh (helper w)); try done.
    split; [done|]. by injection Hs as <-.
  - unfold run_pending in Hs. destruct (pendingcalls w) as [|q qs]; [done|].
    exists q, qs. split; [done|]. by injection Hs as <-.
  - unfold trace_event in Hs. destruct (c_tracefunc (tstate w t)) as [[|n]|].
    + right. split; [done|]. destruct (OnTrace t ok w) as [r|]; [|done]. cbn in Hs.
      exists r. split; [done|]. by injection Hs as <-.
    + left. split; [done|]. by injection Hs as <-.
    + left. split; [done|]. by injection Hs as <-.
  - by injection Hs as <-.
  - by injection Hs as <-.
Qed.






Lemma Forall_alter_ok (f : CLocalInjector -> CLocalInjector) (q : nat)
    (m : gmap nat CLocalInjector) :
  (forall i, injector_ok i -> injector_ok (f i)) ->
  map_Forall (fun (_ : nat) i => injector_ok i) m ->
  map_Forall (fun (_ : nat) i => injector_ok i) (alter f q m).
Proof.
  intros Hf Hm k i. rewrite lookup_alter. case_decide as Hk.
  - subst k. destruct (m !! q) as [j|] eqn:Hj; cbn; [|done].
    intros [= <-]. apply Hf. by apply (Hm q).
  - apply Hm.
Qed.

Lemma Release_ok i : injector_ok i -> injector_ok (Release i).
Proof.
  intros [_ Hd]. split; [|done]. cbn. split; [done|]. by intros [? ?].
Qed.

Lemma RecordStartTime_ok now i : injector_ok i -> injector_ok (RecordStartTime now i).
Proof. by intros [Hv Hd]. Qed.

Lemma handles_allocated_alter (f : CLocalInjector -> CLocalInjector) (q : nat)
    (hs : gmap nat nat) (m : gmap nat CLocalInjector) :
  map_Forall (fun (_ : nat) (p : nat) => is_Some (m !! p)) hs ->
  map_Forall (fun (_ : nat) (p : nat) => is_Some (alter f q m !! p)) hs.
Proof.
  intros Hhs h p Hp. apply lookup_alter_is_Some. by apply (Hhs h).
Qed.

Lemma handles_allocated_insert (h q : nat) (i : CLocalInjector)
    (hs : gmap nat nat) (m : gmap nat CLocalInjector) :
  map_Forall (fun (_ : nat) (p : nat) => is_Some (m !! p)) hs ->
  map_Forall (fun (_ : nat) (p : nat) => is_Some (<[q := i]> m !! p)) (<[h := q]> hs).
Proof.
  intros Hhs h' p. rewrite lookup_insert. case_decide.
  - intros [= <-]. rewrite lookup_insert_eq. by eexists.
  - intros Hp. rewrite lookup_insert. case_decide; [by eexists|]. by apply (Hhs h').
Qed.

Lemma deref_duration_ok w p :
  map_Forall (fun (_ : nat) i => injector_ok i) (heap w) ->
  0 <= m_Duration (deref w p) < 2 ^ 32.
Proof.
  intros Hm. unfold deref. destruct (heap w !! p) as [i|] eqn:Hi; cbn; [|lia].
  by destruct (Hm p i Hi).
Qed.

Lemma step_heap_ok l w w' : step l w = Some w' -> heap_ok w -> heap_ok w'.
Proof.
  intros Hs [Hheap Hhs]. apply step_inv in Hs.
  destruct l as [h time cb th|h now|h|h now th|h|clk addOk|ok|t ok|t f o|].
  - subst w'. split; cbn [heap handles set_handles set_heap].
    + apply map_Forall_insert_2; [|done]. split; [done|].
      apply Z.mod_pos_bound. lia.
    + by apply handles_allocated_insert.
  - destruct Hs as (q & _ & ->). split; cbn.
    + apply Forall_alter_ok; [apply RecordStartTime_ok|done].
    + by apply handles_allocated_alter.
  - destruct Hs as (q & _ & ->). split; cbn.
    + apply Forall_alter_ok; [apply Release_ok|done].
    + by apply handles_allocated_alter.
  - destruct Hs as (q & f & _ & Hcb & ->). split; cbn.
    + apply map_Forall_insert_2.
      * split; [done|]. cbn. by apply deref_duration_ok.
      * apply Forall_alter_ok; [apply Release_ok|done].
    + apply handles_allocated_insert. by apply handles_allocated_alter.
  - destruct Hs as [[_ ->]|(q & _ & ->)]; [done|]. split; cbn.
    + apply Forall_alter_ok; [apply Release_ok|done].
    + intros h' p' Hp'. apply lookup_delete_Some in Hp' as [_ Hp'].
      apply lookup_alter_is_Some. by apply (Hhs h').
  - destruct Hs as [_ ->]. unfold heap_ok. cbn [heap handles set_helper].
    destruct (cycle_frame clk addOk w) as (-> & -> & _). done.
  - destruct Hs as (q & qs & _ & ->).
    destruct (OnFastTrace_frame ok q (set_pending qs w)) as (Hh & Hha & _).
    cbn zeta in Hh, Hha. unfold heap_ok. rewrite Hh, Hha. done.
  - destruct Hs as [[_ ->]|(_ & r & Hr & ->)]; [done|].
    destruct (OnTrace_frame _ _ _ _ Hr) as (q & tf & tobj & _ & Hh & Hha & _).
    unfold heap_ok. rewrite Hh, Hha. done.
  - subst w'. done.
  - subst w'. done.
Qed.

Lemma run_heap_ok ls :
  forall w w', run ls w = Some w' -> heap_ok w -> heap_ok w'.
Proof.
  induction ls as [|l ls IH]; intros w w' Hrun Hok; cbn in Hrun.
  - by injection Hrun as <-.
  - destruct (step l w) as [w1|] eqn:Hs; [|done]. cbn in Hrun.
    apply (IH w1 w' Hrun). by apply (step_heap_ok l w).
Qed.

Lemma initial_heap_ok main : heap_ok (initial main).
Proof. split; apply map_Forall_empty. Qed.

(** X10. In every state the process reaches, each allocated injector is
    valid exactly when it holds a callback (so the assertion on the callback
    in [OnFastTrace] holds), its duration is a [uint32_t] value, whose
    conversion to nanoseconds fits a 64-bit count, and every handle is bound
    to an allocated injector. *)
Theorem reachable_injectors_are_well_formed (main : tid) (ls : list label) (w : World) :
  run ls (initial main) = Some w ->
  (forall p i, heap w !! p = Some i ->
               (m_IsValid i = true <-> is_Some (m_Callback i)) /\
               0 <= m_Duration i < 2 ^ 32 /\
               0 <= ns_of_ms (m_Duration i) <= LLONG_MAX) /\
  (forall h p, handles w !! h = Some p -> is_Some (heap w !! p)).
Proof.
  intros Hrun.
  destruct (run_heap_ok ls _ _ Hrun (initial_heap_ok main)) as [Hheap Hhs].
  split.
  - intros p i Hi. destruct (Hheap p i Hi) as [Hv Hd].
    split; [done|]. split; [done|]. unfold ns_of_ms, LLONG_MAX. lia.
  - intros h p Hp. by apply (Hhs h).
Qed.

Lemma reachable_injectors_are_well_formed_witness :
  let w := default (initial 0%nat) (run run_one_timer (initial 0%nat)) in
  (forall p i, heap w !! p = Some i ->
               (m_IsValid i = true <-> is_Some (m_Callback i)) /\
               0 <= m_Duration i < 2 ^ 32 /\
               0 <= ns_of_ms (m_Duration i) <= LLONG_MAX) /\
  (forall h p, handles w !! h = Some p -> is_Some (heap w !! p)).
Proof.
  apply (reachable_injectors_are_well_formed 0%nat run_one_timer).
  vm_compute. reflexivity.
Defined.

(** X11. On a handle of a reachable state, [Reset] faults (a null callback
    reaches the [Py_INCREF] of [SetCallback]) exactly when the entry of the
    handle has been released; on a valid entry it goes through. *)
Theorem Reset_faults_exactly_on_released (main : tid) (ls : list label) (w : World)
    (h : handle) (p : ptr) (now : Z) (th : tid) :
  run ls (initial main) = Some w ->
  handles w !! h = Some p ->
  (InjectorReset h now th w = None <-> IsValid (deref w p) = false).
Proof.
  intros Hrun Hh.
  destruct (run_heap_ok ls _ _ Hrun (initial_heap_ok main)) as [Hheap Hhs].
  destruct (Hhs h p Hh) as [i Hi]. destruct (Hheap p i Hi) as [[Hv1 Hv2] _].
  unfold InjectorReset. rewrite Hh. cbn. unfold deref, IsValid. rewrite Hi. cbn.
  destruct (m_Callback i) as [f|] eqn:Hcb; cbn.
  - split; [done|]. intros Hinv. rewrite Hv2 in Hinv by eauto. done.
  - split; [|done]. intros _. destruct (m_IsValid i); [|done].
    by destruct (Hv1 eq_refl).
Qed.

Lemma Reset_faults_exactly_on_released_witness :
  let w := default (initial 0%nat)
             (run [LCreate 1%nat 50 7%nat 0%nat; LStop 1%nat] (initial 0%nat)) in
  InjectorReset 1%nat 5 0%nat w = None <-> IsValid (deref w 0%nat) = false.
Proof.
  apply (Reset_faults_exactly_on_released 0%nat
           [LCreate 1%nat 50 7%nat 0%nat; LStop 1%nat] _ 1%nat 0%nat 5 0%nat).
  - vm_compute. reflexivity.
  - vm_compute. reflexivity.
Defined.

(** ** The scan *)

Lemma kept_elem clk quit h its kv :
  kv ∈ kept clk quit h its -> kv ∈ its /\ expired clk h kv = false.
Proof.
  induction its as [|kv' rest IH]; cbn; [by intros ?%elem_of_nil|].
  destruct (expired clk h kv') eqn:Hexp.
  - intros Hin. destruct (IH Hin). split; [by right|done].
  - destruct quit.
    + intros ->%list_elem_of_singleton. split; [left|done].
    + intros [->|Hin]%elem_of_cons; [split; [left|done]|].
      destruct (IH Hin). split; [by right|done].
Qed.

(** X12. The [minSpan] a scan computes is never negative and never above
    [LLONG_MAX]: only entries that have not expired enter it.  With a clock
    that does not run backwards over the scan, the value compared with the
    resolution stays within the 64-bit range. *)
Theorem minSpan_is_in_range (clk : ScanClock) (addOk : ptr -> bool) (w : World) :
  (scan clk addOk w).1 = scan_minSpan clk w /\
  0 <= scan_minSpan clk w <= LLONG_MAX /\
  (0 <= t_end clk - t_begin clk <= LLONG_MAX ->
   - LLONG_MAX <= scan_minSpan clk w - (t_end clk - t_begin clk) <= LLONG_MAX).
Proof.
  destruct (scan_spec clk addOk w) as (_ & _ & _ & Hm & _).
  split; [done|].
  assert (0 <= scan_minSpan clk w <= LLONG_MAX) as Hr.
  { unfold scan_minSpan. split; [|apply min_remaining_le].
    destruct (min_remaining_attained clk (heap w) (scan_kept clk w) LLONG_MAX)
      as [->|(kv & Hin & ->)]; [unfold LLONG_MAX; lia|].
    apply kept_elem in Hin as [_ Hexp]. unfold expired in Hexp. lia. }
  split; [done|]. lia.
Qed.

Lemma dispatched_no_quit clk h its :
  dispatched clk false h its = List.filter (expired clk h) its.
Proof.
  induction its as [|kv rest IH]; cbn; [done|]. rewrite IH.
  by destruct (expired clk h kv).
Qed.

Lemma minSpan_is_in_range_witness :
  let clk := clock_at 60000000 in
  let w := world_one_entry 50 in
  (scan clk (fun _ => true) w).1 = scan_minSpan clk w /\
  0 <= scan_minSpan clk w <= LLONG_MAX /\
  (0 <= t_end clk - t_begin clk <= LLONG_MAX ->
   - LLONG_MAX <= scan_minSpan clk w - (t_end clk - t_begin clk) <= LLONG_MAX).
Proof. apply (minSpan_is_in_range (clock_at 60000000) (fun _ => true) (world_one_entry 50)). Defined.

(** ** [AccurateSleep] *)

(** X14. [AccurateSleep] calls [nanosleep] exactly once, with the requested
    time and whatever the system answers.  After a full sleep [rem] is
    still zero, so the loop breaks; after an interruption the loop test
    fails.  The retry with the remaining time is never taken: an
    interrupted sleep is not resumed. *)
Theorem AccurateSleep_sleeps_once (fuel : nat) (os : nat -> nanosleep_outcome) (n : Z) :
  AccurateSleep_posix (S fuel) os n = Some [mkTimespec 0 (to_long (n * 1000000))].
Proof.
  unfold AccurateSleep_posix. cbn [sleep_loop]. by destruct (os 0%nat).
Qed.

(** ** The trace hook *)

Lemma tstate_SetTrace t f o w t' :
  tstate (PyEval_SetTrace t f o w) t' = if decide (t = t') then mkTState f o else tstate w t'.
Proof.
  unfold tstate, PyEval_SetTrace. cbn. case_decide as Ht.
  - subst t'. by rewrite lookup_insert_eq.
  - by rewrite lookup_insert_ne.
Qed.

Lemma same_hooks_deref w1 w2 p : same_hooks w1 w2 -> deref w1 p = deref w2 p.
Proof. intros (Hh & _). by apply deref_heap. Qed.

(** [Call] on a valid entry of thread [t], then the hook on [t] in a world
    that still has the slot [Call] wrote: the callback is called and the
    slot is back. *)
Lemma Call_OnTrace ok w w1 p f :
  IsValid (deref w p) = true -> m_Callback (deref w p) = Some f ->
  same_hooks w1 (Call p w) ->
  let t := m_State (m_ThState (deref w p)) in
  exists w2, OnTrace t ok w1 = Some (if ok then 0 else -1, w2) /\
             heap w2 = heap w /\ handles w2 = handles w /\ helper w2 = helper w /\
             pendingcalls w2 = pendingcalls w /\ g_MainThreadId w2 = g_MainThreadId w /\
             log w2 = log w1 ++
                      [EvCallback p f
                         (Py_BuildValue "(d)"
                            (VaObject (TimePointToPyFloat (m_StartTime (deref w p)))))] /\
             forall t', tstate w2 t' = tstate w t'.
Proof.
  intros Hv Hc (Hh & Hha & Hhe & Hp & Hm & Ht). cbn zeta.
  set (t := m_State (m_ThState (deref w p))).
  assert (Call p w = PyEval_SetTrace t (Some OnTrace_fn)
            (Some (PyCapsule p (c_tracefunc (tstate w t)) (c_traceobj (tstate w t)))) w)
    as Hcall by (unfold Call; by rewrite Hv).
  rewrite Hcall in Hh, Hha, Hhe, Hp, Hm, Ht. cbn in Hh, Hha, Hhe, Hp, Hm.
  assert (c_traceobj (tstate w1 t) =
          Some (PyCapsule p (c_tracefunc (tstate w t)) (c_traceobj (tstate w t)))) as Hcap.
  { rewrite Ht, tstate_SetTrace. by rewrite decide_True. }
  destruct (OnTrace_order t ok w1 p _ _ Hcap) as [_ Hon]. cbn zeta in Hon.
  rewrite (deref_heap w1 w p Hh), Hv, Hc in Hon. cbn in Hon.
  eexists. split; [exact Hon|]. repeat (split; [cbn; congruence|]).
  intros t'.
  change (tstate (emit ?e ?x) t') with (tstate x t').
  rewrite tstate_SetTrace. case_decide as Htt.
  - subst t'. by destruct (tstate w t).
  - rewrite Ht, tstate_SetTrace. by rewrite decide_False.
Qed.

Lemma same_hooks_refl w : same_hooks w w.
Proof. by repeat split. Qed.

(** X15. Dispatch to a thread other than the main one is a round trip on
    the trace slot of that thread: [Call] stores the slot in a capsule and
    installs the hook; the hook, at the next trace event, calls the
    callback once and puts the stored slot back.  Every thread then reads
    the trace slot it read before the dispatch, and nothing else but the
    log has changed. *)
Theorem Call_then_OnTrace_restores_the_hook (ok : bool) (w : World) (p : ptr)
    (f : callable) :
  IsValid (deref w p) = true ->
  m_Callback (deref w p) = Some f ->
  let t := m_State (m_ThState (deref w p)) in
  c_tracefunc (tstate (Call p w) t) = Some OnTrace_fn /\
  exists w', OnTrace t ok (Call p w) = Some (if ok then 0 else -1, w') /\
             heap w' = heap w /\ helper w' = helper w /\
             pendingcalls w' = pendingcalls w /\
             callbacks p w' = S (callbacks p w) /\
             forall t', tstate w' t' = tstate w t'.
Proof.
  intros Hv Hc. cbn zeta. split.
  - unfold Call. rewrite Hv. cbn [negb]. rewrite tstate_SetTrace. by rewrite decide_True.
  - destruct (Call_OnTrace ok w (Call p w) p f Hv Hc (same_hooks_refl _))
      as (w' & Hon & Hh & _ & Hhe & Hp & _ & Hl & Ht).
    exists w'. repeat (split; [done|]). split; [|done].
    destruct (Call_frame p w) as (_ & _ & Hlc & _).
    unfold callbacks. rewrite Hl, Hlc, count_app. unfold count at 2. cbn.
    rewrite Nat.eqb_refl. cbn. lia.
Qed.

Lemma Call_then_OnTrace_restores_the_hook_witness :
  let w := default (initial 0%nat) (run [LCreate 1%nat 50 7%nat 3%nat] (initial 0%nat)) in
  let t := m_State (m_ThState (deref w 0%nat)) in
  c_tracefunc (tstate (Call 0%nat w) t) = Some OnTrace_fn /\
  exists w', OnTrace t true (Call 0%nat w) = Some (0, w') /\
             heap w' = heap w /\ helper w' = helper w /\
             pendingcalls w' = pendingcalls w /\
             callbacks 0%nat w' = S (callbacks 0%nat w) /\
             forall t', tstate w' t' = tstate w t'.
Proof.
  apply (Call_then_OnTrace_restores_the_hook true
           (default (initial 0%nat) (run [LCreate 1%nat 50 7%nat 3%nat] (initial 0%nat)))
           0%nat 7%nat).
  - vm_compute. reflexivity.
  - vm_compute. reflexivity.
Defined.

(** X16. Two dispatches to the same thread before it reaches a trace
    event nest: the second capsule holds the hook of the first.  The
    thread then runs the callbacks in reverse order of dispatch, one per
    trace event, and after the second event reads its original trace
    slot. *)
Theorem hooks_unwind_in_reverse (ok1 ok2 : bool) (w : World) (p q : ptr)
    (f g : callable) :
  IsValid (deref w p) = true -> m_Callback (deref w p) = Some f ->
  IsValid (deref w q) = true -> m_Callback (deref w q) = Some g ->
  m_State (m_ThState (deref w q)) = m_State (m_ThState (deref w p)) ->
  let t := m_State (m_ThState (deref w p)) in
  exists w1 w2 a b,
    OnTrace t ok1 (Call q (Call p w)) = Some (if ok1 then 0 else -1, w1) /\
    OnTrace t ok2 w1 = Some (if ok2 then 0 else -1, w2) /\
    log w2 = log w ++ [EvCallback q g a; EvCallback p f b] /\
    forall t', tstate w2 t' = tstate w t'.
Proof.
  intros Hvp Hcp Hvq Hcq Ht. cbn zeta.
  destruct (Call_frame p w) as (Hh & Hhe & Hl & Hpe).
  assert (deref (Call p w) q = deref w q) as Hdq by (by apply deref_heap).
  destruct (Call_OnTrace ok1 (Call p w) (Call q (Call p w)) q g) as
    (w1 & Hon1 & Hh1 & Hha1 & Hhe1 & Hp1 & Hm1 & Hl1 & Ht1).
  { by rewrite Hdq. } { by rewrite Hdq. } { by repeat split. }
  rewrite Hdq, Ht in Hon1.
  destruct (Call_OnTrace ok2 w w1 p f Hvp Hcp) as
    (w2 & Hon2 & _ & _ & _ & _ & _ & Hl2 & Ht2).
  { by repeat split. }
  exists w1, w2. do 2 eexists. split; [exact Hon1|]. split; [exact Hon2|].
  split; [|done]. rewrite Hl2, Hl1.
  destruct (Call_frame q (Call p w)) as (_ & _ & -> & _). rewrite Hl, Hdq.
  by rewrite <- app_assoc.
Qed.

Lemma hooks_unwind_in_reverse_witness :
  let w := default (initial 0%nat)
             (run [LCreate 1%nat 50 7%nat 3%nat; LCreate 2%nat 50 8%nat 3%nat]
                  (initial 0%nat)) in
  exists w1 w2 a b,
    OnTrace 3%nat true (Call 1%nat (Call 0%nat w)) = Some (0, w1) /\
    OnTrace 3%nat false w1 = Some (-1, w2) /\
    log w2 = log w ++ [EvCallback 1%nat 8%nat a; EvCallback 0%nat 7%nat b] /\
    forall t', tstate w2 t' = tstate w t'.
Proof.
  apply (hooks_unwind_in_reverse true false
           (default (initial 0%nat)
              (run [LCreate 1%nat 50 7%nat 3%nat; LCreate 2%nat 50 8%nat 3%nat]
                   (initial 0%nat)))
           0%nat 1%nat 7%nat 8%nat).
  - vm_compute. reflexivity.
  - vm_compute. reflexivity.
  - vm_compute. reflexivity.
  - vm_compute. reflexivity.
  - vm_compute. reflexivity.
Defined.

(** ** Deallocation and shutdown *)



(** X17. Deallocating a handle releases its entry and unbinds the handle,
    and leaves the registry as it is: unlike [stop], the entry is not
    removed from the map or staged for removal.  Its callback is
    nevertheless never called again. *)
Theorem Dealloc_cancels_without_deregistering (main : tid) (ls : list label)
    (w w' : World) (h : handle) (p : ptr) :
  run ls (initial main) = Some w ->
  handles w !! h = Some p ->
  step (LDealloc h) w = Some w' ->
  helper w' = helper w /\ handles w' !! h = None /\
  IsValid (deref w' p) = false /\
  forall ls' w'', run ls' w' = Some w'' -> callbacks p w'' = callbacks p w.
Proof.
  intros Hrun Hh Hs.
  destruct (run_heap_ok ls _ _ Hrun (initial_heap_ok main)) as [_ Hhs].
  destruct (Hhs h p Hh) as [i Hi].
  cbn in Hs. unfold DeallocPyInjector in Hs. rewrite Hh in Hs.
  assert (w' = set_handles (delete h (handles w)) (update p Release w)) as ->
    by congruence.
  assert (released_in (set_handles (delete h (handles w)) (update p Release w)) p) as Hrel.
  { exists (Release i). split; [|done]. cbn. by rewrite lookup_alter_eq, Hi. }
  split; [done|]. split; [cbn; by rewrite lookup_delete_eq|].
  split; [by apply released_in_deref|].
  intros ls' w'' Hrun'.
  by destruct (released_never_fires ls' _ _ p Hrun' Hrel) as [-> _].
Qed.

Lemma Dealloc_cancels_without_deregistering_witness :
  let w := world_one_entry 50 in
  let w' := default w (step (LDealloc 1%nat) w) in
  helper w' = helper w /\ handles w' !! 1%nat = None /\
  IsValid (deref w' 0%nat) = false /\
  forall ls' w'', run ls' w' = Some w'' -> callbacks 0%nat w'' = callbacks 0%nat w.
Proof.
  apply (Dealloc_cancels_without_deregistering 0%nat
           [LCreate 1%nat 50 7%nat 0%nat; LStart 1%nat 0] (world_one_entry 50)
           (default (world_one_entry 50) (step (LDealloc 1%nat) (world_one_entry 50)))
           1%nat 0%nat).
  - vm_compute. reflexivity.
  - vm_compute. reflexivity.
  - vm_compute. reflexivity.
Defined.



(** ** The main thread *)

(** X19. Dispatch to the main thread: a request that [Py_AddPendingCall]
    accepts, run by the interpreter, calls the callback once with the start
    time of the entry as a float; if the entry is released between the
    two, the request is consumed without a call; a request the interpreter
    rejects leaves the world as it was. *)
Theorem fast_path_delivers_the_start_time (ok : bool) (w : World) (p : ptr)
    (f : callable) :
  pendingcalls w = [] ->
  IsValid (deref w p) = true ->
  m_Callback (deref w p) = Some f ->
  run_pending ok (FastCall true p w) =
    Some (emit (EvCallback p f (Some (PyFloat (m_StartTime (deref w p))))) w) /\
  run_pending ok (update p Release (FastCall true p w)) = Some (update p Release w) /\
  FastCall false p w = w.
Proof.
  intros Hp Hv Hc.
  assert (FastCall true p w = set_pending [p] w) as ->.
  { unfold FastCall, Py_AddPendingCall. rewrite Hv, Hp. done. }
  assert (set_pending [] w = w) as Hw by (destruct w; cbn in *; by subst).
  split; [|split].
  - change (run_pending ok (set_pending [p] w))
      with (Some (OnFastTrace ok p (set_pending [] w)).2).
    rewrite Hw. by rewrite (OnFastTrace_call ok w p f Hv Hc).
  - change (run_pending ok (update p Release (set_pending [p] w)))
      with (Some (OnFastTrace ok p (update p Release (set_pending [] w))).2).
    rewrite Hw. unfold OnFastTrace, update.
    assert (IsValid (deref (set_heap (alter Release p (heap w)) w) p) = false) as ->; [|done].
    unfold deref. cbn. rewrite lookup_alter_eq. by destruct (heap w !! p).
  - unfold FastCall, Py_AddPendingCall. by rewrite Hv.
Qed.

Lemma fast_path_delivers_the_start_time_witness :
  let w := default (initial 0%nat) (run [LCreate 1%nat 50 7%nat 0%nat] (initial 0%nat)) in
  run_pending true (FastCall true 0%nat w) =
    Some (emit (EvCallback 0%nat 7%nat (Some (PyFloat (m_StartTime (deref w 0%nat))))) w) /\
  run_pending true (update 0%nat Release (FastCall true 0%nat w)) =
    Some (update 0%nat Release w) /\
  FastCall false 0%nat w = w.
Proof.
  apply (fast_path_delivers_the_start_time true
           (default (initial 0%nat) (run [LCreate 1%nat 50 7%nat 0%nat] (initial 0%nat)))
           0%nat 7%nat).
  - vm_compute. reflexivity.
  - vm_compute. reflexivity.
  - vm_compute. reflexivity.
Defined.

(** * The process at the grain of the source *)

(** ** How its transitions relate to [step] *)

Lemma scan_loop_asserting_sim clk addOk its :
  forall minSpan c r,
    scan_loop_asserting clk addOk its minSpan c = Some r ->
    scan_loop clk addOk its minSpan (pworld c) = (r.1, pworld r.2) /\ pc r.2 = pc c.
Proof.
  induction its as [|[k v] rest IH]; intros minSpan c r Hr;
    cbn [scan_loop_asserting] in Hr.
  - injection Hr as <-. done.
  - cbn [scan_loop].
    destruct (t_at clk k - m_StartTime (deref (pworld c) v)
              >? ns_of_ms (m_Duration (deref (pworld c) v))).
    + destruct (1 <? use_count _ v)%nat; [|done].
      apply IH in Hr as [Hr Hpc]. split; [exact Hr|exact Hpc].
    + destruct (m_IsQuit (helper (pworld c))).
      * injection Hr as <-. done.
      * by apply IH in Hr.
Qed.

Lemma call_step_sim l c c' :
  call_step l c = Some c' -> step l (pworld c) = Some (pworld c') /\ pc c' = pc c.
Proof.
  destruct l as [h time cb th|h now|h|h now th|h|clk addOk|ok|t ok|t f o|];
    unfold call_step; intros Hs; try done.
  1-8: destruct (step _ (pworld c)) as [w'|]; [|done]; cbn in Hs;
       by injection Hs as <-.
  destruct (m_CheckTh (helper (pworld c))); [done|..]; by injection Hs as <-.
Qed.

Lemma pstep_inv l c c' :
  pstep l c = Some c' ->
  match l with
  | PCall l => call_step l c = Some c'
  | PThread its clk addOk => thread_step its clk addOk c = Some c'
  end.
Proof.
  unfold pstep. destruct l as [l|its clk addOk].
  - destruct (call_step l c) as [c1|]; [|done]. cbn.
    destruct (destructor_ok c c1); [|done]. by intros [= <-].
  - destruct (thread_step its clk addOk c) as [c1|]; [|done]. cbn.
    destruct (destructor_ok c c1); [|done]. by intros [= <-].
Qed.

Lemma count_attach_start p q : count (is_attach p) [EvStart q] = 0%nat.
Proof. done. Qed.

(** Only the scan dispatches. *)
Lemma step_attaches l w w' p :
  step l w = Some w' -> (forall clk addOk, l <> LCycle clk addOk) ->
  attaches p w' = attaches p w.
Proof.
  intros Hs Hl. apply step_inv in Hs.
  destruct l as [h time cb th|h now|h|h now th|h|clk addOk|ok|t ok|t f o|].
  - by subst w'.
  - destruct Hs as (q & _ & ->). unfold attaches, Start. cbn [log emit].
    rewrite count_app. apply Nat.add_0_r.
  - destruct Hs as (q & _ & ->). done.
  - destruct Hs as (q & f & _ & _ & ->). unfold attaches, Start. cbn [log emit].
    rewrite count_app. apply Nat.add_0_r.
  - by destruct Hs as [[_ ->]|(q & _ & ->)].
  - by destruct (Hl clk addOk).
  - destruct Hs as (q & qs & _ & ->).
    destruct (OnFastTrace_frame ok q (set_pending qs w)) as (_ & _ & _ & _ & _ & Hlog).
    cbn zeta in Hlog. unfold attaches. rewrite Hlog, count_app.
    change (log (set_pending qs w)) with (log w).
    destruct (m_Callback _); [destruct (IsValid _)|]; apply Nat.add_0_r.
  - destruct Hs as [[_ ->]|(_ & r & Hr & ->)]; [done|].
    destruct (OnTrace_frame _ _ _ _ Hr) as (q & tf & tobj & _ & _ & _ & _ & _ & _ & Hlog).
    unfold attaches. rewrite Hlog, count_app.
    destruct (m_Callback _); [destruct (IsValid _)|]; apply Nat.add_0_r.
  - by subst w'.
  - by subst w'.
Qed.

(** ** A thread that waits *)

Lemma pstep_parked l c c' p :
  pstep l c = Some c' -> m_CheckTh (helper (pworld c)) = Parked -> ~ pwakes l ->
  m_CheckTh (helper (pworld c')) = Parked /\
  attaches p (pworld c') = attaches p (pworld c) /\
  (tokens p (pworld c') <= tokens p (pworld c))%nat.
Proof.
  intros Hs Hph Hw. apply pstep_inv in Hs. destruct l as [l|its clk addOk].
  - destruct (call_step_sim _ _ _ Hs) as [Hst _].
    assert (forall clk addOk, l <> LCycle clk addOk) as Hl.
    { intros clk addOk ->. by unfold call_step in Hs. }
    pose proof (step_attaches _ _ _ p Hst Hl) as Ha.
    pose proof (step_tokens _ _ _ p Hst) as Ht.
    destruct (step_parked _ _ _ Hst Hph) as [Hp|Hwk]; [|by destruct Hw].
    split; [done|]. split; [done|lia].
  - unfold thread_step in Hs. by rewrite Hph in Hs.
Qed.

Lemma prun_parked ls p :
  forall c c',
    Forall (fun l => ~ pwakes l) ls -> prun ls c = Some c' ->
    m_CheckTh (helper (pworld c)) = Parked ->
    m_CheckTh (helper (pworld c')) = Parked /\
    attaches p (pworld c') = attaches p (pworld c) /\
    (tokens p (pworld c') <= tokens p (pworld c))%nat.
Proof.
  induction ls as [|l ls IH]; intros c c' Hall Hrun Hph; cbn in Hrun.
  - injection Hrun as <-. split; [done|]. split; [done|lia].
  - apply Forall_cons in Hall as [Hl Hall].
    destruct (pstep l c) as [c1|] eqn:Hs; [|done]. cbn in Hrun.
    destruct (pstep_parked _ _ _ p Hs Hph Hl) as (Hph1 & Ha1 & Ht1).
    destruct (IH c1 c' Hall Hrun Hph1) as (Hph' & Ha' & Ht').
    split; [done|]. split; [congruence|lia].
Qed.

(** C8, at the failing input.  The only timer has been dispatched and the
    thread, having found the map empty after [Merge], is on its way to
    [wait] ([going_idle]).  A timer started once the thread waits wakes
    it: the thread is back at the [for] loop with the entry in the map.  A
    timer started just before the thread waits finds [m_Running] clear,
    goes into the map and notifies a condition variable nobody waits on;
    the thread then waits, with [m_Running] set and a valid entry in the
    active map.  No statement of the thread is enabled, and as long as
    nothing calls [start] or [reset] or shuts down, the thread stays where
    it is: the entry is never dispatched and its callback never runs.
    (The wake-ups here are the notifications of the program; a spurious
    wake-up of the condition variable, which the language allows and does
    not promise, is not a transition.) *)
Theorem wake_up_is_lost :
  let init := process_initial 0%nat in
  exists idle woken lost,
    prun going_idle init = Some idle /\
    prun (going_idle ++ thread_goes_on ++ second_timer) init = Some woken /\
    prun (going_idle ++ second_timer ++ thread_goes_on) init = Some lost /\
    (m_CallMap (helper (pworld idle)) = ∅ /\ m_Running (helper (pworld idle)) = false /\
     m_CheckTh (helper (pworld idle)) = Scanning /\ pc idle = AtWait) /\
    (m_CheckTh (helper (pworld woken)) = Scanning /\ pc woken = AtScan /\
     m_CallMap (helper (pworld woken)) !! 1%nat = Some 1%nat) /\
    (m_CheckTh (helper (pworld lost)) = Parked /\
     m_Running (helper (pworld lost)) = true /\
     m_IsQuit (helper (pworld lost)) = false /\
     m_CallMap (helper (pworld lost)) !! 1%nat = Some 1%nat /\
     IsValid (deref (pworld lost) 1%nat) = true) /\
    (forall its clk addOk, pstep (PThread its clk addOk) lost = None) /\
    (forall ls c', Forall (fun l => ~ pwakes l) ls -> prun ls lost = Some c' ->
                   m_CheckTh (helper (pworld c')) = Parked /\
                   attaches 1%nat (pworld c') = 0%nat /\
                   callbacks 1%nat (pworld c') = 0%nat).
Proof.
  cbn zeta.
  set (lost := default (process_initial 0%nat)
                 (prun (going_idle ++ second_timer ++ thread_goes_on)
                       (process_initial 0%nat))).
  assert (m_CheckTh (helper (pworld lost)) = Parked) as Hph by (by vm_compute).
  exists (default (process_initial 0%nat) (prun going_idle (process_initial 0%nat))),
         (default (process_initial 0%nat)
            (prun (going_idle ++ thread_goes_on ++ second_timer) (process_initial 0%nat))),
         lost.
  split; [by vm_compute|]. split; [by vm_compute|]. split; [by vm_compute|].
  split; [split; [by vm_compute|split; [by vm_compute|split; by vm_compute]]|].
  split; [split; [by vm_compute|split; by vm_compute]|].
  split.
  { split; [done|]. split; [by vm_compute|]. split; [by vm_compute|].
    split; by vm_compute. }
  split.
  - intros its clk addOk. unfold pstep, thread_step. by rewrite Hph.
  - intros ls c' Hall Hrun.
    destruct (prun_parked ls 1%nat lost c' Hall Hrun Hph) as (Hp & Ha & Ht).
    assert (attaches 1%nat (pworld lost) = 0%nat) as Ha0 by (by vm_compute).
    assert (tokens 1%nat (pworld lost) = 0%nat) as Ht0 by (by vm_compute).
    split; [done|]. split; [congruence|]. rewrite Ht0 in Ht. unfold tokens in Ht. lia.
Qed.

(** ** An entry nobody owns but the map *)

(** C4, at the failing input.  A timer of 1000 ms is started and reset
    ([reset_then_iterate]).  [InjectorReset] releases the old entry and lets
    go of it, but does not call [CContextHelper::Stop] as [InjectorStop]
    does: after the next iteration the old entry is still in the active
    map, released, and the map is its only owner.  With [stop] and a fresh
    timer in the place of [reset] ([stop_start_then_iterate]) the old entry
    has left the map.  When the old entry expires, after [reset] the scan
    meets it, [Attach] does nothing for a released entry, and
    [assert(use_count() > 1)] fails, in whatever order the loop takes the
    map; after [stop] the scan dispatches the new timer and goes on. *)
Theorem Reset_orphans_the_old_entry :
  let init := process_initial 0%nat in
  let late := clock_at 2000000000 in
  let addOk := fun _ : ptr => true in
  exists cr cs,
    prun reset_then_iterate init = Some cr /\
    prun stop_start_then_iterate init = Some cs /\
    (m_CallMap (helper (pworld cr)) !! 0%nat = Some 0%nat /\
     IsValid (deref (pworld cr) 0%nat) = false /\
     handles (pworld cr) !! 1%nat = Some 1%nat /\
     use_count cr 0%nat = 1%nat /\
     m_CallMap (helper (pworld cr)) !! 1%nat = Some 1%nat) /\
    (m_CallMap (helper (pworld cs)) !! 0%nat = None /\
     m_CallMap (helper (pworld cs)) !! 1%nat = Some 1%nat) /\
    (forall its, pstep (PThread its late addOk) cr = None) /\
    (exists cs', pstep (PThread [(1%nat, 1%nat)] late addOk) cs = Some cs' /\
                 attaches 1%nat (pworld cs') = 1%nat /\
                 m_CallMap (helper (pworld cs')) = ∅).
Proof.
  cbn zeta.
  set (cr := default (process_initial 0%nat)
               (prun reset_then_iterate (process_initial 0%nat))).
  set (cs := default (process_initial 0%nat)
               (prun stop_start_then_iterate (process_initial 0%nat))).
  exists cr, cs.
  split; [by vm_compute|]. split; [by vm_compute|].
  split.
  { split; [by vm_compute|]. split; [by vm_compute|]. split; [by vm_compute|].
    split; by vm_compute. }
  split; [split; by vm_compute|].
  split.
  - assert (pstep (PThread [(1%nat, 1%nat); (0%nat, 0%nat)] (clock_at 2000000000)
                     (fun _ => true)) cr = None) as H10 by (by vm_compute).
    assert (pstep (PThread [(0%nat, 0%nat); (1%nat, 1%nat)] (clock_at 2000000000)
                     (fun _ => true)) cr = None) as H01 by (by vm_compute).
    assert (map_to_list (m_CallMap (helper (pworld cr))) =
            [(1%nat, 1%nat); (0%nat, 0%nat)]) as Hlist by (by vm_compute).
    assert (m_CheckTh (helper (pworld cr)) = Scanning) as Hph by (by vm_compute).
    assert (pc cr = AtScan) as Hpc by (by vm_compute).
    clearbody cr. intros its.
    destruct (decide (its ≡ₚ map_to_list (m_CallMap (helper (pworld cr))))) as [Hp|Hn].
    + rewrite Hlist in Hp. symmetry in Hp.
      by apply Permutation_length_2_inv in Hp as [->| ->].
    + unfold pstep, thread_step. rewrite Hph, Hpc.
      by rewrite bool_decide_eq_false_2.
  - exists (default cs (pstep (PThread [(1%nat, 1%nat)] (clock_at 2000000000)
                           (fun _ => true)) cs)).
    split; [by vm_compute|]. split; by vm_compute.
Qed.

(** ** The scan, with its assertion *)

Lemma filter_length_pos {A} (f : A -> bool) (l : list A) (x : A) :
  x ∈ l -> f x = true -> (1 <= length (List.filter f l))%nat.
Proof.
  induction l as [|y l IH]; [by intros ?%elem_of_nil|].
  intros [->|Hin]%elem_of_cons Hf; cbn.
  - rewrite Hf. cbn. lia.
  - destruct (f y); cbn; [lia|by apply IH].
Qed.

Lemma map_refs_pos w k q : m_CallMap (helper w) !! k = Some q -> (1 <= map_refs q w)%nat.
Proof.
  intros Hk. apply (filter_length_pos _ _ (k, q)).
  - by apply elem_of_map_to_list.
  - apply Nat.eqb_refl.
Qed.

Lemma use_count_split c p : use_count c p = (other_owners c p + map_refs p (pworld c))%nat.
Proof. unfold use_count, other_owners. lia. Qed.

(** [Attach] takes no owner away, and gives a valid entry one more: the
    wrapper of the pending call, queued or leaked, or the wrapper in the
    capsule. *)
Lemma Attach_counted_owners addOk v c q :
  helper (pworld (Attach_counted addOk v c)) = helper (pworld c) /\
  heap (pworld (Attach_counted addOk v c)) = heap (pworld c) /\
  (other_owners c q <= other_owners (Attach_counted addOk v c) q)%nat /\
  (IsValid (deref (pworld c) v) = true ->
   (other_owners c v < other_owners (Attach_counted addOk v c) v)%nat).
Proof.
  destruct (Attach_frame addOk v (pworld c)) as (Hh & Hha & Hhe & _).
  split; [done|]. split; [done|].
  assert (forall x, pend x (Attach addOk v (pworld c)) + caps x (Attach addOk v (pworld c))
                    + occ x (FastCall_leak addOk v (pworld c))
                    = pend x (pworld c) + caps x (pworld c)
                      + (if IsValid (deref (pworld c) v) && Nat.eqb x v then 1 else 0))%nat
    as Hsum.
  { intros x. unfold FastCall_leak, Attach.
    destruct (IsMainThreadInjector (deref (pworld c) v)); cbn [andb].
    - rewrite FastCall_eq.
      destruct (IsValid (deref (pworld c) v)), (addOk v); cbn [andb negb].
      + unfold pend, caps. cbn [pendingcalls set_pending tstates].
        rewrite occ_app, occ_cons. change (occ x []) with 0%nat.
        destruct (Nat.eqb x v); lia.
      + rewrite occ_cons. change (occ x []) with 0%nat.
        destruct (Nat.eqb x v); lia.
      + change (occ x []) with 0%nat. lia.
      + change (occ x []) with 0%nat. lia.
    - rewrite (Call_caps v (pworld c) x).
      destruct (Call_frame v (pworld c)) as (_ & _ & _ & Hcp).
      unfold pend. rewrite Hcp. change (occ x []) with 0%nat. lia. }
  assert (forall x, other_owners (Attach_counted addOk v c) x =
                    other_owners c x
                    + (if IsValid (deref (pworld c) v) && Nat.eqb x v then 1 else 0))%nat
    as Hown.
  { intros x. specialize (Hsum x). unfold other_owners, Attach_counted.
    cbn [pworld leaked]. unfold handle_refs, innew. rewrite Hha, Hhe, occ_app. lia. }
  split.
  - rewrite Hown. lia.
  - intros Hv. rewrite Hown, Hv, Nat.eqb_refl. cbn [andb]. lia.
Qed.

Lemma scan_loop_asserting_returns clk addOk its :
  forall minSpan c,
    NoDup its.*1 ->
    (forall k q, (k, q) ∈ its ->
       m_CallMap (helper (pworld c)) !! k = Some q /\
       ((t_at clk k - m_StartTime (deref (pworld c) q)
           >? ns_of_ms (m_Duration (deref (pworld c) q))) = true ->
        IsValid (deref (pworld c) q) = true \/ (0 < other_owners c q)%nat)) ->
    is_Some (scan_loop_asserting clk addOk its minSpan c).
Proof.
  induction its as [|[k v] rest IH]; intros minSpan c Hnd Hall; [by eexists|].
  cbn [scan_loop_asserting].
  apply NoDup_cons in Hnd as [Hk Hnd]. cbn in Hk.
  destruct (Hall k v) as [Hkv Hown]; [left|].
  destruct (t_at clk k - m_StartTime (deref (pworld c) v)
            >? ns_of_ms (m_Duration (deref (pworld c) v))) eqn:Hexp.
  - set (c0 := set_world (emit (EvAttach v) (pworld c)) c).
    set (c1 := Attach_counted addOk v c0).
    destruct (Attach_counted_owners addOk v c0 v) as (Hhe & Hh & Hle & Hlt).
    fold c1 in Hhe, Hh, Hle, Hlt.
    change (helper (pworld c0)) with (helper (pworld c)) in Hhe.
    change (heap (pworld c0)) with (heap (pworld c)) in Hh.
    change (other_owners c0 v) with (other_owners c v) in Hle, Hlt.
    change (deref (pworld c0) v) with (deref (pworld c) v) in Hlt.
    assert ((1 <? use_count c1 v)%nat = true) as ->.
    { apply Nat.ltb_lt. rewrite use_count_split.
      assert (1 <= map_refs v (pworld c1))%nat as Hm.
      { apply (map_refs_pos _ k). by rewrite Hhe. }
      destruct (Hown eq_refl) as [Hv|Ho]; [specialize (Hlt Hv)|]; lia. }
    set (c2 := set_world (erase_entry k (pworld c1)) c1).
    assert (m_CallMap (helper (pworld c2)) = delete k (m_CallMap (helper (pworld c)))) as Hmap.
    { change (m_CallMap (helper (pworld c2)))
        with (delete k (m_CallMap (helper (pworld c1)))). by rewrite Hhe. }
    assert (heap (pworld c2) = heap (pworld c)) as Hheap by exact Hh.
    apply IH; [done|]. intros k' q' Hin.
    destruct (Hall k' q') as [Hkq Hown']; [by right|].
    destruct (Attach_counted_owners addOk v c0 q') as (_ & _ & Hle' & _).
    fold c1 in Hle'. change (other_owners c0 q') with (other_owners c q') in Hle'.
    split.
    + rewrite Hmap, lookup_delete_ne; [done|].
      intros <-. apply Hk. apply list_elem_of_fmap. by exists (k, q').
    + rewrite (deref_heap (pworld c2) (pworld c) q' Hheap).
      intros He. destruct (Hown' He) as [Hv|Ho]; [by left|right].
      change (other_owners c2 q') with (other_owners c1 q'). lia.
  - destruct (m_IsQuit (helper (pworld c))); [by eexists|].
    apply IH; [done|]. intros k' q' Hin. apply Hall. by right.
Qed.

(** X13. Unless a shutdown has been asked for, a scan misses nothing,
    whatever the order in which the loop meets the entries, as long as its
    assertion holds.  Suppose every expired entry of the active map is
    valid or has an owner besides the map (a handle, [m_NewVect], a wrapper).
    Then the loop runs to its end: the assertion between [Attach] and
    [erase] holds at every expired entry.  An entry whose elapsed time
    exceeds its duration is dispatched, exactly once, and is gone from the
    map when the loop ends; an entry that has not expired is not dispatched,
    stays in the map, and [minSpan] is at most its remaining time. *)
Theorem scan_dispatches_every_expired_entry (its : list (ptr * ptr)) (clk : ScanClock)
    (addOk : ptr -> bool) (c : Process) (p : ptr) :
  its ≡ₚ map_to_list (m_CallMap (helper (pworld c))) ->
  m_IsQuit (helper (pworld c)) = false ->
  keys_are_values (m_CallMap (helper (pworld c))) ->
  (forall q, m_CallMap (helper (pworld c)) !! q = Some q ->
             t_at clk q - m_StartTime (deref (pworld c) q)
               > ns_of_ms (m_Duration (deref (pworld c) q)) ->
             IsValid (deref (pworld c) q) = true \/ (0 < other_owners c q)%nat) ->
  m_CallMap (helper (pworld c)) !! p = Some p ->
  exists minSpan c',
    scan_loop_asserting clk addOk its LLONG_MAX c = Some (minSpan, c') /\
    if t_at clk p - m_StartTime (deref (pworld c) p)
         >? ns_of_ms (m_Duration (deref (pworld c) p))
    then attaches p (pworld c') = S (attaches p (pworld c)) /\
         m_CallMap (helper (pworld c')) !! p = None
    else attaches p (pworld c') = attaches p (pworld c) /\
         m_CallMap (helper (pworld c')) !! p = Some p /\
         minSpan <= ns_of_ms (m_Duration (deref (pworld c) p))
                    - (t_at clk p - m_StartTime (deref (pworld c) p)).
Proof.
  intros Hperm Hq Hwf Hown Hp.
  set (w := pworld c) in *.
  assert (forall k q, (k, q) ∈ its <-> m_CallMap (helper w) !! k = Some q) as Hits.
  { intros k q. rewrite Hperm. apply elem_of_map_to_list. }
  assert (forall k q, (k, q) ∈ its -> k = q) as Hkv.
  { intros k q Hin. apply Hits in Hin. by apply (Hwf k q). }
  assert (NoDup its.*1) as Hnd.
  { rewrite Hperm. apply NoDup_fst_map_to_list. }
  destruct (scan_loop_asserting_returns clk addOk its LLONG_MAX c Hnd) as [[minSpan c'] Hr].
  { intros k q Hin. split; [by apply Hits|]. intros Hexp.
    pose proof (Hkv k q Hin) as ->. apply Hown; [by apply Hits|].
    apply Z.gtb_lt in Hexp. fold w in Hexp. lia. }
  exists minSpan, c'. split; [exact Hr|].
  apply scan_loop_asserting_sim in Hr as [Hsim _]. cbn [fst snd] in Hsim. fold w in Hsim.
  destruct (scan_loop_spec clk addOk its LLONG_MAX w) as (_ & _ & _ & Hlog & Hhe & Hmin & _).
  rewrite Hsim in Hlog, Hhe, Hmin. cbn [fst snd] in Hlog, Hhe, Hmin.
  rewrite Hq in Hlog, Hhe, Hmin. rewrite dispatched_no_quit in Hlog, Hhe.
  set (ds := List.filter (expired clk (heap w)) its) in *.
  assert (forall kv, kv ∈ ds <-> kv ∈ its /\ expired clk (heap w) kv = true) as Hds.
  { intros kv. unfold ds. rewrite list_elem_of_In, List.filter_In, <- list_elem_of_In. done. }
  assert (ds.*2 = ds.*1) as Heq.
  { assert (forall l : list (ptr * ptr), (forall kv, kv ∈ l -> kv.1 = kv.2) -> l.*2 = l.*1)
      as Hgen.
    { induction l as [|kv l IH]; [done|]. intros Hl. cbn.
      rewrite (Hl kv) by left. f_equal. apply IH. intros kv' Hin. apply Hl. by right. }
    apply Hgen. intros [k q] [Hin _]%Hds. by apply Hkv. }
  assert (NoDup ds.*1) as Hndd.
  { unfold ds. rewrite <- dispatched_no_quit. by apply dispatched_NoDup. }
  assert (attaches p (pworld c') = (attaches p w + occ p ds.*1)%nat) as Hatt.
  { unfold attaches. by rewrite Hlog, count_app, count_attach_is_occ, Heq. }
  assert (m_CallMap (helper (pworld c')) !! p =
          if bool_decide (p ∈ ds.*1) then None else Some p) as Hmap.
  { rewrite Hhe. cbn [m_CallMap set_callmap].
    by rewrite erase_dispatched_is_removals, apply_removals_lookup, Hp. }
  assert ((p, p) ∈ its) as Hpin by (by apply Hits).
  change (t_at clk p - m_StartTime (deref w p) >? ns_of_ms (m_Duration (deref w p)))
    with (expired clk (heap w) (p, p)).
  destruct (expired clk (heap w) (p, p)) eqn:Hexp.
  - assert (p ∈ ds.*1) as Hd.
    { apply list_elem_of_fmap. exists (p, p). split; [done|]. by apply Hds. }
    rewrite Hmap, bool_decide_eq_true_2 by done. split; [|done].
    pose proof (occ_NoDup p _ Hndd). pose proof (occ_elem p _ Hd). lia.
  - assert (p ∉ ds.*1) as Hd.
    { intros ([k v] & Hk & [Hin Hexp']%Hds)%list_elem_of_fmap. cbn in Hk. subst k.
      pose proof (Hkv _ _ Hin) as <-. congruence. }
    rewrite Hmap, bool_decide_eq_false_2 by done.
    rewrite Hatt, (occ_notin p _ Hd). split; [lia|]. split; [done|].
    rewrite Hmin.
    assert ((p, p) ∈ kept clk false (heap w) its) as Hk.
    { clear -Hpin Hexp. induction its as [|kv rest IH]; [by apply elem_of_nil in Hpin|].
      cbn. apply elem_of_cons in Hpin as [<-|Hin].
      - rewrite Hexp. left.
      - destruct (expired clk (heap w) kv); [by apply IH|right; by apply IH]. }
    apply (min_remaining_lower clk (heap w) _ (p, p) Hk LLONG_MAX).
Qed.

Lemma scan_dispatches_every_expired_entry_witness :
  let c := mkProcess (world_one_entry 50) AtScan [] in
  let clk := clock_at 60000000 in
  let addOk := fun _ : ptr => true in
  exists minSpan c',
    scan_loop_asserting clk addOk [(0%nat, 0%nat)] LLONG_MAX c = Some (minSpan, c') /\
    if t_at clk 0%nat - m_StartTime (deref (pworld c) 0%nat)
         >? ns_of_ms (m_Duration (deref (pworld c) 0%nat))
    then attaches 0%nat (pworld c') = S (attaches 0%nat (pworld c)) /\
         m_CallMap (helper (pworld c')) !! 0%nat = None
    else attaches 0%nat (pworld c') = attaches 0%nat (pworld c) /\
         m_CallMap (helper (pworld c')) !! 0%nat = Some 0%nat /\
         minSpan <= ns_of_ms (m_Duration (deref (pworld c) 0%nat))
                    - (t_at clk 0%nat - m_StartTime (deref (pworld c) 0%nat)).
Proof.
  apply (scan_dispatches_every_expired_entry [(0%nat, 0%nat)] (clock_at 60000000)
           (fun _ => true) (mkProcess (world_one_entry 50) AtScan []) 0%nat).
  - apply (bool_decide_unpack _). vm_compute. exact I.
  - vm_compute. reflexivity.
  - apply (bool_decide_unpack _). vm_compute. exact I.
  - intros q Hq _. left. apply elem_of_map_to_list in Hq.
    assert (map_to_list (m_CallMap (helper (pworld (mkProcess (world_one_entry 50) AtScan []))))
            = [(0%nat, 0%nat)]) as Hl by (vm_compute; reflexivity).
    rewrite Hl in Hq. apply list_elem_of_singleton in Hq. injection Hq as ->.
    vm_compute. reflexivity.
  - vm_compute. reflexivity.
Defined.

(** ** The flags of the registry, statement by statement *)



Lemma notify_quit_fields h :
  m_Running (notify (set_quit true h)) = m_Running h /\
  m_CallMap (notify (set_quit true h)) = m_CallMap h /\
  m_DelVect (notify (set_quit true h)) = m_DelVect h /\
  m_CheckTh (notify (set_quit true h)) =
    match m_CheckTh h with Parked => Exited | ph => ph end.
Proof. destruct h as [[] q r m n d]; done. Qed.









(** The timer of handle 2 is started after [Merge] and before the test of
    [m_CallMap.empty()]: [m_Running] is still set, so it goes to
    [m_NewVect]; the thread finds the map empty, clears [m_Running] and
    waits.  The entry stays in [m_NewVect], outside the map, until some
    later [start] wakes the thread. *)
Example entry_stranded_in_m_NewVect :
  exists c,
    prun stranded_add (process_initial 0%nat) = Some c /\
    m_CheckTh (helper (pworld c)) = Parked /\
    m_Running (helper (pworld c)) = false /\
    m_CallMap (helper (pworld c)) = ∅ /\
    m_NewVect (helper (pworld c)) = [1%nat] /\
    IsValid (deref (pworld c) 1%nat) = true.
Proof.
  exists (default (process_initial 0%nat) (prun stranded_add (process_initial 0%nat))).
  split; [by vm_compute|]. split; [by vm_compute|]. split; [by vm_compute|].
  split; [by vm_compute|]. split; by vm_compute.
Qed.

(** * From the dispatch to the callback *)

(** C5 (amended).  (1) An iteration of the loop dispatches an entry only if,
    at the reading of the clock taken for it, the time elapsed since the
    start time the entry then has is strictly greater than its duration.
    (2) A callback never runs without such a dispatch: in every state the
    process reaches, an entry has had at most as many callbacks as
    dispatches.  (3) A step that runs a callback of an entry is no
    iteration of the loop, dispatches nothing, and takes one of the
    dispatches of that entry that were waiting (a pending call or a hook)
    away.  Nothing ties the waiting dispatch to the start time it was
    decided for: see the counterexample. *)
Theorem dispatch_only_after_duration :
  (forall clk addOk w p,
     (attaches p w < attaches p (cycle clk addOk w))%nat ->
     exists k,
       m_CallMap (helper w) !! k = Some p /\
       t_at clk k - m_StartTime (deref w p) > ns_of_ms (m_Duration (deref w p))) /\
  (forall main ls w p,
     run ls (initial main) = Some w -> (callbacks p w <= attaches p w)%nat) /\
  (forall l w w' p,
     step l w = Some w' -> (callbacks p w < callbacks p w')%nat ->
     (forall clk addOk, l <> LCycle clk addOk) /\
     attaches p w' = attaches p w /\
     (pend p w' + caps p w' < pend p w + caps p w)%nat).
Proof.
  split; [exact attach_needs_expiry|]. split.
  - intros main ls w p Hrun.
    destruct (initial_counts main p) as (Hwf & Ht & Ha & _).
    destruct (run_counts ls _ _ p Hrun Hwf) as (_ & Htok & _).
    rewrite Ht, Ha in Htok. unfold tokens in Htok. lia.
  - intros l w w' p Hs Hlt.
    assert (forall clk addOk, l <> LCycle clk addOk) as Hl.
    { intros clk addOk ->. cbn in Hs. unfold CheckThread_iteration in Hs.
      destruct (m_CheckTh (helper w)); try done. injection Hs as <-.
      change (callbacks p (set_helper _ ?x)) with (callbacks p x) in Hlt.
      rewrite cycle_callbacks in Hlt. lia. }
    pose proof (step_attaches _ _ _ p Hs Hl) as Ha.
    pose proof (step_tokens _ _ _ p Hs) as Ht.
    split; [done|]. split; [done|]. unfold tokens in Ht. lia.
Qed.

(** An entry of 50 ms started at 0 and scanned at 50 ms and 1 ns. *)
Lemma dispatch_only_after_duration_witness :
  let w := world_one_entry 50 in
  let clk := clock_at 50000001 in
  (attaches 0%nat w < attaches 0%nat (cycle clk (fun _ => true) w))%nat /\
  exists k,
    m_CallMap (helper w) !! k = Some 0%nat /\
    t_at clk k - m_StartTime (deref w 0%nat) > ns_of_ms (m_Duration (deref w 0%nat)).
Proof.
  cbn zeta.
  assert (attaches 0%nat (world_one_entry 50) <
          attaches 0%nat (cycle (clock_at 50000001) (fun _ => true) (world_one_entry 50)))%nat
    as H by (vm_compute; lia).
  split; [exact H|].
  exact (proj1 dispatch_only_after_duration (clock_at 50000001) (fun _ => true)
           (world_one_entry 50) 0%nat H).
Defined.

(** C5, as stated, fails: the callback can run before the duration has
    elapsed since the start.  A timer of 50 ms is started at 0, found
    expired by the scan at 60 ms and dispatched to the main thread; before
    the interpreter runs the pending call, the handle is started again, at
    60 ms and 1 ns.  The entry is back in the active map with 50 ms to go:
    no scan whose clock reads at most 50 ms after the new start dispatches
    it.  Yet the very next step of the interpreter runs its callback, and
    hands it the new start time. *)
Lemma callback_outruns_a_new_start :
  exists w3 w4,
    run [LCreate 1%nat 50 7%nat 0%nat; LStart 1%nat 0;
         LCycle (clock_at 60000000) (fun _ => true); LStart 1%nat 60000001]
        (initial 0%nat) = Some w3 /\
    step (LRunPending true) w3 = Some w4 /\
    m_CallMap (helper w3) !! 0%nat = Some 0%nat /\
    IsValid (deref w3 0%nat) = true /\
    m_StartTime (deref w3 0%nat) = 60000001 /\
    m_Duration (deref w3 0%nat) = 50 /\
    (forall t addOk, t - 60000001 <= ns_of_ms 50 ->
                     attaches 0%nat (cycle (clock_at t) addOk w3) = attaches 0%nat w3) /\
    callbacks 0%nat w3 = 0%nat /\
    log w4 = log w3 ++ [EvCallback 0%nat 7%nat (Some (PyFloat 60000001))].
Proof.
  set (w3 := default (initial 0%nat)
               (run [LCreate 1%nat 50 7%nat 0%nat; LStart 1%nat 0;
                     LCycle (clock_at 60000000) (fun _ => true); LStart 1%nat 60000001]
                    (initial 0%nat))).
  assert (m_StartTime (deref w3 0%nat) = 60000001) as Hst by (by vm_compute).
  assert (m_Duration (deref w3 0%nat) = 50) as Hd by (by vm_compute).
  exists w3, (default w3 (step (LRunPending true) w3)).
  split; [by vm_compute|]. split; [by vm_compute|]. split; [by vm_compute|].
  split; [by vm_compute|]. split; [done|]. split; [done|].
  split; [|split; by vm_compute].
  intros t addOk Ht.
  pose proof (attaches_cycle_mono (clock_at t) addOk w3 0%nat) as Hmono.
  destruct (decide (attaches 0%nat w3 < attaches 0%nat (cycle (clock_at t) addOk w3))%nat)
    as [Hlt|Hge]; [|lia].
  destruct (attach_needs_expiry _ _ _ _ Hlt) as (k & _ & Hexp).
  rewrite Hst, Hd in Hexp. cbn in Hexp. unfold ns_of_ms in *. lia.
Qed.

(** * The two grains *)

Lemma thread_step_at (l : program_counter) its clk addOk w lk :
  m_CheckTh (helper w) = Scanning ->
  thread_step its clk addOk (mkProcess w l lk) =
  match l with
  | AtScan =>
      if bool_decide (its ≡ₚ map_to_list (m_CallMap (helper w))) then
        r ← scan_loop_asserting clk addOk its LLONG_MAX (mkProcess w l lk);
        Some (set_pc (AtMerge clk r.1) r.2)
      else None
  | AtMerge clk0 minSpan => Some (mkProcess (Merge w) (AtEmptyTest clk0 minSpan) lk)
  | AtEmptyTest clk0 minSpan =>
      Some (mkProcess (if bool_decide (m_CallMap (helper w) = ∅)
                       then set_helper (set_running false (helper w)) w else w)
                      (AtSleepTest clk0 minSpan) lk)
  | AtSleepTest clk0 minSpan =>
      Some (mkProcess (if sleep_wanted minSpan (t_begin clk0) (t_end clk0)
                       then AccurateSleep 1 w else w) AtWhileTest lk)
  | AtWhileTest =>
      Some (mkProcess w (if m_Running (helper w) then AtScan else AtQuitTest) lk)
  | AtQuitTest =>
      if m_IsQuit (helper w)
      then Some (mkProcess (set_helper (set_phase Exited (helper w)) w) AtScan lk)
      else Some (mkProcess w AtWait lk)
  | AtWait => Some (mkProcess (set_helper (set_phase Parked (helper w)) w) AtScan lk)
  end.
Proof.
  intros Hph. unfold thread_step. cbn [pworld pc]. rewrite Hph.
  destruct l; done.
Qed.

Lemma thread_iter_S_r n its clk addOk :
  forall c, thread_iter (S n) its clk addOk c =
            thread_iter n its clk addOk c ≫= thread_step its clk addOk.
Proof.
  induction n as [|n IH]; intros c.
  - change (thread_step its clk addOk c ≫= (fun c' => Some c') =
            thread_step its clk addOk c).
    by destruct (thread_step its clk addOk c).
  - change (thread_step its clk addOk c ≫= thread_iter (S n) its clk addOk =
            (thread_step its clk addOk c ≫= thread_iter n its clk addOk)
              ≫= thread_step its clk addOk).
    destruct (thread_step its clk addOk c) as [c1|]; [|done].
    exact (IH c1).
Qed.

(** X21. An iteration of the loop taken as one transition is what the
    statements of the thread do when nothing runs in between, the loop
    takes the map in the order of [map_to_list] and its assertion holds:
    five statements from the [for] loop to the test of [while (m_Running)]
    when the loop goes on, one more when the thread exits, two more when it
    goes to wait. *)
Theorem iteration_is_the_statements_in_a_row (clk : ScanClock) (addOk : ptr -> bool)
    (c : Process) (w' : World) :
  pc c = AtScan ->
  CheckThread_iteration clk addOk (pworld c) = Some w' ->
  is_Some (scan_loop_asserting clk addOk (map_to_list (m_CallMap (helper (pworld c))))
             LLONG_MAX c) ->
  exists n c',
    thread_iter n (map_to_list (m_CallMap (helper (pworld c)))) clk addOk c = Some c' /\
    pworld c' = w' /\ pc c' = AtScan /\
    n = (if m_Running (helper w') then 5
         else if m_IsQuit (helper w') then 6 else 7)%nat.
Proof.
  intros Hpc Hit [[m c1] Hr]. unfold CheckThread_iteration in Hit.
  destruct (m_CheckTh (helper (pworld c))) eqn:Hph; try done. injection Hit as <-.
  destruct c as [w l lk]. cbn [pworld pc] in *. subst l.
  set (its := map_to_list (m_CallMap (helper w))) in *.
  pose proof (scan_loop_asserting_sim _ _ _ _ _ _ Hr) as [Hsim Hpc1].
  cbn [fst snd pworld pc] in Hsim, Hpc1.
  destruct c1 as [w1 l1 lk1]. cbn [pworld pc] in *. subst l1.
  assert (scan clk addOk w = (m, w1)) as Hscan by exact Hsim.
  assert (m_CheckTh (helper w1) = Scanning) as Hph1.
  { destruct (scan_spec clk addOk w) as (_ & _ & Hc & _). rewrite Hscan in Hc.
    cbn [snd] in Hc. by rewrite Hc. }
  set (w3 := if bool_decide (m_CallMap (helper (Merge w1)) = ∅)
             then set_helper (set_running false (helper (Merge w1))) (Merge w1)
             else Merge w1).
  set (w4 := if sleep_wanted m (t_begin clk) (t_end clk) then AccurateSleep 1 w3 else w3).
  assert (cycle clk addOk w = w4) as Hcyc.
  { unfold cycle, after_merge. by rewrite Hscan. }
  assert (m_CheckTh (helper w3) = Scanning) as Hph3.
  { unfold w3. by case_bool_decide. }
  assert (m_CheckTh (helper w4) = Scanning) as Hph4.
  { unfold w4. by destruct (sleep_wanted _ _ _). }
  assert (thread_iter 5 its clk addOk (mkProcess w AtScan lk) =
          Some (mkProcess w4 (if m_Running (helper w4) then AtScan else AtQuitTest) lk1))
    as H5.
  { cbn [thread_iter]. rewrite (thread_step_at AtScan) by done.
    rewrite bool_decide_eq_true_2 by done. rewrite Hr.
    do 2 bind_some.
    rewrite (thread_step_at (AtMerge clk m)) by done. bind_some.
    rewrite (thread_step_at (AtEmptyTest clk m)) by done. bind_some.
    fold w3. rewrite (thread_step_at (AtSleepTest clk m)) by done. bind_some.
    fold w4. rewrite (thread_step_at AtWhileTest) by done. done. }
  rewrite Hcyc. unfold loop_exit.
  destruct (m_Running (helper w4)) eqn:Hrun.
  - exists 5%nat. eexists. split; [exact H5|].
    assert (set_helper (helper w4) w4 = w4) as -> by (by destruct w4).
    rewrite Hrun. done.
  - destruct (m_IsQuit (helper w4)) eqn:Hquit.
    + exists 6%nat,
        (mkProcess (set_helper (set_phase Exited (helper w4)) w4) AtScan lk1).
      split; [|split; [done|split; [done|]]].
      * rewrite thread_iter_S_r, H5. bind_some.
        rewrite (thread_step_at AtQuitTest) by done. by rewrite Hquit.
      * cbn [pworld helper set_helper set_phase m_Running m_IsQuit].
        by rewrite Hrun, Hquit.
    + exists 7%nat,
        (mkProcess (set_helper (set_phase Parked (helper w4)) w4) AtScan lk1).
      split; [|split; [done|split; [done|]]].
      * rewrite thread_iter_S_r, thread_iter_S_r, H5. bind_some.
        rewrite (thread_step_at AtQuitTest) by done. rewrite Hquit. bind_some.
        by rewrite (thread_step_at AtWait) by done.
      * cbn [pworld helper set_helper set_phase m_Running m_IsQuit].
        by rewrite Hrun, Hquit.
Qed.

Lemma iteration_is_the_statements_in_a_row_witness :
  let c := mkProcess (world_one_entry 50) AtScan [] in
  let clk := clock_at 60000000 in
  let addOk := fun _ : ptr => true in
  let w' := default (world_one_entry 50) (CheckThread_iteration clk addOk (pworld c)) in
  exists n c',
    thread_iter n (map_to_list (m_CallMap (helper (pworld c)))) clk addOk c = Some c' /\
    pworld c' = w' /\ pc c' = AtScan /\
    n = (if m_Running (helper w') then 5
         else if m_IsQuit (helper w') then 6 else 7)%nat.
Proof.
  apply (iteration_is_the_statements_in_a_row (clock_at 60000000) (fun _ => true)
           (mkProcess (world_one_entry 50) AtScan [])).
  - reflexivity.
  - vm_compute. reflexivity.
  - apply (bool_decide_unpack _). vm_compute. exact I.
Defined.

(** ** Going to wait, and waking up *)

(** X22. Statement by statement: when the thread finds the map empty at the
    test of [m_CallMap.empty()] and no shutdown has been asked for, its
    next five statements, with nothing running in between, clear
    [m_Running], leave the [do .. while] and end in [m_RunCond.wait].  The
    waiting thread has no statement to run; it goes on waiting through
    every call that is not a [start], a [reset] or the shutdown; a [start]
    or [reset] that comes while it waits sends it back to the [for] loop
    with [m_Running] set, and the shutdown makes it exit. *)
Theorem thread_waits_when_the_map_is_empty (c : Process) (clk0 : ScanClock) (m : Z) :
  m_CheckTh (helper (pworld c)) = Scanning ->
  pc c = AtEmptyTest clk0 m ->
  m_CallMap (helper (pworld c)) = ∅ ->
  m_IsQuit (helper (pworld c)) = false ->
  exists c',
    (forall its clk addOk, thread_iter 5 its clk addOk c = Some c') /\
    m_CheckTh (helper (pworld c')) = Parked /\
    m_Running (helper (pworld c')) = false /\ pc c' = AtScan /\
    (forall its clk addOk, thread_step its clk addOk c' = None) /\
    (forall ls c'', Forall (fun l => ~ pwakes l) ls -> prun ls c' = Some c'' ->
                    m_CheckTh (helper (pworld c'')) = Parked) /\
    (forall h now c'', call_step (LStart h now) c' = Some c'' ->
                       m_CheckTh (helper (pworld c'')) = Scanning /\ pc c'' = AtScan /\
                       m_Running (helper (pworld c'')) = true) /\
    (forall h now th c'', call_step (LReset h now th) c' = Some c'' ->
                          m_CheckTh (helper (pworld c'')) = Scanning /\ pc c'' = AtScan /\
                          m_Running (helper (pworld c'')) = true) /\
    (forall c'', call_step LShutdown c' = Some c'' ->
                 m_CheckTh (helper (pworld c'')) = Exited).
Proof.
  intros Hph Hpc Hm Hq. destruct c as [w l lk]. cbn [pworld pc] in *. subst l.
  set (w1 := set_helper (set_running false (helper w)) w).
  set (w2 := if sleep_wanted m (t_begin clk0) (t_end clk0) then AccurateSleep 1 w1 else w1).
  set (w5 := set_helper (set_phase Parked (helper w2)) w2).
  assert (helper w2 = set_running false (helper w)) as Hh2.
  { unfold w2. by destruct (sleep_wanted _ _ _). }
  assert (helper w5 = set_phase Parked (set_running false (helper w))) as Hh5.
  { unfold w5. cbn [helper set_helper]. by rewrite Hh2. }
  assert (m_CheckTh (helper w5) = Parked) as Hph5 by (by rewrite Hh5).
  assert (m_IsQuit (helper w5) = false) as Hq5 by (by rewrite Hh5).
  exists (mkProcess w5 AtScan lk).
  split.
  { intros its clk addOk. cbn [thread_iter].
    rewrite (thread_step_at (AtEmptyTest clk0 m)) by done. bind_some.
    rewrite bool_decide_eq_true_2 by done. fold w1.
    rewrite (thread_step_at (AtSleepTest clk0 m)) by done. bind_some. fold w2.
    rewrite (thread_step_at AtWhileTest) by (by rewrite Hh2). bind_some.
    rewrite Hh2. cbn [m_Running set_running].
    rewrite (thread_step_at AtQuitTest) by (by rewrite Hh2). rewrite Hh2.
    cbn [m_IsQuit set_running]. rewrite Hq. bind_some.
    rewrite (thread_step_at AtWait) by (by rewrite Hh2). done. }
  cbn [pworld pc].
  split; [done|]. split; [by rewrite Hh5|]. split; [done|].
  split.
  { intros its clk addOk. unfold thread_step. cbn [pworld]. by rewrite Hph5. }
  split.
  { intros ls c'' Hall Hrun.
    by destruct (prun_parked ls 0%nat (mkProcess w5 AtScan lk) c'' Hall Hrun Hph5). }
  split; [|split].
  - intros h now c'' Hs. destruct (call_step_sim _ _ _ Hs) as [Hst ->].
    apply step_inv in Hst as (q & _ & ->). cbn [pworld pc].
    change (helper (Start q (update q (RecordStartTime now) w5)))
      with (helper_Start q (helper w5)).
    destruct (helper_Start_fields q (helper w5)) as (_ & _ & _ & -> & -> & _).
    by rewrite Hph5, Hq5.
  - intros h now th c'' Hs. destruct (call_step_sim _ _ _ Hs) as [Hst ->].
    apply step_inv in Hst as (q & f & _ & _ & ->). cbn [pworld pc].
    match goal with |- context [helper (Start ?p ?x)] =>
      change (helper (Start p x)) with (helper_Start p (helper w5)) end.
    destruct (helper_Start_fields (fresh_ptr (update q Release w5)) (helper w5))
      as (_ & _ & _ & -> & -> & _).
    by rewrite Hph5, Hq5.
  - intros c'' Hs. destruct (call_step_sim _ _ _ Hs) as [Hst _].
    apply step_inv in Hst. cbn [pworld] in Hst. rewrite Hst.
    change (helper (Shutdown w5)) with (notify (set_quit true (helper w5))).
    destruct (notify_quit_fields (helper w5)) as (_ & _ & _ & ->). by rewrite Hph5.
Qed.

Lemma thread_waits_when_the_map_is_empty_witness :
  let c := default (process_initial 0%nat)
             (prun ([PCall (LCreate 1%nat 50 7%nat 0%nat); PCall (LStart 1%nat 0)] ++
                    thread_steps 1 [(0%nat, 0%nat)] (clock_at 60000000) (fun _ => true))
                   (process_initial 0%nat)) in
  exists c',
    (forall its clk addOk, thread_iter 5 its clk addOk c = Some c') /\
    m_CheckTh (helper (pworld c')) = Parked /\
    m_Running (helper (pworld c')) = false /\ pc c' = AtScan /\
    (forall its clk addOk, thread_step its clk addOk c' = None) /\
    (forall ls c'', Forall (fun l => ~ pwakes l) ls -> prun ls c' = Some c'' ->
                    m_CheckTh (helper (pworld c'')) = Parked) /\
    (forall h now c'', call_step (LStart h now) c' = Some c'' ->
                       m_CheckTh (helper (pworld c'')) = Scanning /\ pc c'' = AtScan /\
                       m_Running (helper (pworld c'')) = true) /\
    (forall h now th c'', call_step (LReset h now th) c' = Some c'' ->
                          m_CheckTh (helper (pworld c'')) = Scanning /\ pc c'' = AtScan /\
                          m_Running (helper (pworld c'')) = true) /\
    (forall c'', call_step LShutdown c' = Some c'' ->
                 m_CheckTh (helper (pworld c'')) = Exited).
Proof.
  apply (thread_waits_when_the_map_is_empty _ (clock_at 60000000) LLONG_MAX).
  - vm_compute. reflexivity.
  - vm_compute. reflexivity.
  - vm_compute. reflexivity.
  - vm_compute. reflexivity.
Defined.

End XTimeout.
